(** * Viral content researcher: curation, scoring and orchestration core

    A shallow embedding of [curator.py], [researcher.py] and the parts of
    [models.py] they use, followed by the properties of the pipeline.

    Conventions of the embedding.
    - Python [int] is [Z]; a Python [float] is the rational number it
      stands for ([Q]). [Curator] computes over the exact rationals: there
      [a / b] is exact division and [round(x, 2)] is round-half-even on the
      hundredths; the orders and the bounds of the scores are stated on it.
      [Curator64] has the scoring once more in binary64 arithmetic, every
      operation rounded to the nearest float ([Float64]), and [sum] adding
      from the left as CPython does before 3.12; the value of a score is
      stated on it.
    - [str] is [string] (titles over ASCII): [lower] folds A-Z, [split]
      cuts at ASCII whitespace.
    - A [datetime] is a UTC instant counted in microseconds ([Z]); every
      adapter of the repository builds its timestamps with [timezone.utc].
    - [datetime.now] reads a clock; the clock is the stream [clock] and the
      number of readings made so far is threaded through the code.
    - [set] is stdpp's [gset]; lists updated in place use stdpp's insert. *)

From Stdlib Require Import ZArith QArith Qround Qminmax Qabs.
From Stdlib Require Import Ascii String List Lia Lqa Sorting.Sorted.
From stdpp Require Import base gmap sets list strings.

Local Open Scope Z_scope.

(** ** Python strings *)

Module PyStr.

(** [str.lower] on one ASCII character. *)
Definition lower_ascii (c : ascii) : ascii :=
  let n := nat_of_ascii c in
  if ((65 <=? n)%nat && (n <=? 90)%nat)%bool then ascii_of_nat (n + 32) else c.

(** [s.lower()] *)
Fixpoint lower (s : string) : string :=
  match s with
  | EmptyString => EmptyString
  | String c r => String (lower_ascii c) (lower r)
  end.

(** The characters [str.split()] cuts at: TAB, LF, VT, FF, CR, the
    separators FS, GS, RS, US, and the space. *)
Definition is_space (c : ascii) : bool :=
  let n := nat_of_ascii c in
  (((9 <=? n)%nat && (n <=? 13)%nat) || ((28 <=? n)%nat && (n <=? 32)%nat))%bool.

(** [split_aux cur s]: [cur] is the word being read, reversed. *)
Fixpoint split_aux (cur : list ascii) (s : string) : list string :=
  match s with
  | EmptyString =>
      match cur with
      | [] => []
      | _ => [string_of_list_ascii (rev cur)]
      end
  | String c r =>
      if is_space c then
        match cur with
        | [] => split_aux [] r
        | _ => string_of_list_ascii (rev cur) :: split_aux [] r
        end
      else split_aux (c :: cur) r
  end.

(** [s.split()] : maximal runs of non-whitespace characters. *)
Definition split (s : string) : list string := split_aux [] s.

(** [s.startswith(p)] *)
Fixpoint prefix (p s : string) : bool :=
  match p, s with
  | EmptyString, _ => true
  | String a p', String b s' => if Ascii.eqb a b then prefix p' s' else false
  | String _ _, EmptyString => false
  end.

(** [p in s] for strings: [p] occurs as a contiguous substring of [s]. *)
Fixpoint contains (p s : string) : bool :=
  if prefix p s then true
  else match s with
       | EmptyString => false
       | String _ s' => contains p s'
       end.

End PyStr.

(** ** Python numbers *)

Module PyNum.

Definition Qltb (a b : Q) : bool := negb (Qle_bool b a).
Definition Qgtb (a b : Q) : bool := Qltb b a.
Definition Qgeb (a b : Q) : bool := Qle_bool b a.

(** [int / int] and [int / float]: true division. *)
Definition zdiv (a : Z) (b : Q) : Q := (inject_Z a / b)%Q.

(** Round half to even, to an integer. *)
Definition round_half_even (x : Q) : Z :=
  let f := Qfloor x in
  let r := (x - inject_Z f)%Q in
  if Qltb r (1 # 2) then f
  else if Qltb (1 # 2) r then f + 1
  else if Z.even f then f else f + 1.

(** [round(x, 2)] *)
Definition round2 (x : Q) : Q :=
  (inject_Z (round_half_even (x * 100)) / 100)%Q.

(** [l[:n]] for a Python [int] [n]: a negative [n] counts from the end. *)
Definition slice_to {A} (l : list A) (n : Z) : list A :=
  if 0 <=? n then firstn (Z.to_nat n) l
  else firstn (length l - Z.to_nat (- n))%nat l.

End PyNum.

(** ** Python floats *)

(** A Python [float] is an IEEE 754 binary64 number. A finite float is
    represented by the rational number it stands for, and every operation
    returns the exact result rounded to the nearest float, ties to the even
    significand. Results beyond the largest float (about 1.8e308), where
    Python gives [inf] or raises [OverflowError], are not modelled. *)
Module Float64.

(** [x] counted in the smallest positive float, [2^-1074]. *)
Definition units (x : Q) : Q := (x * inject_Z (2 ^ 1074))%Q.

(** The distance between the floats around [x], in these units: 1 below
    [2^53] units (the subnormal floats and the first binade), and
    [2^(e-52)] from [2^e] units to [2^(e+1)] units. *)
Definition spacing (x : Q) : Z :=
  2 ^ (Z.max (Z.log2 (Qfloor (Qabs (units x)))) 52 - 52).

(** The float nearest to [x], ties to even. *)
Definition fl (x : Q) : Q :=
  Qred (inject_Z (PyNum.round_half_even (units x / inject_Z (spacing x))
                  * spacing x)
        / inject_Z (2 ^ 1074))%Q.

(** [a + b], [a - b], [a * b] and [a / b] on floats; an [int] operand is
    converted first, which is exact below [2^53]. *)
Definition fadd (a b : Q) : Q := fl (a + b).
Definition fsub (a b : Q) : Q := fl (a - b).
Definition fmul (a b : Q) : Q := fl (a * b).
Definition fdiv (a b : Q) : Q := fl (a / b).

(** [float(n)] for an [int]. *)
Definition of_int (n : Z) : Q := fl (inject_Z n).

(** [a / b] for two [int]s: the quotient is rounded once. *)
Definition int_div (a b : Z) : Q := fl (inject_Z a / inject_Z b).

(** [round(x, 2)] for a float: the decimal with two places nearest to the
    exact value of [x], ties to even, then the float nearest to that
    decimal. *)
Definition round2 (x : Q) : Q := fl (PyNum.round2 x).

End Float64.

#[global] Arguments Float64.fl : simpl never.

(** ** models.py *)

Inductive TrendSource :=
  | REDDIT | GOOGLE_TRENDS | HACKER_NEWS | PRODUCT_HUNT
  | RSS_FEED | TWITTER | LINKEDIN | NEWS_API.

Inductive ContentCategory :=
  | SEO | SOCIAL_MEDIA | EMAIL_MARKETING | CONTENT_MARKETING | PAID_ADS
  | ANALYTICS | BRANDING | GROWTH_HACKING | INFLUENCER | VIDEO_MARKETING
  | AI_MARKETING | ECOMMERCE | B2B | STARTUP | GENERAL.

#[global] Instance TrendSource_eq_dec : EqDecision TrendSource.
Proof. solve_decision. Defined.

#[global] Instance ContentCategory_eq_dec : EqDecision ContentCategory.
Proof. solve_decision. Defined.

(** [TrendSource.value] *)
Definition source_value (s : TrendSource) : string :=
  match s with
  | REDDIT => "reddit" | GOOGLE_TRENDS => "google_trends"
  | HACKER_NEWS => "hacker_news" | PRODUCT_HUNT => "product_hunt"
  | RSS_FEED => "rss_feed" | TWITTER => "twitter"
  | LINKEDIN => "linkedin" | NEWS_API => "news_api"
  end.

(** [ContentCategory.value] *)
Definition category_value (c : ContentCategory) : string :=
  match c with
  | SEO => "seo" | SOCIAL_MEDIA => "social_media"
  | EMAIL_MARKETING => "email_marketing"
  | CONTENT_MARKETING => "content_marketing" | PAID_ADS => "paid_ads"
  | ANALYTICS => "analytics" | BRANDING => "branding"
  | GROWTH_HACKING => "growth_hacking" | INFLUENCER => "influencer"
  | VIDEO_MARKETING => "video_marketing" | AI_MARKETING => "ai_marketing"
  | ECOMMERCE => "ecommerce" | B2B => "b2b" | STARTUP => "startup"
  | GENERAL => "general"
  end.

(** A UTC instant, in microseconds. *)
Definition datetime := Z.

(** [class Topic(BaseModel)] *)
Record Topic := mkTopic {
  id : option string;
  title : string;
  description : option string;
  url : option string;
  source : TrendSource;
  category : ContentCategory;
  score : Z;
  comments : Z;
  shares : Z;
  views : Z;
  virality_score : Q;
  trending_velocity : Q;
  keywords : list string;
  hashtags : list string;
  author : option string;
  published_at : option datetime;
  discovered_at : datetime;
  content_angle : option string;
  target_audience : option string
}.

(** [topic.virality_score = v] *)
Definition set_virality_score (v : Q) (t : Topic) : Topic :=
  mkTopic (id t) (title t) (description t) (url t) (source t) (category t)
          (score t) (comments t) (shares t) (views t) v (trending_velocity t)
          (keywords t) (hashtags t) (author t) (published_at t)
          (discovered_at t) (content_angle t) (target_audience t).

(** [Topic.__eq__]: field by field; floats compare by value. *)
Definition topic_eqb (a b : Topic) : bool :=
  bool_decide (id a = id b) && bool_decide (title a = title b)
  && bool_decide (description a = description b)
  && bool_decide (url a = url b) && bool_decide (source a = source b)
  && bool_decide (category a = category b)
  && (score a =? score b) && (comments a =? comments b)
  && (shares a =? shares b) && (views a =? views b)
  && Qeq_bool (virality_score a) (virality_score b)
  && Qeq_bool (trending_velocity a) (trending_velocity b)
  && bool_decide (keywords a = keywords b)
  && bool_decide (hashtags a = hashtags b)
  && bool_decide (author a = author b)
  && bool_decide (published_at a = published_at b)
  && (discovered_at a =? discovered_at b)
  && bool_decide (content_angle a = content_angle b)
  && bool_decide (target_audience a = target_audience b).

(** [class ResearchSession(BaseModel)] *)
Record ResearchSession := mkSession {
  session_id : option string;
  started_at : datetime;
  completed_at : option datetime;
  topics_discovered : Z;
  topics_curated : Z;
  briefs_generated : Z;
  sources_queried : list TrendSource;
  filters_categories : list string;
  filters_min_score : Q
}.

(** ** Title token sets *)

(** [set(title.lower().split())] *)
Definition title_words (t : Topic) : gset string :=
  list_to_set (PyStr.split (PyStr.lower (title t))).

(** ** The wall clock *)

(** A computation that may read the clock: it receives the number of
    readings made so far and returns the updated number. *)
Definition Clock (A : Type) : Type := nat → A * nat.

Definition cret {A} (a : A) : Clock A := λ k, (a, k).

Definition cbind {A B} (m : Clock A) (f : A → Clock B) : Clock B :=
  λ k, let (a, k') := m k in f a k'.

Declare Scope clock_scope.
Delimit Scope clock_scope with clock.
Notation "x <- m ;; f" := (cbind m (λ x, f))
  (at level 200, m at level 99, f at level 200, only parsing) : clock_scope.

(** [(now - published).total_seconds() / 3600] *)
Definition hours_between (now published : datetime) : Q :=
  (inject_Z (now - published) / 1000000 / 3600)%Q.

(** ** curator.py *)

(** The keys of the [scores] and [WEIGHTS] dictionaries. *)
Inductive Factor := engagement | recency | relevance | velocity | uniqueness.

(** [ContentCurator.__init__] *)
Record ContentCurator := mkCurator {
  min_score : Q;
  max_age_hours : Z;
  boost_categories : list ContentCategory
}.

(** [ContentCurator()] with the default arguments. *)
Definition default_curator : ContentCurator :=
  mkCurator 30 72 [AI_MARKETING; GROWTH_HACKING; SEO].

Module Curator.
Import PyNum.

Definition WEIGHTS (key : Factor) : Q :=
  match key with
  | engagement => 25 # 100
  | recency => 20 # 100
  | relevance => 25 # 100
  | velocity => 15 # 100
  | uniqueness => 15 # 100
  end.

Definition HIGH_VALUE_KEYWORDS : list string :=
  [ "ai"; "chatgpt"; "automation"; "no-code"; "growth";
    "viral"; "10x"; "secret"; "strategy"; "hack";
    "free"; "tool"; "template"; "guide"; "case study";
    "revenue"; "million"; "scaling"; "framework"; "playbook" ]%string.

Definition TRENDING_INDICATORS : list string :=
  [ "just launched"; "new"; "breaking"; "update"; "2024"; "2025";
    "announcement"; "release"; "introducing"; "first" ]%string.

(** [sum(1 for kw in kws if kw in text)] *)
Definition count_in (kws : list string) (text : string) : Z :=
  Z.of_nat (length (List.filter (λ kw, PyStr.contains kw text) kws)).

(** The Jaccard overlap of [deduplicate_topics]:
    [len(a & b) / max(len(a | b), 1)] *)
Definition jaccard (a b : gset string) : Q :=
  zdiv (Z.of_nat (size (a ∩ b))) (inject_Z (Z.max (Z.of_nat (size (a ∪ b))) 1)).

(** The overlap of [calculate_uniqueness_score]:
    [len(a & b) / max(len(a), 1)] *)
Definition containment (a b : gset string) : Q :=
  zdiv (Z.of_nat (size (a ∩ b))) (inject_Z (Z.max (Z.of_nat (size a)) 1)).

(** [list.remove(x)]: drops the first element equal to [x]. Python raises
    [ValueError] when there is none; [remove_found] below shows that
    [deduplicate_topics] never gets there, and the list is returned as it
    is in that case. *)
Fixpoint list_remove (x : Topic) (l : list Topic) : list Topic :=
  match l with
  | [] => []
  | y :: r => if topic_eqb y x then r else y :: list_remove x r
  end.

(** [list.sort(key=key, reverse=True)]: a stable sort, largest key first;
    elements with equal keys keep their order. *)
Fixpoint insert_desc {A} (key : A → Q) (x : A) (l : list A) : list A :=
  match l with
  | [] => [x]
  | y :: r => if Qltb (key x) (key y) then y :: insert_desc key x r
              else x :: y :: r
  end.

Definition sort_desc {A} (key : A → Q) (l : list A) : list A :=
  foldr (insert_desc key) [] l.

Section WithClock.

(** [clock k] is the value of the [k]-th call of [datetime.now]. *)
Variable clock : nat → datetime.

Definition now : Clock datetime := λ k, (clock k, S k).

Section Methods.

Variable self : ContentCurator.

Local Open Scope Q_scope.

Definition calculate_engagement_score (topic : Topic) : Q :=
  let s := 0 in
  let s := if (0 <? score topic)%Z
           then s + Qmin (zdiv (score topic) 50) 40 else s in
  let s := if (0 <? comments topic)%Z
           then s + Qmin (zdiv (comments topic) 25) 30 else s in
  let s := if (0 <? shares topic)%Z
           then s + Qmin (zdiv (shares topic) 10) 30 else s in
  Qmin s 100.

Definition calculate_recency_score (topic : Topic) : Clock Q :=
  match published_at topic with
  | None => cret 30
  | Some published =>
      (n <- now ;;
       let hours_old := hours_between n published in
       cret (if Qltb hours_old 2 then 100
             else if Qltb hours_old 6 then 90
             else if Qltb hours_old 12 then 80
             else if Qltb hours_old 24 then 70
             else if Qltb hours_old 48 then 50
             else if Qltb hours_old 72 then 30
             else 10))%clock
  end.

Definition calculate_relevance_score (topic : Topic) : Q :=
  let s := 50%Z in
  let title_lower := PyStr.lower (title topic) in
  let desc_lower := PyStr.lower (default EmptyString (description topic)) in
  let text := (title_lower ++ " " ++ desc_lower)%string in
  let keyword_matches := count_in HIGH_VALUE_KEYWORDS text in
  let s := (s + Z.min (keyword_matches * 5) 30)%Z in
  let trending_matches := count_in TRENDING_INDICATORS text in
  let s := (s + Z.min (trending_matches * 5) 15)%Z in
  let s := if bool_decide (category topic ∈ boost_categories self)
           then (s + 10)%Z else s in
  let s := match keywords topic with
           | [] => s
           | _ => (s + Z.min (Z.of_nat (length (keywords topic)) * 2) 10)%Z
           end in
  inject_Z (Z.min s 100).

Definition calculate_velocity_score (topic : Topic) : Clock Q :=
  if Qltb 0 (trending_velocity topic)
  then cret (Qmin (trending_velocity topic) 100)
  else
    match published_at topic with
    | None => cret 40
    | Some published =>
        (n <- now ;;
         let hours_old := Qmax (hours_between n published) 1 in
         let engagement_rate :=
           inject_Z (score topic + comments topic * 2) / hours_old in
         cret (if Qltb 50 engagement_rate then 100
               else if Qltb 25 engagement_rate then 80
               else if Qltb 10 engagement_rate then 60
               else if Qltb 5 engagement_rate then 40
               else 20))%clock
    end.

(** The loop of [calculate_uniqueness_score]: [max_overlap] after the
    topics of [existing_topics] have been visited. *)
Definition max_overlap_loop (topic : Topic) (existing_topics : list Topic)
    (max_overlap : Q) : Q :=
  fold_left
    (λ max_overlap existing,
       if bool_decide (id existing = id topic) then max_overlap
       else Qmax max_overlap
                 (containment (title_words topic) (title_words existing)))
    existing_topics max_overlap.

Definition calculate_uniqueness_score (topic : Topic)
    (existing_topics : option (list Topic)) : Q :=
  match existing_topics with
  | None | Some [] => 70
  | Some existing_topics =>
      let max_overlap := max_overlap_loop topic existing_topics 0 in
      Qmax (100 - max_overlap * 100) 10
  end.

(** The [scores] dictionary of [score_topic], in insertion order. *)
Definition factor_scores (topic : Topic)
    (existing_topics : option (list Topic)) : Clock (list (Factor * Q)) :=
  (let e := calculate_engagement_score topic in
   r <- calculate_recency_score topic ;;
   let rel := calculate_relevance_score topic in
   v <- calculate_velocity_score topic ;;
   let u := calculate_uniqueness_score topic existing_topics in
   cret [ (engagement, e); (recency, r); (relevance, rel);
          (velocity, v); (uniqueness, u) ])%clock.

(** [sum(scores[key] * WEIGHTS[key] for key in scores)] *)
Definition weighted_sum (scores : list (Factor * Q)) : Q :=
  fold_left (λ acc kv, acc + snd kv * WEIGHTS (fst kv)) scores 0.

Definition score_topic (topic : Topic)
    (existing_topics : option (list Topic)) : Clock Q :=
  (scores <- factor_scores topic existing_topics ;;
   cret (round2 (weighted_sum scores)))%clock.

(** [for topic in topics: topic.virality_score = score_topic(topic, topics)]
    from position [i] on, for at most [n] topics. The list is updated in
    place, and the comparison batch of each call is the list as it is at
    that moment. *)
Fixpoint score_all (n i : nat) (topics : list Topic) : Clock (list Topic) :=
  match n with
  | O => cret topics
  | S n' =>
      match topics !! i with
      | None => cret topics
      | Some topic =>
          (v <- score_topic topic (Some topics) ;;
           score_all n' (S i) (<[i := set_virality_score v topic]> topics))%clock
      end
  end.

Definition curate_topics (topics : list Topic) (limit : Z)
    (categories : option (list ContentCategory))
    (min_score_arg : option Q) : Clock (list Topic) :=
  let min_score := default (min_score self) min_score_arg in
  let topics :=
    match categories with
    | None | Some [] => topics
    | Some cs => List.filter (λ t, bool_decide (category t ∈ cs)) topics
    end in
  (n <- now ;;
   let topics :=
     List.filter
       (λ t, match published_at t with
             | None => true
             | Some p => Qle_bool (hours_between n p)
                                  (inject_Z (max_age_hours self))
             end) topics in
   topics <- score_all (length topics) 0 topics ;;
   let topics := List.filter (λ t, Qgeb (virality_score t) min_score) topics in
   let topics := sort_desc virality_score topics in
   cret (slice_to topics limit))%clock.

(** The inner loop of [deduplicate_topics]: the first accepted topic
    whose overlap with the new title reaches the threshold. *)
Fixpoint find_duplicate (similarity_threshold : Q) (words : gset string)
    (unique_topics : list Topic) : option Topic :=
  match unique_topics with
  | [] => None
  | existing :: rest =>
      if Qgeb (jaccard words (title_words existing)) similarity_threshold
      then Some existing
      else find_duplicate similarity_threshold words rest
  end.

(** One round of the outer loop of [deduplicate_topics]. *)
Definition dedup_step (similarity_threshold : Q)
    (unique_topics : list Topic) (topic : Topic) : list Topic :=
  match find_duplicate similarity_threshold (title_words topic) unique_topics with
  | Some existing =>
      if Qgtb (virality_score topic) (virality_score existing)
      then list_remove existing unique_topics ++ [topic]
      else unique_topics
  | None => unique_topics ++ [topic]
  end.

Definition deduplicate_topics (topics : list Topic)
    (similarity_threshold : Q) : list Topic :=
  fold_left (dedup_step similarity_threshold) topics [].

(** The default of [similarity_threshold]. *)
Definition default_threshold : Q := 6 # 10.

End Methods.

End WithClock.

(** *** The brief helpers of the curator *)

(** [FORMAT_KEYWORDS], in the order of the dictionary. *)
Definition FORMAT_KEYWORDS : list (string * string) :=
  [ ("how to", "tutorial"); ("guide", "guide"); ("list", "listicle");
    ("vs", "comparison"); ("review", "review");
    ("case study", "case_study"); ("template", "template");
    ("tool", "tool_review"); ("tips", "listicle");
    ("mistakes", "listicle"); ("secrets", "listicle");
    ("strategy", "strategy_guide") ]%string.

(** The [category_formats] dictionary of [identify_content_format]. *)
Definition category_formats (c : ContentCategory) : option string :=
  match c with
  | SEO => Some "guide"
  | SOCIAL_MEDIA => Some "listicle"
  | CONTENT_MARKETING => Some "guide"
  | ANALYTICS => Some "tutorial"
  | AI_MARKETING => Some "tool_review"
  | STARTUP => Some "case_study"
  | _ => None
  end%string.

Definition identify_content_format (topic : Topic) : string :=
  let title_lower := PyStr.lower (title topic) in
  match List.find (λ kv, PyStr.contains (fst kv) title_lower) FORMAT_KEYWORDS with
  | Some kv => snd kv
  | None => default "blog_post"%string (category_formats (category topic))
  end.

Definition generate_content_angles (topic : Topic) : list string :=
  let title := title topic in
  [ "How to " ++ PyStr.lower title ++ " - Complete Guide";
    "Why " ++ title ++ " Matters in 2025";
    "Top 10 " ++ title ++ " Strategies That Work";
    title ++ " vs Traditional Methods: A Comparison";
    "The Ultimate " ++ title ++ " Playbook for Marketers";
    "Case Study: How We Achieved " ++ title;
    "Common " ++ title ++ " Mistakes to Avoid";
    "Future of " ++ title ++ ": Trends and Predictions" ]%string.

(** The [word_counts] dictionary of [estimate_word_count]. *)
Definition word_counts : gmap string Z :=
  list_to_map
    [ ("listicle", 1500); ("guide", 2500); ("tutorial", 2000);
      ("comparison", 1800); ("review", 1200); ("case_study", 2000);
      ("template", 1000); ("tool_review", 1500);
      ("strategy_guide", 3000); ("blog_post", 1500) ]%string.

Definition estimate_word_count (format_type : string) : Z :=
  default 1500 (word_counts !! format_type).

(** [if key not in d: d[key] = []] followed by [d[key].append(x)], on a
    dictionary kept as the list of its items in insertion order. *)
Fixpoint dict_append {K A} `{EqDecision K} (key : K) (x : A)
    (d : list (K * list A)) : list (K * list A) :=
  match d with
  | [] => [(key, [x])]
  | (k, l) :: rest =>
      if decide (k = key) then (k, l ++ [x]) :: rest
      else (k, l) :: dict_append key x rest
  end.

(** [d.get(key)] on such a dictionary. *)
Fixpoint dict_get {K A} `{EqDecision K} (key : K) (d : list (K * A))
    : option A :=
  match d with
  | [] => None
  | (k, a) :: rest => if decide (k = key) then Some a else dict_get key rest
  end.

Definition group_by_category (topics : list Topic)
    : list (ContentCategory * list Topic) :=
  fold_left (λ grouped topic, dict_append (category topic) topic grouped)
            topics [].

(** [d[key] = d.get(key, 0) + 1] *)
Fixpoint dict_incr {K} `{EqDecision K} (key : K) (d : list (K * Z))
    : list (K * Z) :=
  match d with
  | [] => [(key, 0 + 1)]
  | (k, n) :: rest =>
      if decide (k = key) then (k, n + 1) :: rest
      else (k, n) :: dict_incr key rest
  end.

(** The [keyword_counts] dictionary of [get_trending_keywords]. *)
Definition keyword_counts (topics : list Topic) : list (string * Z) :=
  fold_left
    (λ counts topic,
       fold_left (λ counts kw, dict_incr kw counts) (keywords topic) counts)
    topics [].

Definition get_trending_keywords (topics : list Topic) (top_n : Z)
    : list (string * Z) :=
  let sorted_keywords :=
    sort_desc (λ kv, inject_Z (snd kv)) (keyword_counts topics) in
  slice_to sorted_keywords top_n.

End Curator.

(** ** curator.py, the scoring in float arithmetic *)

(** The scoring methods once more, with every division, product, sum and
    rounding carried out on floats as Python does; [Curator] above has
    them over the exact rationals. The value that [score_topic] returns is
    stated on these definitions. *)
Module Curator64.
Import PyNum Float64.

(** The float literals of [WEIGHTS]. *)
Definition WEIGHTS (key : Factor) : Q := fl (Curator.WEIGHTS key).

(** [(now - published).total_seconds() / 3600]: [total_seconds] divides
    the microseconds, an [int], by [10**6]. *)
Definition hours_between (now published : datetime) : Q :=
  fdiv (int_div (now - published) 1000000) 3600.

(** The overlap of [calculate_uniqueness_score]:
    [len(a & b) / max(len(a), 1)] *)
Definition containment (a b : gset string) : Q :=
  int_div (Z.of_nat (size (a ∩ b))) (Z.max (Z.of_nat (size a)) 1).

Section WithClock.

Variable clock : nat → datetime.

Section Methods.

Variable self : ContentCurator.

Local Open Scope Q_scope.

Definition calculate_engagement_score (topic : Topic) : Q :=
  let s := 0 in
  let s := if (0 <? score topic)%Z
           then fadd s (Qmin (int_div (score topic) 50) 40) else s in
  let s := if (0 <? comments topic)%Z
           then fadd s (Qmin (int_div (comments topic) 25) 30) else s in
  let s := if (0 <? shares topic)%Z
           then fadd s (Qmin (int_div (shares topic) 10) 30) else s in
  Qmin s 100.

Definition calculate_recency_score (topic : Topic) : Clock Q :=
  match published_at topic with
  | None => cret 30
  | Some published =>
      (n <- Curator.now clock ;;
       let hours_old := hours_between n published in
       cret (if Qltb hours_old 2 then 100
             else if Qltb hours_old 6 then 90
             else if Qltb hours_old 12 then 80
             else if Qltb hours_old 24 then 70
             else if Qltb hours_old 48 then 50
             else if Qltb hours_old 72 then 30
             else 10))%clock
  end.

(** [calculate_relevance_score] works on [int]s only. *)
Definition calculate_relevance_score (topic : Topic) : Q :=
  Curator.calculate_relevance_score self topic.

(** In [engagement_rate] the [int] numerator is converted to a float and
    divided by [hours_old]; when [hours_old] is the [int] 1 the quotient of
    the two [int]s is the same float. *)
Definition calculate_velocity_score (topic : Topic) : Clock Q :=
  if Qltb 0 (trending_velocity topic)
  then cret (Qmin (trending_velocity topic) 100)
  else
    match published_at topic with
    | None => cret 40
    | Some published =>
        (n <- Curator.now clock ;;
         let hours_old := Qmax (hours_between n published) 1 in
         let engagement_rate :=
           fdiv (of_int (score topic + comments topic * 2)) hours_old in
         cret (if Qltb 50 engagement_rate then 100
               else if Qltb 25 engagement_rate then 80
               else if Qltb 10 engagement_rate then 60
               else if Qltb 5 engagement_rate then 40
               else 20))%clock
    end.

Definition max_overlap_loop (topic : Topic) (existing_topics : list Topic)
    (max_overlap : Q) : Q :=
  fold_left
    (λ max_overlap existing,
       if bool_decide (id existing = id topic) then max_overlap
       else Qmax max_overlap
                 (containment (title_words topic) (title_words existing)))
    existing_topics max_overlap.

Definition calculate_uniqueness_score (topic : Topic)
    (existing_topics : option (list Topic)) : Q :=
  match existing_topics with
  | None | Some [] => 70
  | Some existing_topics =>
      let max_overlap := max_overlap_loop topic existing_topics 0 in
      Qmax (fsub 100 (fmul max_overlap 100)) 10
  end.

(** The [scores] dictionary of [score_topic], in insertion order. *)
Definition factor_scores (topic : Topic)
    (existing_topics : option (list Topic)) : Clock (list (Factor * Q)) :=
  (let e := calculate_engagement_score topic in
   r <- calculate_recency_score topic ;;
   let rel := calculate_relevance_score topic in
   v <- calculate_velocity_score topic ;;
   let u := calculate_uniqueness_score topic existing_topics in
   cret [ (engagement, e); (recency, r); (relevance, rel);
          (velocity, v); (uniqueness, u) ])%clock.

(** [sum(scores[key] * WEIGHTS[key] for key in scores)]: the products are
    added one by one, from the left, to the [int] 0, each addition rounded
    (CPython from 3.12 on also carries a correction term through the
    additions of [sum], which is left out here). *)
Definition weighted_sum (scores : list (Factor * Q)) : Q :=
  fold_left (λ acc kv, fadd acc (fmul (snd kv) (WEIGHTS (fst kv)))) scores 0.

Definition score_topic (topic : Topic)
    (existing_topics : option (list Topic)) : Clock Q :=
  (scores <- factor_scores topic existing_topics ;;
   cret (round2 (weighted_sum scores)))%clock.

Fixpoint score_all (n i : nat) (topics : list Topic) : Clock (list Topic) :=
  match n with
  | O => cret topics
  | S n' =>
      match topics !! i with
      | None => cret topics
      | Some topic =>
          (v <- score_topic topic (Some topics) ;;
           score_all n' (S i) (<[i := set_virality_score v topic]> topics))%clock
      end
  end.

Definition curate_topics (topics : list Topic) (limit : Z)
    (categories : option (list ContentCategory))
    (min_score_arg : option Q) : Clock (list Topic) :=
  let min_score := default (min_score self) min_score_arg in
  let topics :=
    match categories with
    | None | Some [] => topics
    | Some cs => List.filter (λ t, bool_decide (category t ∈ cs)) topics
    end in
  (n <- Curator.now clock ;;
   let topics :=
     List.filter
       (λ t, match published_at t with
             | None => true
             | Some p => Qle_bool (hours_between n p)
                                  (inject_Z (max_age_hours self))
             end) topics in
   topics <- score_all (length topics) 0 topics ;;
   let topics := List.filter (λ t, Qgeb (virality_score t) min_score) topics in
   let topics := Curator.sort_desc virality_score topics in
   cret (slice_to topics limit))%clock.

End Methods.

End WithClock.

End Curator64.

(** ** researcher.py *)

(** A raised Python exception. [except Exception] catches the classes
    derived from [Exception]; [asyncio.CancelledError], [KeyboardInterrupt]
    and the like derive from [BaseException] only. [exc_class] names the
    class; an instance of a subclass of [KeyboardInterrupt] or of
    [SystemExit] goes under the name of that class. *)
Record PyExc := mkExc {
  exc_class : string;
  exc_msg : string;
  is_Exception : bool
}.

(** The failure of a source adapter. *)
Definition SourceError (msg : string) : PyExc := mkExc "SourceError" msg true.

Definition AttributeError (msg : string) : PyExc :=
  mkExc "AttributeError" msg true.

(** A call made to a source adapter. *)
Inductive Request :=
  | FetchTrending (s : TrendSource) (limit : Z)
  | Search (s : TrendSource) (query : string) (limit : Z).

(** [class ViralContentResearcher]: the attributes set by [__init__]. The
    [_scrapers] dictionary is represented by its keys, in insertion order. *)
Record Researcher := mkResearcher {
  sources : list TrendSource;
  curator : ContentCurator;
  _scrapers : list TrendSource;
  _session : option ResearchSession
}.

(** [ViralContentResearcher(sources, curator)] *)
Definition new_researcher (srcs : option (list TrendSource))
    (cur : option ContentCurator) : Researcher :=
  mkResearcher
    (match srcs with
     | None | Some [] => [REDDIT; HACKER_NEWS; RSS_FEED; PRODUCT_HUNT]
     | Some l => l
     end)
    (default default_curator cur) [] None.

(** What a run can change: the researcher object, the clock readings made,
    the lines printed and the adapter calls issued. *)
Record State := mkState {
  self : Researcher;
  ticks : nat;
  stdout : list string;
  requests : list Request
}.

Inductive Outcome (A : Type) :=
  | Returned (a : A) (st : State)
  | Raised (e : PyExc) (st : State).
Arguments Returned {A} a st.
Arguments Raised {A} e st.

(** A coroutine or method of the researcher. *)
Definition Run (A : Type) : Type := State → Outcome A.

Definition rret {A} (a : A) : Run A := λ st, Returned a st.

Definition rbind {A B} (m : Run A) (f : A → Run B) : Run B :=
  λ st, match m st with
        | Returned a st' => f a st'
        | Raised e st' => Raised e st'
        end.

Definition raise {A} (e : PyExc) : Run A := λ st, Raised e st.

(** [try: body / except Exception as e: handler(e)] *)
Definition try_except_Exception {A} (body : Run A) (handler : PyExc → Run A)
    : Run A :=
  λ st, match body st with
        | Returned a st' => Returned a st'
        | Raised e st' => if is_Exception e then handler e st' else Raised e st'
        end.

Declare Scope run_scope.
Delimit Scope run_scope with run.
Notation "x <- m ;; f" := (rbind m (λ x, f))
  (at level 200, m at level 99, f at level 200, only parsing) : run_scope.

Definition get_self : Run Researcher := λ st, Returned (self st) st.

Definition put_self (r : Researcher) : Run unit :=
  λ st, Returned tt (mkState r (ticks st) (stdout st) (requests st)).

(** [print(line)] *)
Definition print (line : string) : Run unit :=
  λ st, Returned tt (mkState (self st) (ticks st) (stdout st ++ [line]) (requests st)).

(** A computation that only reads the clock, run inside a method. *)
Definition lift_clock {A} (m : Clock A) : Run A :=
  λ st, let (a, k) := m (ticks st) in
        Returned a (mkState (self st) k (stdout st) (requests st)).

(** The step of an [asyncio] task stores the exception the task raises as
    the outcome of the task, but it raises [KeyboardInterrupt] and
    [SystemExit] again: these leave the event loop, whoever awaits the
    task. *)
Definition leaves_event_loop (e : PyExc) : bool :=
  String.eqb (exc_class e) "KeyboardInterrupt"
  || String.eqb (exc_class e) "SystemExit".

(** [asyncio.gather] over [tasks] with [return_exceptions=True]: the
    result of a task is its value or the exception it raised, in the order
    of [tasks]. The tasks are started in order and the adapters share no
    state, so they are run one after the other. A task that raises
    [KeyboardInterrupt] or [SystemExit] ends the run of the event loop with
    that error: the tasks after it are not run and the awaiting coroutine
    is not resumed. *)
Fixpoint gather {A} (tasks : list (Run A)) : Run (list (A + PyExc)) :=
  match tasks with
  | [] => rret []
  | task :: rest =>
      λ st, match task st with
            | Returned a st' => rbind (gather rest) (λ rs, rret (inl a :: rs)) st'
            | Raised e st' =>
                if leaves_event_loop e then Raised e st'
                else rbind (gather rest) (λ rs, rret (inr e :: rs)) st'
            end
  end.

(** [for result in results: if isinstance(result, list): all_topics.extend(result)] *)
Fixpoint extend_lists (results : list (list Topic + PyExc)) : list Topic :=
  match results with
  | [] => []
  | inl result :: rest => result ++ extend_lists rest
  | inr _ :: rest => extend_lists rest
  end.

Module ViralContentResearcher.

(** The sources for which [_get_scraper] has a scraper class. *)
Definition has_scraper_class (source : TrendSource) : bool :=
  match source with
  | REDDIT | GOOGLE_TRENDS | HACKER_NEWS | RSS_FEED | PRODUCT_HUNT => true
  | TWITTER | LINKEDIN | NEWS_API => false
  end.

(** [self._session.field = value]: the session object is updated in
    place; on [None] the attribute access raises. *)
Definition update_session (f : ResearchSession → ResearchSession) : Run unit :=
  (r <- get_self ;;
   match _session r with
   | Some s => put_self (mkResearcher (sources r) (curator r) (_scrapers r) (Some (f s)))
   | None => raise (AttributeError "'NoneType' object has no attribute")
   end)%run.

Definition set_topics_discovered (n : Z) (s : ResearchSession) : ResearchSession :=
  mkSession (session_id s) (started_at s) (completed_at s) n (topics_curated s)
            (briefs_generated s) (sources_queried s) (filters_categories s)
            (filters_min_score s).

Definition set_topics_curated (n : Z) (s : ResearchSession) : ResearchSession :=
  mkSession (session_id s) (started_at s) (completed_at s) (topics_discovered s) n
            (briefs_generated s) (sources_queried s) (filters_categories s)
            (filters_min_score s).

Definition set_completed_at (d : datetime) (s : ResearchSession) : ResearchSession :=
  mkSession (session_id s) (started_at s) (Some d) (topics_discovered s)
            (topics_curated s) (briefs_generated s) (sources_queried s)
            (filters_categories s) (filters_min_score s).

Section WithAdapters.

Variable clock : nat → datetime.

(** [async with scraper: return await scraper.fetch_trending(limit=limit)]
    for the scraper of a source: the topics returned, or the exception
    that leaves the block. *)
Variable adapter_fetch_trending : TrendSource → Z → list Topic + PyExc.

(** The same for [scraper.search(query, limit=limit)]. *)
Variable adapter_search : TrendSource → string → Z → list Topic + PyExc.

Definition call_fetch_trending (source : TrendSource) (limit : Z)
    : Run (list Topic) :=
  λ st,
    let st' := mkState (self st) (ticks st) (stdout st)
                       (requests st ++ [FetchTrending source limit]) in
    match adapter_fetch_trending source limit with
    | inl topics => Returned topics st'
    | inr e => Raised e st'
    end.

Definition call_search (source : TrendSource) (query : string) (limit : Z)
    : Run (list Topic) :=
  λ st,
    let st' := mkState (self st) (ticks st) (stdout st)
                       (requests st ++ [Search source query limit]) in
    match adapter_search source query limit with
    | inl topics => Returned topics st'
    | inr e => Raised e st'
    end.

(** Returns whether there is a scraper for [source]. *)
Definition _get_scraper (source : TrendSource) : Run bool :=
  (r <- get_self ;;
   if bool_decide (source ∈ _scrapers r) then rret true
   else if has_scraper_class source
        then (_ <- put_self (mkResearcher (sources r) (curator r)
                                          (_scrapers r ++ [source]) (_session r)) ;;
              rret true)
        else rret false)%run.

Definition _fetch_from_source (source : TrendSource) (limit : Z)
    : Run (list Topic) :=
  (scraper <- _get_scraper source ;;
   if negb scraper then rret []
   else
     try_except_Exception
       (call_fetch_trending source limit)
       (λ e, _ <- print ("Error fetching from " ++ source_value source
                         ++ ": " ++ exc_msg e)%string ;;
             rret []))%run.

(** The [tasks] list of [research_trending]: one call of
    [_fetch_from_source] per source, with its [limit] argument. *)
Definition fetch_tasks (sources_to_query : list TrendSource)
    : list (TrendSource * Z) :=
  map (λ source, (source, 50)) sources_to_query.

Definition research_trending (limit : Z)
    (categories : option (list ContentCategory))
    (srcs : option (list TrendSource)) (min_score : Q)
    : Run (list Topic) :=
  (r <- get_self ;;
   let sources_or_self :=
     match srcs with
     | None | Some [] => sources r
     | Some l => l
     end in
   started <- lift_clock (Curator.now clock) ;;
   _ <- put_self
          (mkResearcher (sources r) (curator r) (_scrapers r)
             (Some (mkSession None started None 0 0 0 sources_or_self
                      (match categories with
                       | None | Some [] => []
                       | Some cs => map category_value cs
                       end)
                      min_score))) ;;
   let sources_to_query := sources_or_self in
   let tasks := map (λ task, _fetch_from_source (fst task) (snd task))
                    (fetch_tasks sources_to_query) in
   results <- gather tasks ;;
   let all_topics := extend_lists results in
   _ <- update_session (set_topics_discovered (Z.of_nat (length all_topics))) ;;
   let all_topics :=
     Curator.deduplicate_topics all_topics Curator.default_threshold in
   curated <- lift_clock
                (Curator.curate_topics clock (curator r) all_topics limit
                                       categories (Some min_score)) ;;
   _ <- update_session (set_topics_curated (Z.of_nat (length curated))) ;;
   finished <- lift_clock (Curator.now clock) ;;
   _ <- update_session (set_completed_at finished) ;;
   rret curated)%run.

(** The loop of [search] over [sources_to_query]. *)
Fixpoint search_loop (query : string) (sources_to_query : list TrendSource)
    (all_topics : list Topic) : Run (list Topic) :=
  match sources_to_query with
  | [] => rret all_topics
  | source :: rest =>
      (scraper <- _get_scraper source ;;
       if negb scraper then search_loop query rest all_topics
       else
         all_topics <-
           try_except_Exception
             (results <- call_search source query 25 ;;
              rret (all_topics ++ results))
             (λ e, _ <- print ("Error searching " ++ source_value source
                               ++ ": " ++ exc_msg e)%string ;;
                   rret all_topics) ;;
         search_loop query rest all_topics)%run
  end.

Definition search (query : string) (limit : Z)
    (srcs : option (list TrendSource)) : Run (list Topic) :=
  (r <- get_self ;;
   let sources_to_query :=
     match srcs with
     | None | Some [] => sources r
     | Some l => l
     end in
   all_topics <- search_loop query sources_to_query [] ;;
   let all_topics :=
     Curator.deduplicate_topics all_topics Curator.default_threshold in
   lift_clock (Curator.curate_topics clock (curator r) all_topics limit
                                     None (Some 20%Q)))%run.

Definition research_category (category_arg : ContentCategory) (limit : Z)
    : Run (list Topic) :=
  (all_topics <- research_trending 100 None None 20%Q ;;
   let category_topics :=
     List.filter (λ t, bool_decide (category t = category_arg)) all_topics in
   rret (PyNum.slice_to category_topics limit))%run.

(** An entry of the [recommendations] list of [get_marketing_insights]. *)
Record Recommendation := mkRecommendation {
  rec_topic : string;
  rec_format : string;
  rec_angles : list string;
  rec_urgency : string
}.

(** The dictionary returned by [get_marketing_insights]. *)
Record MarketingInsights := mkInsights {
  top_topics : list Topic;
  trending_keywords : list (string * Z);
  category_breakdown : list (string * Z);
  recommendations : list Recommendation;
  insights_session : option ResearchSession
}.

Definition get_marketing_insights (limit : Z) : Run MarketingInsights :=
  (topics <- research_trending 100 None None 25%Q ;;
   r <- get_self ;;
   let trending_keywords := Curator.get_trending_keywords topics 15 in
   let category_breakdown := Curator.group_by_category topics in
   let category_counts :=
     map (λ item, (category_value (fst item), Z.of_nat (length (snd item))))
         category_breakdown in
   let top_topics := PyNum.slice_to topics limit in
   let recommendations :=
     map (λ topic,
            let format_type := Curator.identify_content_format topic in
            let angles := Curator.generate_content_angles topic in
            mkRecommendation (title topic) format_type
              (PyNum.slice_to angles 3)
              (if PyNum.Qgtb (virality_score topic) 70
               then "high" else "medium")%string)
         (PyNum.slice_to top_topics 5) in
   rret (mkInsights top_topics trending_keywords category_counts
                    recommendations (_session r)))%run.

End WithAdapters.

End ViralContentResearcher.

(** ** scrapers/base.py *)

Module BaseScraper.
Import PyNum.

Section WithClock.

Variable clock : nat → datetime.

Local Open Scope Q_scope.

(** [BaseScraper.calculate_virality_score]: the score the adapters give a
    topic before it reaches the curator. *)
Definition calculate_virality_score (topic : Topic) : Clock Q :=
  let base_score := Qmin (zdiv (score topic) 100) 30 in
  let comment_score := Qmin (zdiv (comments topic) 50) 25 in
  let share_score := Qmin (zdiv (shares topic) 20) 25 in
  (recency_score <-
     match published_at topic with
     | None => cret 0
     | Some published =>
         (n <- Curator.now clock ;;
          let hours_old := hours_between n published in
          cret (if Qltb hours_old 6 then 20
                else if Qltb hours_old 24 then 15
                else if Qltb hours_old 48 then 10
                else if Qltb hours_old 72 then 5
                else 0))
     end ;;
   cret (Qmin (base_score + comment_score + share_score + recency_score) 100))%clock.

End WithClock.

End BaseScraper.

(** ** brief_generator.py *)

(** [s.replace(old, new)] for a non-empty [old]: the occurrences are
    replaced from left to right, without overlap. *)
Fixpoint str_skip (n : nat) (s : string) : string :=
  match n, s with
  | S n', String _ r => str_skip n' r
  | _, _ => s
  end.

Fixpoint str_replace_aux (fuel : nat) (old new s : string) : string :=
  match fuel, s with
  | S fuel', String c r =>
      if PyStr.prefix old s
      then (new ++ str_replace_aux fuel' old new
                     (str_skip (String.length old) s))%string
      else String c (str_replace_aux fuel' old new r)
  | _, _ => s
  end.

Definition str_replace (old new s : string) : string :=
  str_replace_aux (String.length s) old new s.

(** [str(n)] for a natural number: its decimal digits. *)
Fixpoint str_of_nat_aux (fuel n : nat) (acc : string) : string :=
  match fuel with
  | O => acc
  | S fuel' =>
      let acc' := String (ascii_of_nat (48 + n mod 10)) acc in
      if (n / 10 =? 0)%nat then acc' else str_of_nat_aux fuel' (n / 10) acc'
  end.

Definition str_of_nat (n : nat) : string := str_of_nat_aux (S n) n "".

(** The model [ContentBrief]; [competitors] keeps its default. *)
Record ContentBrief := mkBrief {
  brief_id : option string;
  brief_title : string;
  hook : string;
  outline : list string;
  source_topics : list Topic;
  suggested_format : string;
  estimated_word_count : Z;
  target_keywords : list string;
  meta_description : option string;
  suggested_title_variants : list string;
  brief_category : ContentCategory;
  urgency : string;
  brief_created_at : datetime;
  notes : option string;
  competitors : list string
}.

(** What the generator has consumed so far: readings of the clock and
    draws of [uuid.uuid4]. *)
Record Draws := mkDraws {
  clock_reads : nat;
  uuid_draws : nat
}.

Definition Gen (A : Type) : Type := Draws → A * Draws.

Definition gret {A} (a : A) : Gen A := λ w, (a, w).

Definition gbind {A B} (m : Gen A) (f : A → Gen B) : Gen B :=
  λ w, let (a, w') := m w in f a w'.

Declare Scope gen_scope.
Delimit Scope gen_scope with gen.
Notation "x <- m ;; f" := (gbind m (λ x, f))
  (at level 200, m at level 99, f at level 200, only parsing) : gen_scope.

(** [for x in l: out.append(f(x))] *)
Fixpoint gen_for {A B} (f : A → Gen B) (l : list A) : Gen (list B) :=
  match l with
  | [] => gret []
  | x :: l' => (y <- f x ;; ys <- gen_for f l' ;; gret (y :: ys))%gen
  end.

Module BriefGenerator.

(** A value of [FORMAT_TEMPLATES]. *)
Record Template := mkTemplate {
  sections : list string;
  word_count : Z
}.

Definition FORMAT_TEMPLATES : list (string * Template) :=
  [ ("blog_post",
     mkTemplate ["Introduction"; "Main Points"; "Examples"; "Conclusion";
                 "CTA"] 1500);
    ("guide",
     mkTemplate ["Introduction"; "Prerequisites"; "Step-by-Step Guide";
                 "Pro Tips"; "Common Mistakes"; "Conclusion"] 2500);
    ("listicle",
     mkTemplate ["Introduction"; "List Items (7-10)"; "Bonus Tips";
                 "Conclusion"] 1500);
    ("tutorial",
     mkTemplate ["Overview"; "What You'll Learn"; "Step 1"; "Step 2";
                 "Step 3"; "Testing"; "Troubleshooting"] 2000);
    ("comparison",
     mkTemplate ["Introduction"; "Overview of Options"; "Feature Comparison";
                 "Pros and Cons"; "Verdict"; "Recommendation"] 1800);
    ("case_study",
     mkTemplate ["Executive Summary"; "Background"; "Challenge"; "Solution";
                 "Results"; "Lessons Learned"] 2000);
    ("review",
     mkTemplate ["Introduction"; "Overview"; "Features"; "Pros"; "Cons";
                 "Pricing"; "Verdict"] 1200);
    ("strategy_guide",
     mkTemplate ["Executive Summary"; "Current Landscape";
                 "Strategy Framework"; "Implementation"; "Metrics";
                 "Next Steps"] 3000) ]%string.

Definition blog_post_template : Template :=
  mkTemplate ["Introduction"; "Main Points"; "Examples"; "Conclusion";
              "CTA"]%string 1500.

(** [FORMAT_TEMPLATES.get(format_type, FORMAT_TEMPLATES["blog_post"])] *)
Definition get_template (format_type : string) : Template :=
  default blog_post_template (Curator.dict_get format_type FORMAT_TEMPLATES).

Definition HOOK_TEMPLATES (c : ContentCategory) : option (list string) :=
  match c with
  | SEO =>
      Some [ "Here's the SEO strategy that generated {X}% more organic traffic";
             "The {topic} technique top sites use (and you should too)";
             "Why {topic} is the key to ranking higher in 2025" ]
  | SOCIAL_MEDIA =>
      Some [ "How {topic} is changing social media marketing forever";
             "The viral {topic} strategy that grew our audience 10x";
             "{topic}: The social media secret brands don't want you to know" ]
  | CONTENT_MARKETING =>
      Some [ "The {topic} framework that converts readers into customers";
             "Content marketing breakthrough: How {topic} drives engagement";
             "Why {topic} is the future of content strategy" ]
  | GROWTH_HACKING =>
      Some [ "Growth hack: How {topic} can 10x your results";
             "The unconventional {topic} strategy that went viral";
             "{topic} - The growth lever you're probably ignoring" ]
  | AI_MARKETING =>
      Some [ "How AI is revolutionizing {topic} for marketers";
             "The {topic} AI tool that's changing everything";
             "{topic} + AI: The marketing combo you need to try" ]
  | STARTUP =>
      Some [ "Startup lessons: How {topic} led to product-market fit";
             "The {topic} strategy every founder should know";
             "From 0 to 1: How {topic} transformed our startup" ]
  | _ => None
  end%string.

Definition _generate_hook (topic : Topic) : string :=
  let templates :=
    default ["Discover how {topic} can transform your marketing strategy"%string]
            (HOOK_TEMPLATES (category topic)) in
  let hook := str_replace "{topic}" (title topic) (nth 0 templates ""%string) in
  let hook := str_replace "{X}" "250" hook in
  hook.

Definition _generate_outline (topic : Topic) (format_type : string)
    : list string :=
  let template := get_template format_type in
  let base_sections := sections template in
  fold_left
    (λ outline section,
       if PyStr.contains "List Items" section then
         fold_left
           (λ outline i,
              outline ++ [ ("  - Item " ++ str_of_nat (i + 1)
                            ++ ": [Related to " ++ title topic ++ "]")%string ])
           (seq 0 7) (outline ++ [ ("## " ++ section)%string ])
       else if PyStr.contains "Step" section
               && negb (String.eqb section "Step-by-Step Guide") then
         outline ++ [ ("## " ++ section ++ ": [Action related to "
                       ++ title topic ++ "]")%string ]
       else outline ++ [ ("## " ++ section)%string ])
    base_sections [].

(** The body of the loop of [_extract_target_keywords]. *)
Definition add_word (keywords : list string) (word : string) : list string :=
  if (3 <? String.length word)%nat && negb (bool_decide (word ∈ keywords))
  then keywords ++ [word] else keywords.

Definition _extract_target_keywords (topic : Topic) : list string :=
  let keywords := keywords topic in
  let title_words := PyStr.split (PyStr.lower (title topic)) in
  let keywords := fold_left add_word title_words keywords in
  PyNum.slice_to keywords 10.

Definition _generate_title_variants (topic : Topic) (format_type : string)
    : list string :=
  let base_title := title topic in
  let variants :=
    [ "How to Master " ++ base_title ++ " in 2025";
      "The Complete Guide to " ++ base_title;
      base_title ++ ": Everything You Need to Know";
      "Why " ++ base_title ++ " Matters (And How to Get Started)";
      "Top 10 " ++ base_title ++ " Strategies That Actually Work";
      base_title ++ " Explained: A Marketer's Guide";
      "The Ultimate " ++ base_title ++ " Playbook" ]%string in
  let variants :=
    if String.eqb format_type "listicle" then
      variants ++ [ "7 " ++ base_title ++ " Tips You Need to Know";
                    "10 " ++ base_title ++ " Mistakes to Avoid" ]%string
    else if String.eqb format_type "tutorial" then
      variants ++ [ "Step-by-Step: " ++ base_title ++ " Tutorial for Beginners";
                    "How to " ++ base_title ++ ": A Complete Walkthrough" ]%string
    else if String.eqb format_type "case_study" then
      variants ++ [ "Case Study: How " ++ base_title ++ " Drove Results";
                    "Real Results: Our " ++ base_title ++ " Journey" ]%string
    else variants in
  PyNum.slice_to variants 5.

Definition _generate_meta_description (topic : Topic) (hook : string)
    : string :=
  let desc := ("Learn " ++ PyStr.lower (title topic) ++ ". "
               ++ substring 0 80 hook)%string in
  if (155 <? String.length desc)%nat
  then (substring 0 152 desc ++ "...")%string
  else desc.

Definition _determine_urgency (topic : Topic) : string :=
  if PyNum.Qgeb (virality_score topic) 80 then "trending_now"
  else if PyNum.Qgeb (virality_score topic) 60 then "high"
  else if PyNum.Qgeb (virality_score topic) 40 then "medium"
  else "low".

Section WithDraws.

Variable clock : nat → datetime.
Variable uuid_values : nat → string.

(** [datetime.utcnow()] *)
Definition utcnow : Gen datetime :=
  λ w, (clock (clock_reads w), mkDraws (S (clock_reads w)) (uuid_draws w)).

(** [str(uuid.uuid4())] *)
Definition uuid4 : Gen string :=
  λ w, (uuid_values (uuid_draws w),
        mkDraws (clock_reads w) (S (uuid_draws w))).

Definition generate_brief (topic : Topic) (format_type : option string)
    (notes : option string) : Gen ContentBrief :=
  let format_type :=
    match format_type with
    | Some f => if String.eqb f "" then Curator.identify_content_format topic
                else f
    | None => Curator.identify_content_format topic
    end in
  let template := get_template format_type in
  let hook := _generate_hook topic in
  let outline := _generate_outline topic format_type in
  let keywords := _extract_target_keywords topic in
  let title_variants := _generate_title_variants topic format_type in
  let meta_desc := _generate_meta_description topic hook in
  let urgency := _determine_urgency topic in
  (id <- uuid4 ;;
   created_at <- utcnow ;;
   gret (mkBrief (Some id) ("Content Brief: " ++ title topic) hook outline
                 [topic] format_type (word_count template) keywords
                 (Some meta_desc) title_variants (category topic) urgency
                 created_at notes []))%gen.

Definition generate_briefs_from_topics (topics : list Topic) (limit : Z)
    : Gen (list ContentBrief) :=
  let sorted_topics := Curator.sort_desc virality_score topics in
  gen_for (λ topic, generate_brief topic None None)
          (PyNum.slice_to sorted_topics limit).

End WithDraws.

End BriefGenerator.

(** ** Notions used by the statements *)

(** [t'] is [t] with a new [virality_score]. *)
Definition rescored (t t' : Topic) : Prop :=
  t' = set_virality_score (virality_score t') t.

(** The order of the curated list on topics tagged with their position in
    the batch: higher score first, and among equal scores the earlier
    position first. *)
Definition ranked_before (a b : nat * Topic) : Prop :=
  (virality_score (snd b) < virality_score (snd a))%Q
  ∨ ((virality_score (snd a) == virality_score (snd b))%Q ∧ (fst a < fst b)%nat).

(** Tagged topics in batch order. *)
Definition tag_lt (a b : nat * Topic) : Prop := (fst a < fst b)%nat.

(** The sort key of a tagged topic. *)
Definition tagged_key (a : nat * Topic) : Q := virality_score (snd a).

(** The tagged topic is a topic of the batch, at the position of its tag,
    possibly with a new score. *)
Definition origin (topics : list Topic) (a : nat * Topic) : Prop :=
  ∃ t0, topics !! fst a = Some t0 ∧ rescored t0 (snd a).

(** [g] tags the topics of [l] with their positions in the batch [topics]
    and lists them in batch order. *)
Definition tagging (topics l : list Topic) (g : list (nat * Topic)) : Prop :=
  map snd g = l ∧ StronglySorted tag_lt g ∧ Forall (origin topics) g.

(** No topic of the list is a near-duplicate of a topic before it. *)
Definition settled (similarity_threshold : Q) (l : list Topic) : Prop :=
  ∀ l1 e l2, l = l1 ++ e :: l2 →
    Curator.find_duplicate similarity_threshold (title_words e) l1 = None.

(** The title of the deduplication scenario. *)
Definition scenario_titles (a b : Topic) : Prop :=
  (title a = "AI Marketing Tools for 2025"%string
   ∧ title b = "Best AI Marketing Tools 2025"%string)
  ∨ (title a = "Best AI Marketing Tools 2025"%string
     ∧ title b = "AI Marketing Tools for 2025"%string).

(** The topic is no older than [max_age] hours at the instant [now], or
    has no publication time. *)
Definition fresh_at (now : datetime) (max_age : Z) (t : Topic) : Prop :=
  match published_at t with
  | None => True
  | Some p => (hours_between now p <= inject_Z max_age)%Q
  end.

(** [existing] takes part in the uniqueness comparison of [topic]. *)
Definition compared_with (topic existing : Topic) : Prop :=
  id existing ≠ id topic.

(** The state in which a run ends, whether it returns or raises. *)
Definition final_state {A} (o : Outcome A) : State :=
  match o with
  | Returned _ st => st
  | Raised _ st => st
  end.

(** The method leaves [self._session] as it found it. *)
Definition preserves_session {A} (m : Run A) : Prop :=
  ∀ st, _session (self (final_state (m st))) = _session (self st).

(** [_get_scraper] finds a scraper for the source. *)
Definition will_fetch (r : Researcher) (s : TrendSource) : bool :=
  bool_decide (s ∈ _scrapers r) || ViralContentResearcher.has_scraper_class s.

(** What a source adds to the merged list: the topics its adapter returns,
    nothing when there is no scraper or the adapter fails. *)
Definition contribution (adapter : TrendSource → Z → list Topic + PyExc)
    (r : Researcher) (limit : Z) (s : TrendSource) : list Topic :=
  if will_fetch r s then
    match adapter s limit with
    | inl topics => topics
    | inr _ => []
    end
  else [].

(** The outcome of the fetch task of a source, as [gather] gets it: the
    topics, or the error that [except Exception] lets through. *)
Definition task_result (adapter : TrendSource → Z → list Topic + PyExc)
    (r : Researcher) (limit : Z) (s : TrendSource) : list Topic + PyExc :=
  if will_fetch r s then
    match adapter s limit with
    | inl topics => inl topics
    | inr e => if is_Exception e then inl [] else inr e
    end
  else inl [].

(** The error with which the fetch task of a source ends the whole run,
    if it does. *)
Definition interruption (adapter : TrendSource → Z → list Topic + PyExc)
    (r : Researcher) (limit : Z) (s : TrendSource) : option PyExc :=
  match task_result adapter r limit s with
  | inr e => if leaves_event_loop e then Some e else None
  | inl _ => None
  end.

(** No fetch task of [research_trending] over these sources ends the run:
    no adapter raises [KeyboardInterrupt] or [SystemExit]. *)
Definition uninterrupted (adapter : TrendSource → Z → list Topic + PyExc)
    (r : Researcher) (srcs : list TrendSource) : Prop :=
  Forall (λ s, interruption adapter r 50 s = None) srcs.

(** What a state keeps while the scrapers are created and called. *)
Definition fetch_frame (st st' : State) : Prop :=
  sources (self st') = sources (self st)
  ∧ curator (self st') = curator (self st)
  ∧ _session (self st') = _session (self st)
  ∧ ticks st' = ticks st
  ∧ ∀ s, will_fetch (self st') s = will_fetch (self st) s.

(** ** A sample run *)

Module Sample.

Definition topic_a : Topic :=
  mkTopic (Some "r1"%string) "AI Marketing Tools for 2025" None None REDDIT
          AI_MARKETING 500 100 50 0 40%Q 0%Q [] [] None None 0 None None.

Definition topic_b : Topic :=
  mkTopic (Some "f1"%string) "Best AI Marketing Tools 2025" None None
          RSS_FEED AI_MARKETING 300 20 10 0 55%Q 0%Q [] [] None None 0 None
          None.

Definition topic_c : Topic :=
  mkTopic (Some "f2"%string) "Email growth playbook" None None RSS_FEED
          EMAIL_MARKETING 100 10 5 0 35%Q 0%Q [] [] None None 0 None None.

(** The clock gives one second per reading. *)
Definition clock (k : nat) : datetime := Z.of_nat k * 1000000.

(** Reddit returns one topic, Hacker News fails, the feeds return two. *)
Definition adapter_fetch_trending (s : TrendSource) (limit : Z)
    : list Topic + PyExc :=
  match s with
  | REDDIT => inl [topic_a]
  | HACKER_NEWS => inr (SourceError "timeout")
  | _ => inl [topic_b; topic_c]
  end.

Definition adapter_search (s : TrendSource) (query : string) (limit : Z)
    : list Topic + PyExc :=
  match s with
  | REDDIT => inl [topic_a]
  | HACKER_NEWS => inr (SourceError "timeout")
  | _ => inl [topic_b]
  end.

(** The same adapters, with Hacker News interrupted from the keyboard. *)
Definition interrupted_adapter (s : TrendSource) (limit : Z)
    : list Topic + PyExc :=
  match s with
  | HACKER_NEWS => inr (mkExc "KeyboardInterrupt" "" false)
  | _ => adapter_fetch_trending s limit
  end.

(** A new researcher over three sources, before any run. *)
Definition start : State :=
  mkState (new_researcher (Some [REDDIT; HACKER_NEWS; RSS_FEED]) None)
          0 [] [].

End Sample.

(** The fetch requests among the adapter calls. *)
Definition fetch_limits (rs : list Request) : list Z :=
  omap (λ r, match r with FetchTrending _ l => Some l | Search _ _ _ => None end) rs.

(** ** Notions used by the further properties *)

(** Two topics are near-duplicates at a threshold. *)
Definition near_duplicates (similarity_threshold : Q) (a b : Topic) : Prop :=
  (similarity_threshold
   <= Curator.jaccard (title_words a) (title_words b))%Q.

(** The number of times a keyword is listed by the topics. *)
Definition keyword_occurrences (kw : string) (topics : list Topic) : Z :=
  Z.of_nat (length (List.filter (λ k, bool_decide (k = kw))
                                (flat_map keywords topics))).

(** The scraper cache holds one scraper per source, and only for sources
    that have a scraper class. *)
Definition scrapers_ok (st : State) : Prop :=
  NoDup (_scrapers (self st))
  ∧ Forall (λ s, ViralContentResearcher.has_scraper_class s = true)
           (_scrapers (self st)).

(** The method keeps a property of the state, whether it returns or
    raises. *)
Definition preserves {A} (I : State → Prop) (m : Run A) : Prop :=
  ∀ st, I st → I (final_state (m st)).

(** What a source adds to the list of [search]. *)
Definition search_contribution
    (adapter : TrendSource → string → Z → list Topic + PyExc)
    (r : Researcher) (query : string) (s : TrendSource) : list Topic :=
  if will_fetch r s then
    match adapter s query 25 with
    | inl topics => topics
    | inr _ => []
    end
  else [].

(** The topics of one category, in batch order. *)
Definition of_category (c : ContentCategory) (topics : list Topic)
    : list Topic :=
  List.filter (λ t, bool_decide (category t = c)) topics.

(** The urgency labels of a brief, from the least to the most urgent. *)
Definition urgency_rank (u : string) : nat :=
  if String.eqb u "trending_now" then 3
  else if String.eqb u "high" then 2
  else if String.eqb u "medium" then 1
  else 0.

(** * Properties *)

Example title_words_example :
  PyStr.split (PyStr.lower "AI  Marketing Tools for 2025") =
  ["ai"; "marketing"; "tools"; "for"; "2025"]%string.
Proof. reflexivity. Qed.

(** ** Rational arithmetic of the embedding *)

Section QFacts.
Import PyNum.
Local Open Scope Q_scope.

Lemma Qltb_lt a b : Qltb a b = true ↔ a < b.
Proof.
  unfold Qltb. rewrite negb_true_iff. split.
  - intros H. apply Qnot_le_lt. intros Hle.
    apply Qle_bool_iff in Hle. congruence.
  - intros H. destruct (Qle_bool b a) eqn:E; [|done].
    apply Qle_bool_iff in E. exfalso. apply (Qlt_not_le _ _ H E).
Qed.

Lemma Qltb_ge a b : Qltb a b = false ↔ b <= a.
Proof.
  unfold Qltb. rewrite negb_false_iff. apply Qle_bool_iff.
Qed.

Lemma Qgeb_ge a b : Qgeb a b = true ↔ b <= a.
Proof. apply Qle_bool_iff. Qed.

Lemma Qgtb_gt a b : Qgtb a b = true ↔ b < a.
Proof. apply Qltb_lt. Qed.

#[global] Instance Qltb_proper : Proper (Qeq ==> Qeq ==> eq) Qltb.
Proof.
  intros a a' Ha b b' Hb.
  destruct (Qltb a b) eqn:E, (Qltb a' b') eqn:E'; try done.
  - apply Qltb_lt in E. apply Qltb_ge in E'. lra.
  - apply Qltb_ge in E. apply Qltb_lt in E'. lra.
Qed.

#[global] Instance round_half_even_proper :
  Proper (Qeq ==> eq) round_half_even.
Proof.
  intros x y Hxy. unfold round_half_even.
  rewrite <- (Qfloor_comp _ _ Hxy).
  assert (Hr : x - inject_Z (Qfloor x) == y - inject_Z (Qfloor x))
    by lra.
  rewrite (Qltb_proper _ _ Hr _ _ (Qeq_refl _)).
  rewrite (Qltb_proper _ _ (Qeq_refl (1 # 2)) _ _ Hr).
  reflexivity.
Qed.

#[global] Instance round2_proper : Proper (Qeq ==> Qeq) round2.
Proof.
  intros x y Hxy. unfold round2.
  assert (H : x * 100 == y * 100) by lra.
  rewrite (round_half_even_proper _ _ H). reflexivity.
Qed.

(** Rounding never crosses an integer. *)
Lemma round_half_even_le_int x (n : Z) :
  x <= inject_Z n → (round_half_even x <= n)%Z.
Proof.
  intros Hx. unfold round_half_even.
  pose proof (Qfloor_le x) as Hfl.
  pose proof (Qfloor_resp_le _ _ Hx) as Hfn. rewrite Qfloor_Z in Hfn.
  destruct (Z.eq_dec (Qfloor x) n) as [Heq | Hne].
  - assert (Hr : Qltb (x - inject_Z (Qfloor x)) (1 # 2) = true).
    { apply Qltb_lt. rewrite Heq. lra. }
    rewrite Hr. lia.
  - repeat case_match; lia.
Qed.

Lemma round_half_even_ge_int x (n : Z) :
  inject_Z n <= x → (n <= round_half_even x)%Z.
Proof.
  intros Hx. unfold round_half_even.
  pose proof (Qfloor_resp_le _ _ Hx) as Hfn. rewrite Qfloor_Z in Hfn.
  repeat case_match; lia.
Qed.

Lemma round2_bounds x : 0 <= x <= 100 → 0 <= round2 x <= 100.
Proof.
  intros [H0 H100]. unfold round2.
  assert (Hlo : (0 <= round_half_even (x * 100))%Z).
  { apply round_half_even_ge_int. change (inject_Z 0) with 0. lra. }
  assert (Hhi : (round_half_even (x * 100) <= 10000)%Z).
  { apply round_half_even_le_int. change (inject_Z 10000) with 10000. lra. }
  rewrite Zle_Qle in Hlo, Hhi.
  change (inject_Z 0) with 0 in Hlo.
  change (inject_Z 10000) with 10000 in Hhi.
  split.
  - apply Qle_shift_div_l; lra.
  - apply Qle_shift_div_r; lra.
Qed.

Lemma Qmin_le_l a b : Qmin a b <= a.
Proof. apply Q.le_min_l. Qed.

Lemma Qmin_le_r a b : Qmin a b <= b.
Proof. apply Q.le_min_r. Qed.

Lemma Qmin_ge a b c : c <= a → c <= b → c <= Qmin a b.
Proof. intros. by apply Q.min_glb. Qed.

Lemma Qmax_ge_l a b : a <= Qmax a b.
Proof. apply Q.le_max_l. Qed.

Lemma Qmax_ge_r a b : b <= Qmax a b.
Proof. apply Q.le_max_r. Qed.

Lemma Qmax_le a b c : a <= c → b <= c → Qmax a b <= c.
Proof. intros. by apply Q.max_lub. Qed.

(** [zdiv] of a non-negative count is non-negative. *)
Lemma zdiv_nonneg a b : (0 <= a)%Z → 0 < b → 0 <= zdiv a b.
Proof.
  intros Ha Hb. unfold zdiv. apply Qle_shift_div_l; [done|].
  rewrite Qmult_0_l. rewrite Zle_Qle in Ha. exact Ha.
Qed.

End QFacts.

(** ** The five factors *)

Section Factors.
Import PyNum Curator.
Local Open Scope Q_scope.

Variable clock : nat → datetime.
Variable self : ContentCurator.

Lemma engagement_bounds topic :
  0 <= calculate_engagement_score topic <= 100.
Proof.
  unfold calculate_engagement_score. split; [|apply Qmin_le_r].
  apply Qmin_ge; [|done].
  assert (H50 : (0 < score topic)%Z → 0 <= Qmin (zdiv (score topic) 50) 40).
  { intros. apply Qmin_ge; [apply zdiv_nonneg; [lia|done] | done]. }
  assert (H25 : (0 < comments topic)%Z → 0 <= Qmin (zdiv (comments topic) 25) 30).
  { intros. apply Qmin_ge; [apply zdiv_nonneg; [lia|done] | done]. }
  assert (H10 : (0 < shares topic)%Z → 0 <= Qmin (zdiv (shares topic) 10) 30).
  { intros. apply Qmin_ge; [apply zdiv_nonneg; [lia|done] | done]. }
  destruct (Z.ltb_spec 0 (score topic)) as [h1|h1];
  destruct (Z.ltb_spec 0 (comments topic)) as [h2|h2];
  destruct (Z.ltb_spec 0 (shares topic)) as [h3|h3];
  try specialize (H50 h1); try specialize (H25 h2); try specialize (H10 h3);
  lra.
Qed.

Lemma recency_bounds topic k :
  0 <= fst (calculate_recency_score clock topic k) <= 100.
Proof.
  unfold calculate_recency_score, cbind, cret, now.
  destruct (published_at topic); simpl; [|lra].
  repeat case_match; lra.
Qed.

Lemma relevance_bounds topic :
  0 <= calculate_relevance_score self topic <= 100.
Proof.
  unfold calculate_relevance_score.
  set (text := (_ ++ _)%string).
  assert (Hk : (0 <= count_in HIGH_VALUE_KEYWORDS text)%Z)
    by (unfold count_in; lia).
  assert (Ht : (0 <= count_in TRENDING_INDICATORS text)%Z)
    by (unfold count_in; lia).
  split.
  - change 0 with (inject_Z 0). rewrite <- Zle_Qle.
    case_bool_decide; destruct (keywords topic); lia.
  - change 100 with (inject_Z 100). rewrite <- Zle_Qle. lia.
Qed.

Lemma velocity_bounds topic k :
  0 <= fst (calculate_velocity_score clock topic k) <= 100.
Proof.
  unfold calculate_velocity_score, cbind, cret, now.
  destruct (Qltb 0 (trending_velocity topic)) eqn:E.
  - apply Qltb_lt in E. simpl. split; [|apply Qmin_le_r].
    apply Qmin_ge; lra.
  - destruct (published_at topic); simpl; [|lra].
    repeat case_match; lra.
Qed.

(** The overlap of two title-token sets is a fraction of the first. *)
Lemma containment_bounds (a b : gset string) : 0 <= containment a b <= 1.
Proof.
  unfold containment, zdiv.
  assert (Hsub : (size (a ∩ b) <= size a)%nat)
    by (apply subseteq_size, intersection_subseteq_l).
  assert (Hpos : 0 < inject_Z (Z.max (Z.of_nat (size a)) 1)).
  { change 0 with (inject_Z 0). rewrite <- Zlt_Qlt. lia. }
  split.
  - apply Qle_shift_div_l; [done|]. rewrite Qmult_0_l.
    change 0 with (inject_Z 0). rewrite <- Zle_Qle. lia.
  - apply Qle_shift_div_r; [done|]. rewrite Qmult_1_l.
    rewrite <- Zle_Qle. lia.
Qed.

Lemma max_overlap_loop_bounds topic existing_topics m :
  0 <= m <= 1 → 0 <= max_overlap_loop topic existing_topics m <= 1.
Proof.
  unfold max_overlap_loop. revert m.
  induction existing_topics as [|e l IH]; intros m Hm; simpl; [done|].
  apply IH. case_bool_decide; [done|].
  pose proof (containment_bounds (title_words topic) (title_words e)).
  split; [|apply Qmax_le; tauto].
  eapply Qle_trans; [|apply Qmax_ge_l]. tauto.
Qed.

Lemma uniqueness_bounds topic existing_topics :
  0 <= calculate_uniqueness_score topic existing_topics <= 100.
Proof.
  unfold calculate_uniqueness_score.
  destruct existing_topics as [[|e l]|]; [lra| |lra].
  pose proof (max_overlap_loop_bounds topic (e :: l) 0) as H.
  assert (H0 : 0 <= 0 <= 1) by lra. specialize (H H0).
  split.
  - eapply Qle_trans; [|apply Qmax_ge_r]. done.
  - apply Qmax_le; lra.
Qed.

(** The weighted sum, written out. *)
Lemma weighted_sum_five e r rel v u :
  weighted_sum [ (engagement, e); (recency, r); (relevance, rel);
                 (velocity, v); (uniqueness, u) ]
  == (25 # 100) * e + (20 # 100) * r + (25 # 100) * rel
     + (15 # 100) * v + (15 # 100) * u.
Proof. unfold weighted_sum. simpl. ring. Qed.

Lemma score_topic_bounds topic existing_topics k :
  0 <= fst (score_topic clock self topic existing_topics k) <= 100.
Proof.
  unfold score_topic, factor_scores, cbind, cret.
  pose proof (engagement_bounds topic) as He.
  pose proof (recency_bounds topic k) as Hr.
  pose proof (relevance_bounds topic) as Hrel.
  pose proof (uniqueness_bounds topic existing_topics) as Hu.
  destruct (calculate_recency_score clock topic k) as [r k1].
  pose proof (velocity_bounds topic k1) as Hv.
  destruct (calculate_velocity_score clock topic k1) as [v k2].
  simpl in *. apply round2_bounds.
  rewrite weighted_sum_five. lra.
Qed.

End Factors.

(** ** Scoring *)

Section Scoring.
Import PyNum Curator.
Local Open Scope Q_scope.

Variable clock : nat → datetime.
Variable self : ContentCurator.

Lemma Qmin_zero_count (d cap : Q) : 0 < d → 0 <= cap → Qmin (inject_Z 0 / d) cap == 0.
Proof.
  intros Hd Hcap.
  assert (H0 : inject_Z 0 / d == 0) by (unfold Qdiv; ring).
  rewrite (Q.min_compat _ _ H0 _ _ (Qeq_refl cap)).
  apply Q.min_l. exact Hcap.
Qed.

(** C7. With non-negative engagement counts, the engagement factor is
    [min(score/50, 40) + min(comments/25, 30) + min(shares/10, 30)],
    capped at 100. *)
Theorem engagement_score_formula topic :
  (0 <= score topic)%Z → (0 <= comments topic)%Z → (0 <= shares topic)%Z →
  calculate_engagement_score topic ==
    Qmin (Qmin (inject_Z (score topic) / 50) 40
          + Qmin (inject_Z (comments topic) / 25) 30
          + Qmin (inject_Z (shares topic) / 10) 30) 100.
Proof.
  intros Hs Hc Hh. unfold calculate_engagement_score, zdiv.
  apply Q.min_compat; [|reflexivity].
  assert (Es : (if (0 <? score topic)%Z
                then 0 + Qmin (inject_Z (score topic) / 50) 40 else 0)
               == Qmin (inject_Z (score topic) / 50) 40).
  { destruct (Z.ltb_spec 0 (score topic)) as [h|h]; [ring|].
    replace (score topic) with 0%Z by lia.
    symmetry. by apply Qmin_zero_count. }
  destruct (Z.ltb_spec 0 (comments topic)) as [h2|h2];
    destruct (Z.ltb_spec 0 (shares topic)) as [h3|h3];
    try (replace (comments topic) with 0%Z by lia;
         rewrite (Qmin_zero_count 25 30) by done);
    try (replace (shares topic) with 0%Z by lia;
         rewrite (Qmin_zero_count 10 30) by done);
    rewrite Es; ring.
Qed.

Lemma engagement_score_formula_witness :
  let t := mkTopic None "launch" None None REDDIT GENERAL 500 100 50 0 0 0
                   [] [] None None 0%Z None None in
  calculate_engagement_score t ==
    Qmin (Qmin (inject_Z 500 / 50) 40 + Qmin (inject_Z 100 / 25) 30
          + Qmin (inject_Z 50 / 10) 30) 100.
Proof.
  intros t. apply (engagement_score_formula t); simpl; lia.
Defined.

(** The scoring loop keeps every topic's other fields, leaves the
    positions before [i] alone, and gives the positions it visits a
    bounded score. *)
Lemma score_all_spec n i topics k :
  let out := fst (score_all clock self n i topics k) in
  Forall2 rescored topics out
  ∧ (∀ j, (j < i)%nat → out !! j = topics !! j)
  ∧ ∀ j t, (i <= j < i + n)%nat → out !! j = Some t →
           0 <= virality_score t <= 100.
Proof.
  assert (Hrefl : ∀ l : list Topic, Forall2 rescored l l).
  { intros l. apply Forall_Forall2_diag, Forall_forall.
    intros t _. by destruct t. }
  revert i topics k.
  induction n as [|n IH]; intros i topics k; simpl.
  - split; [apply Hrefl|]. split; [done|intros; lia].
  - destruct (topics !! i) as [topic|] eqn:Ei; simpl.
    + unfold cbind.
      pose proof (score_topic_bounds clock self topic (Some topics) k) as Hb.
      destruct (score_topic clock self topic (Some topics) k) as [v k1].
      simpl in Hb.
      specialize (IH (S i) (<[i := set_virality_score v topic]> topics) k1).
      destruct IH as (IH1 & IH2 & IH3).
      assert (Hlt : (i < length topics)%nat) by (by eapply lookup_lt_Some).
      split; [|split].
      * assert (H2 : Forall2 rescored topics
                       (<[i := set_virality_score v topic]> topics)).
        { apply Forall2_same_length_lookup. split; [by rewrite length_insert|].
          intros j a b Ha Hb'.
          destruct (decide (i = j)) as [->|Hne].
          - rewrite list_lookup_insert_eq in Hb' by done.
            rewrite Ei in Ha. by simplify_eq.
          - rewrite list_lookup_insert_ne in Hb' by done.
            rewrite Ha in Hb'. simplify_eq. by destruct b. }
        eapply Forall2_trans; [|exact H2|exact IH1].
        intros a b c Hab Hbc. unfold rescored in *.
        rewrite Hbc, Hab. by destruct a.
      * intros j Hj. rewrite IH2 by lia.
        apply list_lookup_insert_ne. lia.
      * intros j t Hj Hout.
        destruct (decide (i = j)) as [->|Hne]; [|apply (IH3 j t); [lia|done]].
        rewrite IH2 in Hout by lia.
        rewrite list_lookup_insert_eq in Hout by done.
        by simplify_eq.
    + split; [apply Hrefl|]. split; [done|].
      intros j t Hj Hout. apply lookup_ge_None in Ei.
      apply lookup_lt_Some in Hout. lia.
Qed.

End Scoring.

(** ** Sorting and slicing *)

Section SortFacts.
Import PyNum Curator.
Local Open Scope Q_scope.

Context {A : Type} (key : A → Q).

Lemma in_insert_desc x y l : In y (insert_desc key x l) ↔ y = x ∨ In y l.
Proof.
  induction l as [|z l IH]; simpl; [intuition auto|].
  destruct (Qltb (key x) (key z)); simpl; [rewrite IH|]; intuition auto.
Qed.

Lemma in_sort_desc y l : In y (sort_desc key l) ↔ In y l.
Proof.
  induction l as [|x l IH]; simpl; [done|].
  rewrite in_insert_desc, IH. intuition auto.
Qed.

Lemma length_insert_desc x l :
  length (insert_desc key x l) = S (length l).
Proof.
  induction l as [|z l IH]; simpl; [done|].
  destruct (Qltb (key x) (key z)); simpl; by rewrite ?IH.
Qed.

Lemma length_sort_desc l : length (sort_desc key l) = length l.
Proof.
  induction l as [|x l IH]; simpl; [done|].
  by rewrite length_insert_desc, IH.
Qed.

Lemma in_take (x : A) n l : In x (take n l) → In x l.
Proof. rewrite <- !list_elem_of_In. apply subseteq_take. Qed.

Lemma in_slice_to (x : A) l n : In x (slice_to l n) → In x l.
Proof. unfold slice_to. destruct (0 <=? n)%Z; apply in_take. Qed.

Lemma length_slice_to (l : list A) n :
  (0 <= n)%Z → (Z.of_nat (length (slice_to l n)) <= n)%Z.
Proof.
  intros Hn. unfold slice_to.
  destruct (Z.leb_spec 0 n); [|lia].
  rewrite length_take. lia.
Qed.

Lemma StronglySorted_take (R : A → A → Prop) n l :
  StronglySorted R l → StronglySorted R (take n l).
Proof.
  intros H. revert n.
  induction H as [|x l Hl IH Hx]; intros [|n]; simpl; try constructor.
  - apply IH.
  - apply Forall_forall. intros y Hy.
    rewrite Forall_forall in Hx. apply Hx.
    apply list_elem_of_In in Hy. apply list_elem_of_In.
    by eapply in_take.
Qed.

Lemma StronglySorted_slice_to (R : A → A → Prop) l n :
  StronglySorted R l → StronglySorted R (slice_to l n).
Proof. unfold slice_to. destruct (0 <=? n)%Z; apply StronglySorted_take. Qed.

End SortFacts.

Section SortMap.
Import PyNum Curator.

Context {A B : Type} (f : A → B) (key : B → Q).

(** Sorting commutes with a map that the key factors through. *)
Lemma insert_desc_map x l :
  map f (insert_desc (λ a, key (f a)) x l) = insert_desc key (f x) (map f l).
Proof.
  induction l as [|z l IH]; simpl; [done|].
  destruct (Qltb (key (f x)) (key (f z))); simpl; by rewrite ?IH.
Qed.

Lemma sort_desc_map l :
  map f (sort_desc (λ a, key (f a)) l) = sort_desc key (map f l).
Proof.
  induction l as [|x l IH]; simpl; [done|].
  by rewrite insert_desc_map, IH.
Qed.

Lemma slice_to_map l n : map f (slice_to l n) = slice_to (map f l) n.
Proof.
  unfold slice_to. rewrite length_map.
  destruct (0 <=? n)%Z; symmetry; apply firstn_map.
Qed.

Lemma filter_map_snd (P : B → bool) l :
  map f (List.filter (λ a, P (f a)) l) = List.filter P (map f l).
Proof.
  induction l as [|x l IH]; simpl; [done|].
  destruct (P (f x)); simpl; by rewrite IH.
Qed.

End SortMap.

(** ** Float arithmetic *)


Section Rounding.
Import PyNum.
Local Open Scope Q_scope.


End Rounding.

Section Float64Facts.
Import PyNum Float64.
Local Open Scope Q_scope.














End Float64Facts.

(** ** Scoring in float arithmetic *)

Section Scoring64.
Import PyNum Float64 Curator64.
Local Open Scope Q_scope.

Variable clock : nat → datetime.
Variable self : ContentCurator.

















End Scoring64.


(** A topic with a title of one word and seven shares: the products add
    up to the float just below 35.175, so the score is the float nearest
    to 35.17. Over the exact rationals the sum is 35.175, a tie, which
    rounds to 35.18. *)
Lemma score_topic_float_example :
  let topic := mkTopic None "x" None None REDDIT GENERAL 0 0 7 0 0%Q 0%Q []
                       [] None None 0 None None in
  fst (Curator64.score_topic Sample.clock default_curator topic None 0%nat)
  = Float64.fl (3517 # 100)
  ∧ (fst (Curator64.score_topic Sample.clock default_curator topic None
            0%nat) < 3518 # 100)%Q
  ∧ fst (Curator.score_topic Sample.clock default_curator topic None 0%nat)
    = (3518 # 100)%Q.
Proof.
  intros topic. split; [vm_compute; reflexivity|].
  split; vm_compute; reflexivity.
Qed.

(** ** Stability of the ranking *)

Section Ranking.
Import PyNum Curator.
Local Open Scope Q_scope.

Lemma insert_desc_ranked x s :
  StronglySorted ranked_before s →
  Forall (tag_lt x) s →
  StronglySorted ranked_before (insert_desc tagged_key x s).
Proof.
  intros Hs Hx. induction Hs as [|y s Hs IH Hy]; simpl.
  - repeat constructor.
  - apply Forall_cons in Hx as [Hxy Hxs].
    destruct (Qltb (tagged_key x) (tagged_key y)) eqn:E.
    + apply Qltb_lt in E. constructor; [by apply IH|].
      apply Forall_forall. intros z Hz.
      apply list_elem_of_In, in_insert_desc in Hz as [->|Hz].
      * by left.
      * rewrite Forall_forall in Hy. apply Hy. by apply list_elem_of_In.
    + apply Qltb_ge in E. unfold tagged_key in E.
      constructor; [by constructor|].
      assert (Hxy' : ranked_before x y).
      { destruct (Qlt_le_dec (virality_score (snd y)) (virality_score (snd x)));
          [by left|right]. split; [lra|done]. }
      constructor; [done|].
      apply Forall_forall. intros z Hz.
      rewrite Forall_forall in Hy, Hxs.
      specialize (Hy z Hz). specialize (Hxs z Hz).
      destruct Hy as [Hlt|[Heq _]].
      * left. lra.
      * destruct Hxy' as [Hlt'|[Heq' _]]; [left; lra|right].
        split; [lra|done].
Qed.

Lemma sort_desc_ranked g :
  StronglySorted tag_lt g →
  StronglySorted ranked_before (sort_desc tagged_key g).
Proof.
  induction 1 as [|x g Hg IH Hx]; simpl; [constructor|].
  apply insert_desc_ranked; [done|].
  apply Forall_forall. intros z Hz.
  apply list_elem_of_In, in_sort_desc, list_elem_of_In in Hz.
  rewrite Forall_forall in Hx. by apply Hx.
Qed.

Lemma ranked_descending g :
  StronglySorted ranked_before g →
  StronglySorted (λ a b, virality_score b <= virality_score a) (map snd g).
Proof.
  induction 1 as [|x g Hg IH Hx]; simpl; constructor; [done|].
  apply Forall_forall. intros t Ht.
  apply list_elem_of_In, in_map_iff in Ht as (z & <- & Hz).
  rewrite Forall_forall in Hx.
  destruct (Hx z) as [Hlt|[Heq _]]; [by apply list_elem_of_In|lra|lra].
Qed.

Lemma filter_tag_sorted (P : nat * Topic → bool) g :
  StronglySorted tag_lt g → StronglySorted tag_lt (List.filter P g).
Proof.
  induction 1 as [|x g Hg IH Hx]; simpl; [constructor|].
  destruct (P x); [|done]. constructor; [done|].
  apply Forall_forall. intros z Hz.
  apply list_elem_of_In, filter_In in Hz as [Hz _].
  rewrite Forall_forall in Hx. by apply Hx, list_elem_of_In.
Qed.

End Ranking.

(** ** The curation pipeline *)

Section Tagging.
Import PyNum Curator.
Local Open Scope Q_scope.

Lemma rescored_refl t : rescored t t.
Proof. by destruct t. Qed.

Lemma rescored_trans a b c : rescored a b → rescored b c → rescored a c.
Proof. unfold rescored. intros Hab Hbc. rewrite Hbc, Hab. by destruct a. Qed.

Lemma rescored_category a b : rescored a b → category b = category a.
Proof. unfold rescored. by intros ->. Qed.

Lemma rescored_published_at a b : rescored a b → published_at b = published_at a.
Proof. unfold rescored. by intros ->. Qed.

Lemma tagging_from l n :
  ∃ g, map snd g = l ∧ StronglySorted tag_lt g
       ∧ Forall (λ a, (n <= fst a)%nat ∧ l !! (fst a - n)%nat = Some (snd a)) g.
Proof.
  revert n. induction l as [|x l IH]; intros n.
  - exists []. repeat split; constructor.
  - destruct (IH (S n)) as (g & Hmap & Hsorted & Hall).
    exists ((n, x) :: g). split; [by rewrite <- Hmap|]. split.
    + constructor; [done|]. eapply Forall_impl; [exact Hall|].
      intros a [Ha _]. unfold tag_lt. simpl. lia.
    + constructor.
      * simpl. split; [lia|]. by rewrite Nat.sub_diag.
      * eapply Forall_impl; [exact Hall|]. intros a [Ha Hl].
        split; [lia|].
        replace (fst a - n)%nat with (S (fst a - S n)) by lia. done.
Qed.

Lemma tagging_start topics : ∃ g, tagging topics topics g.
Proof.
  destruct (tagging_from topics 0) as (g & Hmap & Hsorted & Hall).
  exists g. split; [done|]. split; [done|].
  eapply Forall_impl; [exact Hall|]. intros a [_ Ha].
  rewrite Nat.sub_0_r in Ha. exists (snd a). split; [done|apply rescored_refl].
Qed.

Lemma tagging_filter topics (P : Topic → bool) l g :
  tagging topics l g →
  tagging topics (List.filter P l) (List.filter (λ a, P (snd a)) g).
Proof.
  intros (Hmap & Hsorted & Hall). split; [|split].
  - rewrite <- Hmap. apply filter_map_snd.
  - by apply filter_tag_sorted.
  - apply Forall_forall. intros a Ha.
    apply list_elem_of_In, filter_In in Ha as [Ha _].
    rewrite Forall_forall in Hall. by apply Hall, list_elem_of_In.
Qed.

Lemma tagging_rescored topics g l' :
  StronglySorted tag_lt g → Forall (origin topics) g →
  Forall2 rescored (map snd g) l' →
  ∃ g', tagging topics l' g' ∧ map fst g' = map fst g.
Proof.
  intros Hsorted. revert l'.
  induction Hsorted as [|[i t] g Hg IH Hi]; intros l' Hall H2; simpl in H2.
  - apply Forall2_nil_inv_l in H2 as ->. exists []. repeat split; constructor.
  - apply Forall2_cons_inv_l in H2 as (t' & l0 & Htt' & H2 & ->).
    apply Forall_cons in Hall as [Hit Hall].
    destruct (IH l0 Hall H2) as (g' & (Hmap & Hs' & Hall') & Hfst).
    exists ((i, t') :: g'). split; [|by simpl; rewrite Hfst].
    split; [by simpl; rewrite Hmap|]. split.
    + constructor; [done|].
      assert (Hfsts : Forall (λ j, (i < j)%nat) (map fst g)).
      { apply Forall_forall. intros j Hj.
        apply list_elem_of_In, in_map_iff in Hj as (b & <- & Hb).
        rewrite Forall_forall in Hi. by apply (Hi b), list_elem_of_In. }
      rewrite <- Hfst in Hfsts.
      apply Forall_forall. intros b Hb. rewrite Forall_forall in Hfsts.
      apply Hfsts, list_elem_of_In, in_map, list_elem_of_In, Hb.
    + constructor; [|done].
      destruct Hit as (t0 & Ht0 & Hres). exists t0.
      split; [done|]. by eapply rescored_trans.
Qed.

Lemma tagging_ranked topics l g n :
  tagging topics l g →
  ∃ g', map snd g' = slice_to (sort_desc virality_score l) n
        ∧ StronglySorted ranked_before g'
        ∧ Forall (origin topics) g'.
Proof.
  intros (Hmap & Hsorted & Hall).
  exists (slice_to (sort_desc tagged_key g) n). split; [|split].
  - rewrite slice_to_map. unfold tagged_key.
    by rewrite (sort_desc_map snd virality_score), Hmap.
  - by apply StronglySorted_slice_to, sort_desc_ranked.
  - apply Forall_forall. intros a Ha.
    apply list_elem_of_In, in_slice_to, in_sort_desc in Ha.
    rewrite Forall_forall in Hall. by apply Hall, list_elem_of_In.
Qed.

End Tagging.

Section Curation.
Import PyNum Curator.
Local Open Scope Q_scope.

Variable clock : nat → datetime.
Variable self : ContentCurator.

(** The stages of [curate_topics], named. *)
Lemma curate_topics_stages topics limit categories min_score_arg k :
  let by_category :=
    match categories with
    | None | Some [] => topics
    | Some cs => List.filter (λ t, bool_decide (category t ∈ cs)) topics
    end in
  let by_age :=
    List.filter
      (λ t, match published_at t with
            | None => true
            | Some p => Qle_bool (hours_between (clock k) p)
                                 (inject_Z (max_age_hours self))
            end) by_category in
  let scored := fst (score_all clock self (length by_age) 0 by_age (S k)) in
  fst (curate_topics clock self topics limit categories min_score_arg k)
  = slice_to
      (sort_desc virality_score
         (List.filter
            (λ t, Qgeb (virality_score t)
                       (default (min_score self) min_score_arg)) scored))
      limit.
Proof.
  intros by_category by_age scored.
  unfold curate_topics, cbind, cret, now.
  fold by_category. fold by_age. subst scored.
  by destruct (score_all clock self (length by_age) 0 by_age (S k)).
Qed.

Lemma curate_topics_bounded topics limit categories min_score_arg k t :
  t ∈ fst (curate_topics clock self topics limit categories min_score_arg k) →
  0 <= virality_score t <= 100.
Proof.
  rewrite curate_topics_stages. cbv zeta. intros Ht.
  apply list_elem_of_In, in_slice_to, in_sort_desc, filter_In in Ht as [Ht _].
  apply list_elem_of_In, list_elem_of_lookup in Ht as [j Hj].
  match type of Hj with
  | fst (score_all _ _ ?n _ ?l ?k') !! _ = _ =>
      destruct (score_all_spec clock self n 0 l k') as (H2 & _ & Hb)
  end.
  apply (Hb j t); [|done].
  apply lookup_lt_Some in Hj. apply Forall2_length in H2. lia.
Qed.

(** C6, as the code has it. Every topic returned by [curate_topics] has
    its category in the given list when a non-empty list is given, a score
    of at least [min_score], and is no older than [max_age_hours] when the
    clock is read, or has no publication time; the list is sorted by
    descending score, topics of equal score in batch order; and it has at
    most [limit] topics when [limit] is not negative. *)
Theorem curate_topics_output topics limit categories min_score_arg k :
  let out :=
    fst (curate_topics clock self topics limit categories min_score_arg k) in
  Forall (λ t,
      match categories with
      | Some (c :: cs) => category t ∈ c :: cs
      | _ => True
      end
      ∧ default (min_score self) min_score_arg <= virality_score t
      ∧ fresh_at (clock k) (max_age_hours self) t) out
  ∧ StronglySorted (λ a b, virality_score b <= virality_score a) out
  ∧ (∃ g, map snd g = out ∧ StronglySorted ranked_before g
          ∧ Forall (origin topics) g)
  ∧ ((0 <= limit)%Z → (Z.of_nat (length out) <= limit)%Z).
Proof.
  intros out. subst out. rewrite curate_topics_stages. cbv zeta.
  set (by_category :=
         match categories with
         | None | Some [] => topics
         | Some cs => List.filter (λ t, bool_decide (category t ∈ cs)) topics
         end).
  set (by_age := List.filter _ by_category).
  destruct (score_all_spec clock self (length by_age) 0 by_age (S k))
    as (Hres & _ & _).
  set (scored := fst (score_all clock self (length by_age) 0 by_age (S k))) in *.
  set (kept := List.filter (λ t, Qgeb (virality_score t) _) scored).
  (* the tagged run *)
  assert (Htag : ∃ g, tagging topics kept g).
  { destruct (tagging_start topics) as (g0 & Hg0).
    assert (∃ g1, tagging topics by_category g1) as (g1 & Hg1).
    { subst by_category. destruct categories as [[|c cs]|]; eauto.
      eexists. by apply tagging_filter. }
    assert (∃ g2, tagging topics by_age g2) as (g2 & Hmap2 & Hs2 & Hall2).
    { eexists. by apply tagging_filter. }
    rewrite <- Hmap2 in Hres.
    destruct (tagging_rescored topics _ _ Hs2 Hall2 Hres) as (g3 & Hg3 & _).
    eexists. by apply tagging_filter. }
  destruct Htag as (g & Hg).
  destruct (tagging_ranked topics kept g limit Hg) as (g' & Hmap & Hrank & Hor).
  split; [|split; [|split]].
  - apply Forall_forall. intros t Ht.
    apply list_elem_of_In, in_slice_to, in_sort_desc, filter_In in Ht
      as [Ht Hmin].
    apply Qgeb_ge in Hmin.
    apply list_elem_of_In, list_elem_of_lookup in Ht as [j Hj].
    destruct (Forall2_lookup_r _ _ _ _ _ Hres Hj) as (t2 & Hj2 & Hr).
    apply list_elem_of_lookup_2, list_elem_of_In, filter_In in Hj2
      as [Hcat Hage].
    split; [|split; [done|]].
    + rewrite (rescored_category _ _ Hr).
      subst by_category. destruct categories as [[|c cs]|]; [done| |done].
      apply filter_In in Hcat as [_ Hcat]. by apply bool_decide_eq_true in Hcat.
    + unfold fresh_at. rewrite (rescored_published_at _ _ Hr).
      destruct (published_at t2); [|done]. by apply Qle_bool_iff.
  - rewrite <- Hmap. by apply ranked_descending.
  - by exists g'.
  - apply length_slice_to.
Qed.

End Curation.

Lemma curate_topics_output_witness :
  let t := mkTopic (Some "1"%string) "growth hack" None None REDDIT SEO
                   500 100 50 0 0%Q 0%Q [] [] None None 0%Z None None in
  Forall (λ t, category t ∈ [SEO] ∧ (30 <= virality_score t)%Q)
         (fst (Curator.curate_topics (λ _, 0%Z) default_curator [t] 25 (Some [SEO])
                             None 0%nat))
  ∧ (Z.of_nat (length (fst (Curator.curate_topics (λ _, 0%Z) default_curator [t] 25
                                          (Some [SEO]) None 0%nat))) <= 25)%Z.
Proof.
  intros t.
  destruct (curate_topics_output (λ _, 0%Z) default_curator [t] 25
              (Some [SEO]) None 0%nat) as (Hall & _ & _ & Hlen).
  split.
  - eapply Forall_impl; [exact Hall|]. intros a (Hc & Hm & _). by split.
  - apply Hlen. lia.
Defined.

(** C6 as stated fails on an empty category list, which is treated as no
    filter, and on a negative limit, which cuts from the end. *)
Lemma curate_topics_output_counterexample :
  let t := mkTopic (Some "1"%string) "growth hack" None None REDDIT GENERAL
                   500 100 50 0 0%Q 0%Q [] [] None None 0 None None in
  let u := mkTopic (Some "2"%string) "viral playbook" None None REDDIT GENERAL
                   500 100 50 0 0%Q 0%Q [] [] None None 0 None None in
  (∃ a, a ∈ fst (Curator.curate_topics (λ _, 0) default_curator [t] 25
                                       (Some []) None 0%nat)
        ∧ category a ∉ ([] : list ContentCategory))
  ∧ ¬ (Z.of_nat (length (fst (Curator.curate_topics (λ _, 0) default_curator
                                                     [t; u] (-1) None None 0%nat)))
       <= -1).
Proof.
  intros t u. split.
  - eexists. split; [|apply not_elem_of_nil].
    apply list_elem_of_In. vm_compute. left. reflexivity.
  - intros H. apply H. vm_compute. reflexivity.
Qed.

(** ** Uniqueness *)

Section Uniqueness.
Import PyNum Curator.
Local Open Scope Q_scope.

Lemma max_overlap_loop_ge topic l m : m <= max_overlap_loop topic l m.
Proof.
  unfold max_overlap_loop. revert m.
  induction l as [|e l IH]; intros m; simpl; [lra|].
  case_bool_decide; [apply IH|].
  eapply Qle_trans; [|apply IH]. apply Qmax_ge_l.
Qed.

(** The loop returns an upper bound of the overlaps it compares. *)
Lemma max_overlap_loop_upper topic l m e :
  e ∈ l → compared_with topic e →
  containment (title_words topic) (title_words e)
  <= max_overlap_loop topic l m.
Proof.
  unfold compared_with. intros He Hid. revert m.
  induction l as [|e' l IH]; intros m; [by apply elem_of_nil in He|].
  apply elem_of_cons in He as [->|He].
  - unfold max_overlap_loop. simpl. fold (max_overlap_loop topic l).
    rewrite bool_decide_eq_false_2 by done.
    eapply Qle_trans; [|apply max_overlap_loop_ge]. apply Qmax_ge_r.
  - unfold max_overlap_loop. simpl. by apply IH.
Qed.

(** The value returned is the start value or one of the overlaps. *)
Lemma max_overlap_loop_attained topic l m :
  max_overlap_loop topic l m = m
  ∨ ∃ e, e ∈ l ∧ compared_with topic e
         ∧ max_overlap_loop topic l m
           = containment (title_words topic) (title_words e).
Proof.
  unfold max_overlap_loop. revert m.
  induction l as [|e l IH]; intros m; simpl; [by left|].
  case_bool_decide as Hid.
  - destruct (IH m) as [Hm|(e' & He' & Hc & Heq)]; [by left|right].
    exists e'. split; [by right|done].
  - set (m' := Qmax m (containment (title_words topic) (title_words e))).
    destruct (IH m') as [Hm|(e' & He' & Hc & Heq)].
    + rewrite Hm. unfold m', Qmax, GenericMinMax.gmax.
      destruct (m ?= _); [by left|right|by left].
      exists e. split; [by left|done].
    + right. exists e'. split; [by right|done].
Qed.

(** Topics with the id of the scored topic do not take part. *)
Lemma max_overlap_loop_skips topic l m :
  max_overlap_loop topic l m
  = max_overlap_loop topic
      (List.filter (λ e, negb (bool_decide (id e = id topic))) l) m.
Proof.
  unfold max_overlap_loop. revert m.
  induction l as [|e l IH]; intros m; simpl; [done|].
  case_bool_decide as Hid; simpl; [apply IH|].
  rewrite bool_decide_eq_false_2 by done. apply IH.
Qed.

(** C2, as the code has it. For a non-empty batch the uniqueness factor
    is [max(100 - overlap*100, 10)], where [overlap] is the largest value
    of [|A∩B| / max(|A|, 1)] over the batch topics [B] whose id differs
    from the id of the scored topic [A] (0 when there is none); with no
    batch, or an empty one, the factor is 70. *)
Theorem uniqueness_score_formula topic :
  (∀ batch, batch ≠ [] →
     ∃ overlap,
       calculate_uniqueness_score topic (Some batch)
       = Qmax (100 - overlap * 100) 10
       ∧ 0 <= overlap
       ∧ (∀ e, e ∈ batch → compared_with topic e →
               containment (title_words topic) (title_words e) <= overlap)
       ∧ (overlap = 0
          ∨ ∃ e, e ∈ batch ∧ compared_with topic e
                 ∧ overlap = containment (title_words topic) (title_words e)))
  ∧ calculate_uniqueness_score topic None = 70
  ∧ calculate_uniqueness_score topic (Some []) = 70.
Proof.
  split; [|done].
  intros batch Hne. exists (max_overlap_loop topic batch 0).
  split; [by destruct batch|]. split; [apply max_overlap_loop_ge|].
  split; [intros; by apply max_overlap_loop_upper|].
  apply max_overlap_loop_attained.
Qed.

(** C10. A batch topic with the id of the scored topic is skipped; when
    every id is [None], nothing is compared and the factor is 100. *)
Theorem uniqueness_skips_equal_ids topic batch :
  batch ≠ [] →
  calculate_uniqueness_score topic (Some batch)
  = Qmax (100 - max_overlap_loop topic
                  (List.filter (λ e, negb (bool_decide (id e = id topic))) batch)
                  0 * 100) 10
  ∧ (id topic = None → Forall (λ e, id e = None) batch →
     List.filter (λ e, negb (bool_decide (id e = id topic))) batch = []
     ∧ calculate_uniqueness_score topic (Some batch) = 100).
Proof.
  intros Hne.
  assert (Hfirst : calculate_uniqueness_score topic (Some batch)
                   = Qmax (100 - max_overlap_loop topic
                             (List.filter
                                (λ e, negb (bool_decide (id e = id topic)))
                                batch) 0 * 100) 10).
  { rewrite <- max_overlap_loop_skips. by destruct batch. }
  split; [done|].
  intros Hid Hall.
  assert (Hnil : List.filter (λ e, negb (bool_decide (id e = id topic))) batch
                 = []).
  { clear Hfirst Hne. induction Hall as [|e l He _ IH]; simpl; [done|].
    rewrite bool_decide_eq_true_2 by congruence. apply IH. }
  split; [done|]. rewrite Hfirst, Hnil. reflexivity.
Qed.

End Uniqueness.

Lemma uniqueness_score_formula_witness :
  let t := mkTopic (Some "1"%string) "a b" None None REDDIT GENERAL
                   0 0 0 0 0%Q 0%Q [] [] None None 0 None None in
  let o := mkTopic (Some "2"%string) "a b c" None None REDDIT GENERAL
                   0 0 0 0 0%Q 0%Q [] [] None None 0 None None in
  ∃ overlap,
    Curator.calculate_uniqueness_score t (Some [t; o])
    = Qmax (100 - overlap * 100) 10
    ∧ (Curator.containment (title_words t) (title_words o) <= overlap)%Q.
Proof.
  intros t o.
  destruct (proj1 (uniqueness_score_formula t) [t; o])
    as (overlap & Heq & _ & Hub & _); [done|].
  exists overlap. split; [done|].
  apply Hub; [right; left|]. unfold compared_with. simpl. congruence.
Defined.

Lemma uniqueness_skips_equal_ids_witness :
  let t := mkTopic None "AI Marketing Tools for 2025" None None REDDIT GENERAL
                   0 0 0 0 0%Q 0%Q [] [] None None 0 None None in
  let o := mkTopic None "Best AI Marketing Tools 2025" None None REDDIT GENERAL
                   0 0 0 0 0%Q 0%Q [] [] None None 0 None None in
  Curator.calculate_uniqueness_score t (Some [t; o]) = 100%Q.
Proof.
  intros t o.
  apply (uniqueness_skips_equal_ids t [t; o]); [done|done|].
  repeat constructor.
Defined.

(** C2 as stated fails: the overlap is taken relative to the title of the
    scored topic, not to the union of the two titles. With titles [a b] and
    [a b c] the Jaccard similarity is 2/3, the code's overlap is 1 and the
    factor is 10. *)
Lemma uniqueness_score_formula_counterexample :
  let t := mkTopic (Some "1"%string) "a b" None None REDDIT GENERAL
                   0 0 0 0 0%Q 0%Q [] [] None None 0 None None in
  let o := mkTopic (Some "2"%string) "a b c" None None REDDIT GENERAL
                   0 0 0 0 0%Q 0%Q [] [] None None 0 None None in
  (Curator.jaccard (title_words t) (title_words o) == 2 # 3)%Q
  ∧ (Curator.calculate_uniqueness_score t (Some [t; o]) == 10)%Q
  ∧ ¬ (Curator.calculate_uniqueness_score t (Some [t; o])
       == Qmax (100 - Curator.jaccard (title_words t) (title_words o) * 100) 10)%Q.
Proof.
  intros t o. split; [|split].
  - vm_compute. reflexivity.
  - vm_compute. reflexivity.
  - vm_compute. discriminate.
Qed.

(** ** Deduplication *)

Section Dedup.
Import PyNum Curator.
Local Open Scope Q_scope.

Lemma topic_eqb_refl t : topic_eqb t t = true.
Proof.
  unfold topic_eqb.
  rewrite !bool_decide_eq_true_2 by done.
  rewrite !Z.eqb_refl.
  rewrite !(proj2 (Qeq_bool_iff _ _) (Qeq_refl _)). done.
Qed.

Lemma topic_eqb_title a b : topic_eqb a b = true → title a = title b.
Proof.
  intros H. destruct (decide (title a = title b)) as [|Hne]; [done|].
  unfold topic_eqb in H.
  rewrite (bool_decide_eq_false_2 (title a = title b)) in H by done.
  rewrite andb_false_r in H. discriminate.
Qed.

(** The inner loop stops at the first accepted topic that is similar
    enough. *)
Lemma find_duplicate_Some thr words l e :
  find_duplicate thr words l = Some e →
  ∃ l1 l2, l = l1 ++ e :: l2
           ∧ Forall (λ x, jaccard words (title_words x) < thr) l1
           ∧ thr <= jaccard words (title_words e).
Proof.
  induction l as [|x l IH]; simpl; [done|].
  destruct (Qgeb (jaccard words (title_words x)) thr) eqn:E.
  - intros [= ->]. exists [], l. apply Qgeb_ge in E. by repeat split.
  - intros H. destruct (IH H) as (l1 & l2 & -> & Hl1 & He).
    exists (x :: l1), l2. split; [done|]. split; [|done].
    constructor; [|done]. apply Qnot_le_lt. intros Hle.
    apply Qgeb_ge in Hle. congruence.
Qed.

Lemma find_duplicate_None thr words l :
  find_duplicate thr words l = None
  ↔ Forall (λ x, jaccard words (title_words x) < thr) l.
Proof.
  induction l as [|x l IH]; simpl; [split; [constructor|done]|].
  destruct (Qgeb (jaccard words (title_words x)) thr) eqn:E.
  - split; [done|]. intros H. apply Forall_cons in H as [H _].
    apply Qgeb_ge in E. exfalso. by apply (Qlt_not_le _ _ H).
  - rewrite IH. split.
    + intros H. constructor; [|done]. apply Qnot_le_lt. intros Hle.
      apply Qgeb_ge in Hle. congruence.
    + intros H. by apply Forall_cons in H as [_ H].
Qed.

Lemma find_duplicate_is_Some thr words l e :
  e ∈ l → thr <= jaccard words (title_words e) →
  is_Some (find_duplicate thr words l).
Proof.
  intros He Hthr.
  destruct (find_duplicate thr words l) eqn:E; [done|].
  apply find_duplicate_None in E. rewrite Forall_forall in E.
  exfalso. by apply (Qlt_not_le _ _ (E e He)).
Qed.

(** [unique_topics.remove(existing)] finds [existing] where the inner
    loop found it. *)
Lemma remove_found thr words l1 e l2 :
  Forall (λ x, jaccard words (title_words x) < thr) l1 →
  thr <= jaccard words (title_words e) →
  list_remove e (l1 ++ e :: l2) = l1 ++ l2.
Proof.
  intros Hl1 He. induction Hl1 as [|x l1 Hx _ IH]; cbn [list_remove app].
  - by rewrite topic_eqb_refl.
  - destruct (topic_eqb x e) eqn:E; [|by rewrite IH].
    apply topic_eqb_title in E. unfold title_words in Hx, He.
    rewrite E in Hx. exfalso. by apply (Qlt_not_le _ _ Hx).
Qed.

Lemma dedup_step_at_duplicate thr unique_topics topic l1 existing l2 :
  unique_topics = l1 ++ existing :: l2 →
  Forall (λ x, jaccard (title_words topic) (title_words x) < thr) l1 →
  thr <= jaccard (title_words topic) (title_words existing) →
  dedup_step thr unique_topics topic
  = if Qgtb (virality_score topic) (virality_score existing)
    then l1 ++ l2 ++ [topic] else unique_topics.
Proof.
  intros -> Hl1 He. unfold dedup_step.
  assert (Hfind : find_duplicate thr (title_words topic) (l1 ++ existing :: l2)
                  = Some existing).
  { clear -Hl1 He. induction Hl1 as [|x l1 Hx _ IH]; simpl.
    - by rewrite (proj2 (Qgeb_ge _ _) He).
    - destruct (Qgeb _ thr) eqn:E; [|done].
      apply Qgeb_ge in E. exfalso. by apply (Qlt_not_le _ _ Hx). }
  rewrite Hfind.
  destruct (Qgtb _ _); [|done].
  by rewrite (remove_found thr (title_words topic)), <- app_assoc.
Qed.

(** C4, as the code has it. When the new topic is similar enough to an
    accepted topic, the round resolves it against the first such accepted
    topic, whatever the accepted topics after that one: that topic is
    replaced by the new one if the new one scores strictly higher, and the
    new one is dropped otherwise. The two scenario titles deduplicate to
    one record, with the higher score of the two. *)
Theorem dedup_step_keeps_higher_score :
  (∀ thr unique_topics topic e,
     e ∈ unique_topics →
     thr <= jaccard (title_words topic) (title_words e) →
     ∃ l1 existing l2,
       unique_topics = l1 ++ existing :: l2
       ∧ Forall (λ x, jaccard (title_words topic) (title_words x) < thr) l1
       ∧ thr <= jaccard (title_words topic) (title_words existing)
       ∧ dedup_step thr unique_topics topic
         = if Qgtb (virality_score topic) (virality_score existing)
           then l1 ++ l2 ++ [topic] else l1 ++ existing :: l2)
  ∧ (∀ a b, scenario_titles a b →
       ∃ r, deduplicate_topics [a; b] default_threshold = [r]
            ∧ (r = a ∨ r = b)
            ∧ virality_score a <= virality_score r
            ∧ virality_score b <= virality_score r).
Proof.
  split.
  - intros thr unique_topics topic e He Hthr.
    destruct (find_duplicate_is_Some thr _ _ _ He Hthr) as [existing Hf].
    destruct (find_duplicate_Some _ _ _ _ Hf) as (l1 & l2 & Hl & Hl1 & Hex).
    exists l1, existing, l2. split; [done|]. split; [done|]. split; [done|].
    rewrite <- Hl. by apply dedup_step_at_duplicate.
  - intros a b Htitles.
    assert (Hsim : default_threshold
                   <= jaccard (title_words b) (title_words a)).
    { unfold title_words.
      destruct Htitles as [[-> ->]|[-> ->]]; vm_compute; discriminate. }
    unfold deduplicate_topics. simpl.
    change (dedup_step default_threshold [] a) with [a].
    rewrite (dedup_step_at_duplicate default_threshold [a] b [] a []);
      [|done|constructor|done].
    destruct (Qgtb (virality_score b) (virality_score a)) eqn:E.
    + apply Qgtb_gt in E. exists b. simpl. split; [done|].
      split; [by right|]. split; lra.
    + apply Qltb_ge in E. exists a. split; [done|].
      split; [by left|]. split; lra.
Qed.

End Dedup.

Lemma dedup_step_keeps_higher_score_witness :
  let a := mkTopic None "AI Marketing Tools for 2025" None None REDDIT GENERAL
                   0 0 0 0 40%Q 0%Q [] [] None None 0 None None in
  let b := mkTopic None "Best AI Marketing Tools 2025" None None HACKER_NEWS
                   GENERAL 0 0 0 0 55%Q 0%Q [] [] None None 0 None None in
  (∃ l1 existing l2,
     [a] = l1 ++ existing :: l2
     ∧ Curator.dedup_step Curator.default_threshold [a] b
       = if PyNum.Qgtb (virality_score b) (virality_score existing)
         then l1 ++ l2 ++ [b] else l1 ++ existing :: l2)
  ∧ ∃ r, Curator.deduplicate_topics [a; b] Curator.default_threshold = [r]
         ∧ (virality_score a <= virality_score r)%Q
         ∧ (virality_score b <= virality_score r)%Q.
Proof.
  intros a b. split.
  - destruct (proj1 dedup_step_keeps_higher_score Curator.default_threshold
                [a] b a) as (l1 & existing & l2 & Hl & _ & _ & Hstep).
    + left.
    + vm_compute. discriminate.
    + exists l1, existing, l2. split; [exact Hl|exact Hstep].
  - destruct (proj2 dedup_step_keeps_higher_score a b)
      as (r & Hr & _ & Ha & Hb).
    + left. split; reflexivity.
    + exists r. split; [exact Hr|]. split; [exact Ha|exact Hb].
Defined.

(** C4 as stated fails: the new topic is compared with the first accepted
    topic it matches and with no other. Here the new topic [x3] matches
    both accepted topics; it replaces [x1], and [x2] and [x3] both survive
    the round although they are similar enough and [x3] scores higher. *)
Lemma dedup_step_keeps_higher_score_counterexample :
  let x1 := mkTopic (Some "r1"%string) "AI Marketing Tools Guide" None None
                    REDDIT GENERAL 0 0 0 0 40%Q 0%Q [] [] None None 0 None
                    None in
  let x2 := mkTopic (Some "h1"%string) "Free Marketing Guide 2025" None None
                    HACKER_NEWS GENERAL 0 0 0 0 40%Q 0%Q [] [] None None 0
                    None None in
  let x3 := mkTopic (Some "f1"%string) "Free AI Marketing Tools Guide 2025"
                    None None RSS_FEED GENERAL 0 0 0 0 55%Q 0%Q [] [] None
                    None 0 None None in
  x2 ∈ [x1; x2]
  ∧ (Curator.default_threshold
     <= Curator.jaccard (title_words x3) (title_words x2))%Q
  ∧ (virality_score x2 < virality_score x3)%Q
  ∧ Curator.dedup_step Curator.default_threshold [x1; x2] x3 = [x2; x3]
  ∧ x2 ∈ Curator.dedup_step Curator.default_threshold [x1; x2] x3
  ∧ x3 ∈ Curator.dedup_step Curator.default_threshold [x1; x2] x3.
Proof.
  intros x1 x2 x3.
  assert (H : Curator.dedup_step Curator.default_threshold [x1; x2] x3
              = [x2; x3]) by (vm_compute; reflexivity).
  split; [right; left|]. split; [vm_compute; discriminate|].
  split; [reflexivity|]. split; [exact H|]. rewrite H.
  split; [left|right; left].
Qed.

Section DedupTwice.
Import PyNum Curator.
Local Open Scope Q_scope.

Lemma settled_nil thr : settled thr [].
Proof. intros [|x l1] e l2 H; discriminate. Qed.

Lemma settled_snoc thr l x :
  settled thr l → find_duplicate thr (title_words x) l = None →
  settled thr (l ++ [x]).
Proof.
  intros Hl Hx l1 e l2 Heq.
  destruct l2 as [|b l2 _] using rev_ind.
  - apply app_inj_tail in Heq as [-> ->]. done.
  - rewrite app_comm_cons, app_assoc in Heq.
    apply app_inj_tail in Heq as [-> _]. by eapply Hl.
Qed.

(** A pass over a settled list accepts every topic. *)
Lemma dedup_settled thr l2 : ∀ l1,
  settled thr (l1 ++ l2) →
  fold_left (dedup_step thr) l2 l1 = l1 ++ l2.
Proof.
  induction l2 as [|e l2 IH]; intros l1 Hs; simpl; [by rewrite app_nil_r|].
  assert (Hstep : dedup_step thr l1 e = l1 ++ [e]).
  { unfold dedup_step. by rewrite (Hs l1 e l2). }
  rewrite Hstep, IH; rewrite <- app_assoc; done.
Qed.

(** A pass in which no topic outscores an accepted one only appends, and
    ends on a settled list. *)
Lemma dedup_nonincreasing_settled thr topics : ∀ unique_topics,
  StronglySorted (λ a b, virality_score b <= virality_score a) topics →
  (∀ u x, u ∈ unique_topics → x ∈ topics →
          virality_score x <= virality_score u) →
  settled thr unique_topics →
  settled thr (fold_left (dedup_step thr) topics unique_topics).
Proof.
  induction topics as [|x topics IH]; intros U Hsorted Hscore HU; simpl;
    [done|].
  apply StronglySorted_inv in Hsorted as [Hsorted Hx].
  rewrite Forall_forall in Hx.
  unfold dedup_step at 2.
  destruct (find_duplicate thr (title_words x) U) as [e|] eqn:Ef.
  - destruct (find_duplicate_Some _ _ _ _ Ef) as (l1 & l2 & -> & _ & _).
    assert (Hle : virality_score x <= virality_score e).
    { apply Hscore; [|by left]. apply elem_of_app. right. by left. }
    rewrite (proj2 (Qltb_ge _ _) Hle : Qgtb _ _ = false).
    apply IH; [done| |done].
    intros u y Hu Hy. apply Hscore; [done|by right].
  - apply IH; [done| |by apply settled_snoc].
    intros u y Hu Hy. apply elem_of_app in Hu as [Hu|Hu].
    + apply Hscore; [done|by right].
    + apply list_elem_of_singleton in Hu as ->. by apply Hx.
Qed.

(** On a batch whose scores never increase along the batch (such as a
    batch of unscored topics, all at 0), a second deduplication changes
    nothing, whatever the threshold. *)
Lemma deduplicate_topics_twice_nonincreasing topics thr :
  StronglySorted (λ a b, virality_score b <= virality_score a) topics →
  deduplicate_topics (deduplicate_topics topics thr) thr
  = deduplicate_topics topics thr.
Proof.
  intros Hsorted. unfold deduplicate_topics.
  apply (dedup_settled thr _ []). simpl.
  apply dedup_nonincreasing_settled; [done| |apply settled_nil].
  intros u x Hu. by apply elem_of_nil in Hu.
Qed.

End DedupTwice.

(** C3 fails on the code. A topic that replaces an accepted one is
    appended without being compared with the rest of the accepted list, so
    the result of one pass can still hold two near-duplicates, and a second
    pass removes one of them. *)
Theorem deduplicate_topics_not_idempotent :
  let x1 := mkTopic (Some "r1"%string) "AI Marketing Tools Guide" None None
                    REDDIT GENERAL 0 0 0 0 40%Q 0%Q [] [] None None 0 None
                    None in
  let x2 := mkTopic (Some "h1"%string) "Free Marketing Guide 2025" None None
                    HACKER_NEWS GENERAL 0 0 0 0 40%Q 0%Q [] [] None None 0
                    None None in
  let x3 := mkTopic (Some "f1"%string) "Free AI Marketing Tools Guide 2025"
                    None None RSS_FEED GENERAL 0 0 0 0 55%Q 0%Q [] [] None
                    None 0 None None in
  Curator.deduplicate_topics [x1; x2; x3] Curator.default_threshold = [x2; x3]
  ∧ (Curator.default_threshold
     <= Curator.jaccard (title_words x3) (title_words x2))%Q
  ∧ Curator.deduplicate_topics [x2; x3] Curator.default_threshold = [x3]
  ∧ Curator.deduplicate_topics
      (Curator.deduplicate_topics [x1; x2; x3] Curator.default_threshold)
      Curator.default_threshold
    ≠ Curator.deduplicate_topics [x1; x2; x3] Curator.default_threshold.
Proof.
  intros x1 x2 x3.
  assert (H1 : Curator.deduplicate_topics [x1; x2; x3] Curator.default_threshold
               = [x2; x3]) by (vm_compute; reflexivity).
  assert (H2 : Curator.deduplicate_topics [x2; x3] Curator.default_threshold
               = [x3]) by (vm_compute; reflexivity).
  split; [exact H1|]. split; [vm_compute; discriminate|]. split; [exact H2|].
  rewrite H1, H2. discriminate.
Qed.

(** ** The orchestrator *)

Section Orchestrator.
Import ViralContentResearcher.

Variable adapter_fetch_trending : TrendSource → Z → list Topic + PyExc.

Lemma fetch_frame_refl st : fetch_frame st st.
Proof. by repeat split. Qed.

Lemma fetch_frame_trans a b c : fetch_frame a b → fetch_frame b c → fetch_frame a c.
Proof.
  intros (H1 & H2 & H3 & H4 & H5) (G1 & G2 & G3 & G4 & G5).
  split; [congruence|]. split; [congruence|]. split; [congruence|].
  split; [congruence|]. intros s. by rewrite G5, H5.
Qed.

Lemma fetch_frame_same r k out reqs out' reqs' :
  fetch_frame (mkState r k out reqs) (mkState r k out' reqs').
Proof. unfold fetch_frame. simpl. auto. Qed.

Lemma fetch_frame_new_scraper r k out reqs out' reqs' source :
  has_scraper_class source = true →
  fetch_frame (mkState r k out reqs)
    (mkState (mkResearcher (sources r) (curator r)
                (_scrapers r ++ [source]) (_session r)) k out' reqs').
Proof.
  intros Hs. unfold fetch_frame. simpl.
  split; [done|]. split; [done|]. split; [done|]. split; [done|].
  intros s. unfold will_fetch. simpl.
  destruct (decide (s = source)) as [->|Hne].
  - by rewrite Hs, !orb_true_r.
  - f_equal. apply bool_decide_ext. rewrite elem_of_app.
    rewrite list_elem_of_singleton. tauto.
Qed.

(** One fetch task: its outcome is the [task_result] of the source; it
    issues one request when there is a scraper. *)
Lemma fetch_from_source_run source limit st :
  ∃ st',
    match task_result adapter_fetch_trending (self st) limit source with
    | inl l => _fetch_from_source adapter_fetch_trending source limit st
               = Returned l st'
    | inr e => _fetch_from_source adapter_fetch_trending source limit st
               = Raised e st'
    end
    ∧ extend_lists [task_result adapter_fetch_trending (self st) limit source]
      = contribution adapter_fetch_trending (self st) limit source
    ∧ fetch_frame st st'
    ∧ requests st'
      = requests st
        ++ (if will_fetch (self st) source
            then [FetchTrending source limit] else []).
Proof.
  destruct st as [r k out reqs].
  unfold _fetch_from_source, _get_scraper, rbind, get_self, contribution,
    task_result, will_fetch, put_self, rret, try_except_Exception,
    call_fetch_trending, print.
  cbn [self ticks stdout requests _scrapers].
  destruct (bool_decide (source ∈ _scrapers r)) eqn:Hc;
    [|destruct (has_scraper_class source) eqn:Hs];
    cbn [negb orb self ticks stdout requests extend_lists].
  - destruct (adapter_fetch_trending source limit) as [l|e] eqn:Ea;
      [|destruct (is_Exception e) eqn:Ee].
    + eexists. split; [reflexivity|].
      cbn [extend_lists requests]. rewrite app_nil_r.
      split; [done|]. split; [apply fetch_frame_same|done].
    + eexists. split; [reflexivity|].
      split; [done|]. split; [apply fetch_frame_same|done].
    + eexists. split; [reflexivity|].
      split; [done|]. split; [apply fetch_frame_same|done].
  - destruct (adapter_fetch_trending source limit) as [l|e] eqn:Ea;
      [|destruct (is_Exception e) eqn:Ee].
    + eexists. split; [reflexivity|].
      cbn [extend_lists requests]. rewrite app_nil_r.
      split; [done|]. split; [by apply fetch_frame_new_scraper|done].
    + eexists. split; [reflexivity|].
      split; [done|]. split; [by apply fetch_frame_new_scraper|done].
    + eexists. split; [reflexivity|].
      split; [done|]. split; [by apply fetch_frame_new_scraper|done].
  - eexists. split; [reflexivity|].
    split; [done|]. split; [apply fetch_frame_same|].
    cbn [requests]. by rewrite app_nil_r.
Qed.

(** The scrapers created on the way change the outcome of no task. *)
Lemma task_result_frame st st' limit s :
  fetch_frame st st' →
  task_result adapter_fetch_trending (self st') limit s
  = task_result adapter_fetch_trending (self st) limit s.
Proof. intros (_ & _ & _ & _ & Hw). unfold task_result. by rewrite Hw. Qed.

Lemma uninterrupted_frame st st' srcs :
  fetch_frame st st' →
  uninterrupted adapter_fetch_trending (self st) srcs →
  uninterrupted adapter_fetch_trending (self st') srcs.
Proof.
  intros Hframe Hun. eapply Forall_impl; [exact Hun|]. intros s Hs.
  unfold interruption. by rewrite (task_result_frame st st').
Qed.

Lemma filter_will_fetch_frame st st' (srcs : list TrendSource) :
  fetch_frame st st' →
  List.filter (will_fetch (self st')) srcs
  = List.filter (will_fetch (self st)) srcs.
Proof. intros (_ & _ & _ & _ & Hw). apply filter_ext. intros a. apply Hw. Qed.

(** An interrupting task has a scraper and made its request. *)
Lemma interruption_Some r limit s e :
  interruption adapter_fetch_trending r limit s = Some e →
  task_result adapter_fetch_trending r limit s = inr e
  ∧ leaves_event_loop e = true ∧ will_fetch r s = true.
Proof.
  unfold interruption, task_result.
  destruct (will_fetch r s); [|done].
  destruct (adapter_fetch_trending s limit) as [l|e']; [done|].
  destruct (is_Exception e'); [done|].
  destruct (leaves_event_loop e') eqn:El; [|done].
  intros [= <-]. done.
Qed.

(** Either no task ends the run, or there is a first one that does. *)
Lemma first_interruption r srcs :
  uninterrupted adapter_fetch_trending r srcs
  ∨ ∃ before s after e,
      srcs = before ++ s :: after
      ∧ uninterrupted adapter_fetch_trending r before
      ∧ interruption adapter_fetch_trending r 50 s = Some e.
Proof.
  induction srcs as [|s srcs IH]; [left; constructor|].
  destruct (interruption adapter_fetch_trending r 50 s) as [e|] eqn:Es.
  - right. exists [], s, srcs, e. split; [done|]. split; [constructor|done].
  - destruct IH as [IH|(before & s' & after & e & -> & Hb & Hs)].
    + left. by constructor.
    + right. exists (s :: before), s', after, e.
      split; [done|]. split; [by constructor|done].
Qed.

Lemma interrupted_not_uninterrupted r srcs before s after e :
  srcs = before ++ s :: after →
  interruption adapter_fetch_trending r 50 s = Some e →
  ¬ uninterrupted adapter_fetch_trending r srcs.
Proof.
  intros -> Hs Hun. apply Forall_app in Hun as [_ Hun].
  apply Forall_cons in Hun as [Hnone _]. congruence.
Qed.

(** The requests of an interrupted run are the first of those of a whole
    run. *)
Lemma interrupted_requests_prefix r before s after e :
  interruption adapter_fetch_trending r 50 s = Some e →
  map (λ s, FetchTrending s 50) (List.filter (will_fetch r) before ++ [s])
  `prefix_of` map (λ s, FetchTrending s 50)
                  (List.filter (will_fetch r) (before ++ s :: after)).
Proof.
  intros Hs. apply interruption_Some in Hs as (_ & _ & Hw).
  exists (map (λ s, FetchTrending s 50) (List.filter (will_fetch r) after)).
  rewrite List.filter_app. cbn [List.filter]. rewrite Hw.
  rewrite <- map_app, <- app_assoc. done.
Qed.

(** The fan-out when no task ends the run: [gather] returns, and the
    merged list is made of the contributions of the sources, in source
    order. *)
Lemma gather_fetch_tasks srcs : ∀ st,
  uninterrupted adapter_fetch_trending (self st) srcs →
  ∃ results st',
    gather (map (λ task, _fetch_from_source adapter_fetch_trending (fst task) (snd task))
                (fetch_tasks srcs)) st
    = Returned results st'
    ∧ extend_lists results
      = flat_map (contribution adapter_fetch_trending (self st) 50) srcs
    ∧ fetch_frame st st'
    ∧ requests st'
      = requests st
        ++ map (λ s, FetchTrending s 50)
               (List.filter (will_fetch (self st)) srcs).
Proof.
  induction srcs as [|s srcs IH]; intros st Hun; simpl.
  - exists [], st. split; [done|]. split; [done|].
    split; [apply fetch_frame_refl|by rewrite app_nil_r].
  - apply Forall_cons in Hun as [Hs Hun].
    destruct (fetch_from_source_run s 50 st)
      as (st1 & Hrun & Hext & Hframe & Hreq).
    destruct (IH st1 (uninterrupted_frame st st1 srcs Hframe Hun))
      as (rs & st2 & Hg & Hext2 & Hframe2 & Hreq2).
    assert (Hcontrib : flat_map (contribution adapter_fetch_trending (self st1) 50) srcs
                       = flat_map (contribution adapter_fetch_trending (self st) 50) srcs).
    { apply flat_map_ext. intros a. unfold contribution.
      destruct Hframe as (_ & _ & _ & _ & Hw). by rewrite Hw. }
    pose proof (filter_will_fetch_frame st st1 srcs Hframe) as Hfilter.
    unfold interruption in Hs.
    exists (task_result adapter_fetch_trending (self st) 50 s :: rs), st2.
    split; [|split; [|split]].
    + destruct (task_result adapter_fetch_trending (self st) 50 s) as [l|e];
        rewrite Hrun; unfold rbind.
      * by rewrite Hg.
      * destruct (leaves_event_loop e); [done|]. by rewrite Hg.
    + rewrite <- Hcontrib, <- Hext2, <- Hext.
      destruct (task_result adapter_fetch_trending (self st) 50 s);
        simpl; by rewrite ?app_nil_r.
    + by eapply fetch_frame_trans.
    + rewrite Hreq2, Hreq, Hfilter, <- app_assoc. f_equal.
      by destruct (will_fetch (self st) s).
Qed.

(** The fan-out when a task ends the run: [gather] raises the error of
    the first such task, and the sources after it are not asked. *)
Lemma gather_fetch_tasks_interrupted before s after e : ∀ st,
  uninterrupted adapter_fetch_trending (self st) before →
  interruption adapter_fetch_trending (self st) 50 s = Some e →
  ∃ st',
    gather (map (λ task, _fetch_from_source adapter_fetch_trending (fst task) (snd task))
                (fetch_tasks (before ++ s :: after))) st
    = Raised e st'
    ∧ fetch_frame st st'
    ∧ requests st'
      = requests st
        ++ map (λ s, FetchTrending s 50)
               (List.filter (will_fetch (self st)) before)
        ++ [FetchTrending s 50].
Proof.
  induction before as [|b before IH]; intros st Hun Hint; simpl.
  - apply interruption_Some in Hint as (Hres & Hleave & Hwill).
    destruct (fetch_from_source_run s 50 st)
      as (st1 & Hrun & _ & Hframe & Hreq).
    rewrite Hres in Hrun. rewrite Hrun, Hleave.
    exists st1. split; [done|]. split; [done|]. by rewrite Hreq, Hwill.
  - apply Forall_cons in Hun as [Hb Hun].
    destruct (fetch_from_source_run b 50 st)
      as (st1 & Hrun & _ & Hframe & Hreq).
    destruct (IH st1 (uninterrupted_frame st st1 before Hframe Hun))
      as (st2 & Hg & Hframe2 & Hreq2).
    { unfold interruption.
      rewrite (task_result_frame st st1 50 s Hframe). exact Hint. }
    pose proof (filter_will_fetch_frame st st1 before Hframe) as Hfilter.
    unfold interruption in Hb.
    exists st2. split; [|split].
    + destruct (task_result adapter_fetch_trending (self st) 50 b) as [l|e'];
        rewrite Hrun; unfold rbind.
      * by rewrite Hg.
      * destruct (leaves_event_loop e'); [done|]. by rewrite Hg.
    + by eapply fetch_frame_trans.
    + rewrite Hreq2, Hreq, Hfilter, <- !app_assoc. f_equal.
      by destruct (will_fetch (self st) b).
Qed.

End Orchestrator.

Section OrchestratorRun.
Import ViralContentResearcher.

Variable clock : nat → datetime.
Variable adapter_fetch_trending : TrendSource → Z → list Topic + PyExc.

(** A whole run of [research_trending] in which no task ends the event
    loop: it returns, and this is the session it leaves. *)
Lemma research_trending_run limit categories srcs min_score_arg st :
  let r := self st in
  let sources_to_query :=
    match srcs with
    | None | Some [] => sources r
    | Some l => l
    end in
  let merged :=
    flat_map (contribution adapter_fetch_trending r 50) sources_to_query in
  let curation :=
    Curator.curate_topics clock (curator r)
      (Curator.deduplicate_topics merged Curator.default_threshold)
      limit categories (Some min_score_arg) (S (ticks st)) in
  uninterrupted adapter_fetch_trending r sources_to_query →
  ∃ st',
    research_trending clock adapter_fetch_trending limit categories srcs
                      min_score_arg st
    = Returned (fst curation) st'
    ∧ _session (self st')
      = Some (mkSession None (clock (ticks st))
                (Some (clock (snd curation)))
                (Z.of_nat (length merged))
                (Z.of_nat (length (fst curation))) 0 sources_to_query
                (match categories with
                 | None | Some [] => []
                 | Some cs => map category_value cs
                 end)
                min_score_arg)
    ∧ ticks st' = S (snd curation)
    ∧ requests st'
      = requests st
        ++ map (λ s, FetchTrending s 50)
               (List.filter (will_fetch r) sources_to_query).
Proof.
  intros r sources_to_query merged curation Hun.
  unfold research_trending.
  unfold rbind at 1. unfold get_self at 1. fold r. fold sources_to_query.
  unfold rbind at 1. unfold lift_clock at 1, Curator.now. cbv beta iota.
  set (session0 := mkSession None (clock (ticks st)) None 0 0 0
                     sources_to_query _ min_score_arg).
  unfold rbind at 1. unfold put_self at 1. cbv beta iota.
  set (st1 := mkState _ _ _ _).
  unfold rbind at 1.
  destruct (gather_fetch_tasks adapter_fetch_trending sources_to_query st1 Hun)
    as (results & st2 & Hg & Hext & (Hsrc & Hcur & Hsess & Hticks & Hw) & Hreq).
  rewrite Hg. cbv beta iota.
  assert (Hmerged : extend_lists results = merged) by (by rewrite Hext).
  rewrite Hmerged.
  destruct st2 as [r2 k2 out2 reqs2]. simpl in Hsrc, Hcur, Hsess, Hticks, Hreq.
  destruct r2 as [src2 cur2 scr2 sess2]. simpl in Hsrc, Hcur, Hsess.
  subst src2 cur2 sess2 k2.
  unfold rbind, update_session, get_self, put_self, lift_clock, Curator.now,
    rret. simpl.
  fold r. fold merged. fold curation.
  destruct curation as [curated k3] eqn:Ec. simpl.
  eexists. split; [reflexivity|]. simpl.
  split; [done|]. split; [done|]. exact Hreq.
Qed.

(** A run of [research_trending] in which a task ends the event loop: the
    error of the first such task is raised, the session is left as it was
    created, and the sources after that task are not asked. *)
Lemma research_trending_interrupted
    limit categories srcs min_score_arg st before s after e :
  let r := self st in
  match srcs with
  | None | Some [] => sources r
  | Some l => l
  end = before ++ s :: after →
  uninterrupted adapter_fetch_trending r before →
  interruption adapter_fetch_trending r 50 s = Some e →
  ∃ st',
    research_trending clock adapter_fetch_trending limit categories srcs
                      min_score_arg st
    = Raised e st'
    ∧ _session (self st')
      = Some (mkSession None (clock (ticks st)) None 0 0 0
                (before ++ s :: after)
                (match categories with
                 | None | Some [] => []
                 | Some cs => map category_value cs
                 end)
                min_score_arg)
    ∧ ticks st' = S (ticks st)
    ∧ requests st'
      = requests st
        ++ map (λ s, FetchTrending s 50) (List.filter (will_fetch r) before)
        ++ [FetchTrending s 50].
Proof.
  intros r Hsrcs Hun Hint.
  unfold research_trending.
  unfold rbind at 1. unfold get_self at 1. fold r. rewrite Hsrcs.
  unfold rbind at 1. unfold lift_clock at 1, Curator.now. cbv beta iota.
  set (session0 := mkSession None (clock (ticks st)) None 0 0 0
                     (before ++ s :: after) _ min_score_arg).
  unfold rbind at 1. unfold put_self at 1. cbv beta iota.
  set (st1 := mkState _ _ _ _).
  unfold rbind at 1.
  destruct (gather_fetch_tasks_interrupted adapter_fetch_trending before s
              after e st1 Hun Hint)
    as (st2 & Hg & (Hsrc & Hcur & Hsess & Hticks & Hw) & Hreq).
  rewrite Hg. exists st2. split; [done|].
  split; [by rewrite Hsess|]. split; [by rewrite Hticks|]. exact Hreq.
Qed.

End OrchestratorRun.

(** ** Clock readings *)

Section ClockOrder.
Import Curator.

Variable clock : nat → datetime.
Variable self : ContentCurator.

Lemma recency_ticks topic k :
  (k <= snd (calculate_recency_score clock topic k))%nat.
Proof.
  unfold calculate_recency_score, cbind, cret, now.
  destruct (published_at topic); simpl; lia.
Qed.

Lemma velocity_ticks topic k :
  (k <= snd (calculate_velocity_score clock topic k))%nat.
Proof.
  unfold calculate_velocity_score, cbind, cret, now.
  destruct (PyNum.Qltb 0 (trending_velocity topic)); simpl; [lia|].
  destruct (published_at topic); simpl; lia.
Qed.

Lemma score_topic_ticks topic existing_topics k :
  (k <= snd (score_topic clock self topic existing_topics k))%nat.
Proof.
  unfold score_topic, factor_scores, cbind, cret.
  pose proof (recency_ticks topic k) as Hr.
  destruct (calculate_recency_score clock topic k) as [r k1].
  pose proof (velocity_ticks topic k1) as Hv.
  destruct (calculate_velocity_score clock topic k1) as [v k2].
  simpl in *. lia.
Qed.

Lemma score_all_ticks n : ∀ i topics k,
  (k <= snd (score_all clock self n i topics k))%nat.
Proof.
  induction n as [|n IH]; intros i topics k; simpl; [done|].
  destruct (topics !! i) as [topic|]; simpl; [|done].
  unfold cbind.
  pose proof (score_topic_ticks topic (Some topics) k) as Hs.
  destruct (score_topic clock self topic (Some topics) k) as [v k1].
  simpl in Hs.
  etrans; [exact Hs|apply IH].
Qed.

(** [curate_topics] reads the clock at least once. *)
Lemma curate_topics_ticks topics limit categories min_score_arg k :
  (k < snd (curate_topics clock self topics limit categories min_score_arg k))%nat.
Proof.
  unfold curate_topics, cbind, cret, now.
  match goal with
  | |- context [score_all clock self ?n ?i ?l ?k'] =>
      pose proof (score_all_ticks n i l k') as Hs;
      destruct (score_all clock self n i l k') as [scored k1]
  end.
  simpl in *. lia.
Qed.

End ClockOrder.

(** ** Sessions, fetch requests and failing sources *)

Section Sessions.
Import ViralContentResearcher.

Variable clock : nat → datetime.
Variable adapter_fetch_trending : TrendSource → Z → list Topic + PyExc.
Variable adapter_search : TrendSource → string → Z → list Topic + PyExc.

Lemma preserves_rret {A} (a : A) : preserves_session (rret a).
Proof. by intros st. Qed.

Lemma preserves_rbind {A B} (m : Run A) (f : A → Run B) :
  preserves_session m → (∀ a, preserves_session (f a)) →
  preserves_session (rbind m f).
Proof.
  intros Hm Hf st. unfold rbind. specialize (Hm st).
  destruct (m st) as [a st1|e st1]; simpl in *; [|done].
  by rewrite (Hf a st1).
Qed.

Lemma preserves_try {A} (body : Run A) handler :
  preserves_session body → (∀ e, preserves_session (handler e)) →
  preserves_session (try_except_Exception body handler).
Proof.
  intros Hb Hh st. unfold try_except_Exception. specialize (Hb st).
  destruct (body st) as [a st1|e st1]; simpl in *; [done|].
  destruct (is_Exception e); [|done]. by rewrite (Hh e st1).
Qed.

Lemma preserves_print line : preserves_session (print line).
Proof. by intros st. Qed.

Lemma preserves_lift_clock {A} (m : Clock A) : preserves_session (lift_clock m).
Proof. intros st. unfold lift_clock. by destruct (m (ticks st)). Qed.

Lemma preserves_get_scraper source : preserves_session (_get_scraper source).
Proof.
  intros st. unfold _get_scraper, rbind, get_self. simpl.
  destruct (bool_decide _); [done|]. by destruct (has_scraper_class source).
Qed.

Lemma preserves_call_search source query limit :
  preserves_session (call_search adapter_search source query limit).
Proof.
  intros st. unfold call_search.
  by destruct (adapter_search source query limit).
Qed.

Lemma preserves_search_loop query srcs : ∀ all_topics,
  preserves_session (search_loop adapter_search query srcs all_topics).
Proof.
  induction srcs as [|s srcs IH]; intros all_topics; simpl.
  - apply preserves_rret.
  - apply preserves_rbind; [apply preserves_get_scraper|].
    intros [|]; simpl; [|apply IH].
    apply preserves_rbind; [|intros; apply IH].
    apply preserves_try.
    + apply preserves_rbind; [apply preserves_call_search|].
      intros. apply preserves_rret.
    + intros e. apply preserves_rbind; [apply preserves_print|].
      intros. apply preserves_rret.
Qed.

Lemma preserves_search query limit srcs :
  preserves_session (search clock adapter_search query limit srcs).
Proof.
  unfold search. intros st. unfold rbind at 1. unfold get_self at 1.
  apply (preserves_rbind _ _ (preserves_search_loop query _ [])).
  intros. apply preserves_lift_clock.
Qed.

(** C9, as the code has it. [search] neither creates nor changes a
    session. [research_trending] creates one with its first clock reading,
    whatever happens next. A run in which no adapter raises
    [KeyboardInterrupt] or [SystemExit] returns and leaves the session with
    [topics_discovered] the size of the merged list, counted before
    deduplication, [topics_curated] the size of the curated list, and
    [completed_at] the last clock reading of the run. A run that raises
    was ended by such an error and leaves the session without
    [completed_at]. *)
Theorem session_lifecycle :
  (∀ query limit srcs,
     preserves_session (search clock adapter_search query limit srcs))
  ∧ ∀ limit categories srcs min_score_arg st,
      let sources_to_query :=
        match srcs with
        | None | Some [] => sources (self st)
        | Some l => l
        end in
      let merged :=
        flat_map (contribution adapter_fetch_trending (self st) 50)
                 sources_to_query in
      let run :=
        research_trending clock adapter_fetch_trending limit categories srcs
                          min_score_arg st in
      (∃ session,
         _session (self (final_state run)) = Some session
         ∧ started_at session = clock (ticks st))
      ∧ (uninterrupted adapter_fetch_trending (self st) sources_to_query →
         ∃ curated st' session,
           run = Returned curated st'
           ∧ _session (self st') = Some session
           ∧ started_at session = clock (ticks st)
           ∧ topics_discovered session = Z.of_nat (length merged)
           ∧ topics_curated session = Z.of_nat (length curated)
           ∧ completed_at session = Some (clock (pred (ticks st')))
           ∧ (ticks st < pred (ticks st'))%nat)
      ∧ (∀ e st',
           run = Raised e st' →
           ¬ uninterrupted adapter_fetch_trending (self st) sources_to_query
           ∧ leaves_event_loop e = true
           ∧ ∃ session,
               _session (self st') = Some session
               ∧ completed_at session = None).
Proof.
  split; [apply preserves_search|].
  intros limit categories srcs min_score_arg st sources_to_query merged run.
  destruct (first_interruption adapter_fetch_trending (self st)
              sources_to_query)
    as [Hun|(before & s & after & e & Hsrcs & Hb & Hs)].
  - destruct (research_trending_run clock adapter_fetch_trending limit
                categories srcs min_score_arg st Hun)
      as (st' & Hrun & Hsess & Hticks & _).
    fold sources_to_query merged in Hrun, Hsess, Hticks. fold run in Hrun.
    split; [|split].
    + rewrite Hrun. cbn [final_state]. eexists. split; [exact Hsess|done].
    + intros _. eexists _, st', _. split; [exact Hrun|]. split; [exact Hsess|].
      rewrite Hticks. simpl. repeat split.
      pose proof (curate_topics_ticks clock (curator (self st))
                    (Curator.deduplicate_topics merged
                                                Curator.default_threshold)
                    limit categories (Some min_score_arg) (S (ticks st))).
      lia.
    + intros e st'' Hr. rewrite Hrun in Hr. discriminate Hr.
  - destruct (research_trending_interrupted clock adapter_fetch_trending
                limit categories srcs min_score_arg st before s after e
                Hsrcs Hb Hs)
      as (st' & Hrun & Hsess & _ & _).
    fold run in Hrun.
    split; [|split].
    + rewrite Hrun. cbn [final_state]. eexists. split; [exact Hsess|done].
    + intros Hun. exfalso.
      by apply (interrupted_not_uninterrupted adapter_fetch_trending
                  (self st) sources_to_query before s after e).
    + intros e' st'' Hr. rewrite Hrun in Hr. injection Hr as <- <-.
      split; [by apply (interrupted_not_uninterrupted adapter_fetch_trending
                          (self st) sources_to_query before s after e)|].
      split; [by apply interruption_Some in Hs as (_ & Hl & _)|].
      eexists. split; [exact Hsess|done].
Qed.

Lemma fetch_requests_ask_50 limit (l : list TrendSource) :
  Forall (λ rq, ∃ s, rq = FetchTrending s 50)
         (map (λ s, FetchTrending s 50) l)
  ∧ Forall (λ x, x = 50 ∧ (limit < 50 → limit < x)
                 ∧ (limit = 25 → x = 2 * limit))
           (fetch_limits (map (λ s, FetchTrending s 50) l)).
Proof.
  unfold fetch_limits. induction l as [|s l [IH1 IH2]].
  - split; constructor.
  - split; cbn [map omap list_omap]; constructor; try done.
    + by exists s.
    + lia.
Qed.

(** C8, as the code has it. Whatever the final limit, every fetch request
    of [research_trending] asks for 50 topics: more than the limit when
    the limit is below 50, twice the limit for the default limit 25. The
    requests go to the sources to query that have a scraper, in their
    order: to all of them in a run that no adapter ends with
    [KeyboardInterrupt] or [SystemExit], to the first of them otherwise. *)
Theorem research_trending_fetch_limit limit categories srcs min_score_arg st :
  let sources_to_query :=
    match srcs with
    | None | Some [] => sources (self st)
    | Some l => l
    end in
  let asked :=
    map (λ s, FetchTrending s 50)
        (List.filter (will_fetch (self st)) sources_to_query) in
  let run :=
    research_trending clock adapter_fetch_trending limit categories srcs
                      min_score_arg st in
  ∃ new_requests,
    requests (final_state run) = requests st ++ new_requests
    ∧ new_requests `prefix_of` asked
    ∧ (uninterrupted adapter_fetch_trending (self st) sources_to_query →
       (∃ curated st', run = Returned curated st') ∧ new_requests = asked)
    ∧ Forall (λ rq, ∃ s, s ∈ sources_to_query ∧ rq = FetchTrending s 50)
             new_requests
    ∧ Forall (λ l, l = 50 ∧ (limit < 50 → limit < l)
                   ∧ (limit = 25 → l = 2 * limit))
             (fetch_limits new_requests).
Proof.
  intros sources_to_query asked run.
  assert (Hfrom : ∀ new_requests,
            new_requests `prefix_of` asked →
            Forall (λ rq, ∃ s, s ∈ sources_to_query ∧ rq = FetchTrending s 50)
                   new_requests).
  { intros new_requests [k Hk]. apply Forall_forall. intros rq Hrq.
    assert (Hin : rq ∈ asked) by (rewrite Hk; apply elem_of_app; by left).
    apply list_elem_of_In, in_map_iff in Hin as (s & <- & Hs).
    apply filter_In in Hs as [Hs _]. exists s.
    split; [by apply list_elem_of_In|done]. }
  destruct (first_interruption adapter_fetch_trending (self st)
              sources_to_query)
    as [Hun|(before & s & after & e & Hsrcs & Hb & Hs)].
  - destruct (research_trending_run clock adapter_fetch_trending limit
                categories srcs min_score_arg st Hun)
      as (st' & Hrun & _ & _ & Hreq).
    fold sources_to_query in Hrun, Hreq. fold run in Hrun. fold asked in Hreq.
    exists asked. rewrite Hrun. cbn [final_state].
    split; [exact Hreq|]. split; [done|].
    split; [intros _; split; [by eexists _, _|done]|].
    split; [by apply Hfrom|]. apply fetch_requests_ask_50.
  - destruct (research_trending_interrupted clock adapter_fetch_trending
                limit categories srcs min_score_arg st before s after e
                Hsrcs Hb Hs)
      as (st' & Hrun & _ & _ & Hreq).
    fold run in Hrun.
    pose proof (interrupted_requests_prefix adapter_fetch_trending (self st)
                  before s after e Hs) as Hpre.
    fold sources_to_query in Hsrcs. rewrite <- Hsrcs in Hpre. fold asked in Hpre.
    exists (map (λ s, FetchTrending s 50)
                (List.filter (will_fetch (self st)) before ++ [s])).
    rewrite Hrun. cbn [final_state].
    split; [by rewrite Hreq, map_app|]. split; [exact Hpre|].
    split; [|split; [by apply Hfrom|apply fetch_requests_ask_50]].
    intros Hun. exfalso.
    by apply (interrupted_not_uninterrupted adapter_fetch_trending
                (self st) sources_to_query before s after e).
Qed.

(** C5. With three sources to query, one of which raises [SourceError]
    while the other two return their topics, [research_trending] returns
    and [topics_discovered] is the sum of the two result counts. *)
Theorem research_trending_fault_isolation
    limit categories srcs min_score_arg st s1 s2 s3 sf sa sb msg la lb :
  match srcs with
  | None | Some [] => sources (self st)
  | Some l => l
  end = [s1; s2; s3] →
  [s1; s2; s3] ≡ₚ [sf; sa; sb] →
  adapter_fetch_trending sf 50 = inr (SourceError msg) →
  will_fetch (self st) sa = true → adapter_fetch_trending sa 50 = inl la →
  will_fetch (self st) sb = true → adapter_fetch_trending sb 50 = inl lb →
  ∃ curated st' session,
    research_trending clock adapter_fetch_trending limit categories srcs
                      min_score_arg st
    = Returned curated st'
    ∧ _session (self st') = Some session
    ∧ topics_discovered session = Z.of_nat (length la + length lb).
Proof.
  intros Hsrcs Hperm Hf Hwa Ha Hwb Hb.
  assert (Hun : uninterrupted adapter_fetch_trending (self st) [s1; s2; s3]).
  { unfold uninterrupted. rewrite Hperm.
    repeat constructor; unfold interruption, task_result.
    - rewrite Hf. cbn. by destruct (will_fetch (self st) sf).
    - by rewrite Hwa, Ha.
    - by rewrite Hwb, Hb. }
  rewrite <- Hsrcs in Hun.
  destruct (research_trending_run clock adapter_fetch_trending limit
              categories srcs min_score_arg st Hun)
    as (st' & Hrun & Hsess & _ & _).
  eexists _, st', _. split; [exact Hrun|]. split; [exact Hsess|].
  simpl. f_equal. rewrite Hsrcs.
  rewrite (Permutation_length
             (Permutation_flat_map
                (contribution adapter_fetch_trending (self st) 50) Hperm)).
  simpl. unfold contribution. rewrite Hf, Hwa, Ha, Hwb, Hb.
  destruct (will_fetch (self st) sf); simpl; rewrite ?app_nil_r;
    by rewrite length_app.
Qed.

End Sessions.

(** ** The sample run *)

Lemma session_lifecycle_witness :
  _session (self (final_state
     (ViralContentResearcher.search Sample.clock Sample.adapter_search
        "ai" 25 None Sample.start)))
  = _session (self Sample.start)
  ∧ (∃ curated st' session,
       ViralContentResearcher.research_trending Sample.clock
         Sample.adapter_fetch_trending 25 None None 30%Q Sample.start
       = Returned curated st'
       ∧ _session (self st') = Some session
       ∧ completed_at session = Some (Sample.clock (pred (ticks st'))))
  ∧ ∃ session,
      _session (self (final_state
         (ViralContentResearcher.research_trending Sample.clock
            Sample.interrupted_adapter 25 None None 30%Q Sample.start)))
      = Some session
      ∧ completed_at session = None.
Proof.
  split; [|split].
  - apply (proj1 (session_lifecycle Sample.clock Sample.adapter_fetch_trending
                    Sample.adapter_search)).
  - destruct (proj2 (session_lifecycle Sample.clock
                       Sample.adapter_fetch_trending Sample.adapter_search)
                25 None None 30%Q Sample.start)
      as (_ & Hret & _).
    destruct Hret as (curated & st' & session & Hrun & Hsess & _ & _ & _
                      & Hdone & _).
    + repeat constructor.
    + exists curated, st', session.
      split; [exact Hrun|]. split; [exact Hsess|exact Hdone].
  - destruct (proj2 (session_lifecycle Sample.clock Sample.interrupted_adapter
                       Sample.adapter_search)
                25 None None 30%Q Sample.start)
      as (_ & _ & Hraised).
    destruct (ViralContentResearcher.research_trending Sample.clock
                Sample.interrupted_adapter 25 None None 30%Q Sample.start)
      as [curated st'|e st'] eqn:Erun.
    + vm_compute in Erun. discriminate Erun.
    + destruct (Hraised e st' eq_refl) as (_ & _ & Hsession).
      exact Hsession.
Defined.

(** C9 as stated fails: [search] leaves no session, and
    [topics_discovered] counts the merged list before deduplication. *)
Lemma session_lifecycle_counterexample :
  _session (self (final_state
     (ViralContentResearcher.search Sample.clock Sample.adapter_search
        "ai" 25 None Sample.start))) = None
  ∧ ∃ session,
      _session (self (final_state
         (ViralContentResearcher.research_trending Sample.clock
            Sample.adapter_fetch_trending 25 None None 30%Q Sample.start)))
      = Some session
      ∧ topics_discovered session = 3
      ∧ length (Curator.deduplicate_topics
                  [Sample.topic_a; Sample.topic_b; Sample.topic_c]
                  Curator.default_threshold) = 2%nat.
Proof.
  split; [vm_compute; reflexivity|].
  eexists. split; [vm_compute; reflexivity|].
  split; vm_compute; reflexivity.
Qed.

(** An adapter that raises [KeyboardInterrupt] ends the run: the error
    reaches the caller, the source after it is not asked and the session
    is left without [completed_at]. *)
Lemma research_trending_keyboard_interrupt :
  ∃ st' session,
    ViralContentResearcher.research_trending Sample.clock Sample.interrupted_adapter
      25 None None 30%Q Sample.start
    = Raised (mkExc "KeyboardInterrupt" "" false) st'
    ∧ requests st' = [FetchTrending REDDIT 50; FetchTrending HACKER_NEWS 50]
    ∧ _session (self st') = Some session
    ∧ completed_at session = None
    ∧ topics_discovered session = 0.
Proof.
  eexists _, _. split; [vm_compute; reflexivity|].
  split; [reflexivity|]. split; [reflexivity|]. split; reflexivity.
Qed.

Lemma research_trending_fetch_limit_witness :
  ∃ curated st' new_requests,
    ViralContentResearcher.research_trending Sample.clock
      Sample.adapter_fetch_trending 25 None None 30%Q Sample.start
    = Returned curated st'
    ∧ requests st' = requests Sample.start ++ new_requests
    ∧ new_requests
      = [FetchTrending REDDIT 50; FetchTrending HACKER_NEWS 50;
         FetchTrending RSS_FEED 50]
    ∧ Forall (λ l, 25 < l ∧ l = 2 * 25) (fetch_limits new_requests).
Proof.
  destruct (research_trending_fetch_limit Sample.clock
              Sample.adapter_fetch_trending 25 None None 30%Q Sample.start)
    as (new_requests & Hreq & _ & Hret & _ & Hlim).
  destruct Hret as [(curated & st' & Hrun) Hall]; [repeat constructor|].
  exists curated, st', new_requests. split; [exact Hrun|].
  rewrite Hrun in Hreq. split; [exact Hreq|]. split; [exact Hall|].
  eapply Forall_impl; [exact Hlim|].
  intros l (_ & Hlt & Hdouble). split; [apply Hlt; lia|apply Hdouble; reflexivity].
Defined.

(** C8 as stated fails: with a final limit of 100, which is what
    [research_category] asks for, every source is still asked for 50. *)
Lemma research_trending_fetch_limit_counterexample :
  fetch_limits (requests (final_state
     (ViralContentResearcher.research_trending Sample.clock
        Sample.adapter_fetch_trending 100 None None 30%Q Sample.start)))
  = [50; 50; 50]
  ∧ fetch_limits (requests (final_state
       (ViralContentResearcher.research_category Sample.clock
          Sample.adapter_fetch_trending AI_MARKETING 25 Sample.start)))
    = [50; 50; 50]
  ∧ ¬ Forall (λ l, 100 < l)
        (fetch_limits (requests (final_state
           (ViralContentResearcher.research_trending Sample.clock
              Sample.adapter_fetch_trending 100 None None 30%Q Sample.start)))).
Proof.
  assert (H : fetch_limits (requests (final_state
                (ViralContentResearcher.research_trending Sample.clock
                   Sample.adapter_fetch_trending 100 None None 30%Q
                   Sample.start))) = [50; 50; 50])
    by (vm_compute; reflexivity).
  split; [done|]. split; [vm_compute; reflexivity|].
  rewrite H. intros Hall. apply Forall_cons in Hall as [Hlt _]. lia.
Qed.

Lemma research_trending_fault_isolation_witness :
  ∃ curated st' session,
    ViralContentResearcher.research_trending Sample.clock
      Sample.adapter_fetch_trending 25 None None 30%Q Sample.start
    = Returned curated st'
    ∧ _session (self st') = Some session
    ∧ topics_discovered session = Z.of_nat (1 + 2).
Proof.
  apply (research_trending_fault_isolation Sample.clock
           Sample.adapter_fetch_trending 25 None None 30%Q Sample.start
           REDDIT HACKER_NEWS RSS_FEED HACKER_NEWS REDDIT RSS_FEED
           "timeout" [Sample.topic_a] [Sample.topic_b; Sample.topic_c]).
  - reflexivity.
  - apply perm_swap.
  - reflexivity.
  - reflexivity.
  - reflexivity.
  - reflexivity.
  - reflexivity.
Defined.

(** * Further properties of the code *)

(** Case analysis on the comparisons of a step function. *)
Ltac qcases :=
  repeat match goal with
         | |- context [PyNum.Qltb ?a ?b] =>
             let E := fresh "E" in
             destruct (PyNum.Qltb a b) eqn:E;
             [apply Qltb_lt in E | apply Qltb_ge in E];
             cbv iota
         end.

(** ** The factors, one by one *)

Section FactorShapes.
Import PyNum Curator.
Local Open Scope Q_scope.

Variable clock : nat → datetime.
Variable self : ContentCurator.

Lemma Qdiv_le_compat_r a b h : a <= b → 0 < h → a / h <= b / h.
Proof.
  intros Hab Hh. apply Qle_shift_div_l; [done|].
  unfold Qdiv. rewrite <- Qmult_assoc, (Qmult_comm (/ h)), Qmult_inv_r.
  - by rewrite Qmult_1_r.
  - intros H0. rewrite H0 in Hh. by apply Qlt_irrefl in Hh.
Qed.

Lemma hours_between_antitone n p1 p2 :
  (p1 <= p2)%Z → hours_between n p2 <= hours_between n p1.
Proof.
  intros Hp. unfold hours_between.
  assert (H : inject_Z (n - p2) <= inject_Z (n - p1))
    by (rewrite <- Zle_Qle; lia).
  apply Qdiv_le_compat_r; [|done]. by apply Qdiv_le_compat_r.
Qed.

(** X1. Of two topics scored at the same clock reading, the one published
    later never gets the lower recency factor. *)
Theorem recency_newer_not_lower t1 t2 p1 p2 k :
  published_at t1 = Some p1 → published_at t2 = Some p2 → (p1 <= p2)%Z →
  fst (calculate_recency_score clock t1 k)
  <= fst (calculate_recency_score clock t2 k).
Proof.
  intros H1 H2 Hp.
  unfold calculate_recency_score, cbind, cret, now. rewrite H1, H2.
  cbn [fst].
  pose proof (hours_between_antitone (clock k) p1 p2 Hp) as Hh.
  set (h1 := hours_between (clock k) p1) in *.
  set (h2 := hours_between (clock k) p2) in *.
  clearbody h1 h2. qcases; lra.
Qed.

(** X2. A positive [trending_velocity] is used as it is, capped at 100,
    without reading the clock. Without one, of two topics with the same
    publication time, the one with at least as many points and comments
    never gets the lower velocity factor. *)
Theorem velocity_explicit_or_monotone :
  (∀ t k, 0 < trending_velocity t →
     calculate_velocity_score clock t k = (Qmin (trending_velocity t) 100, k))
  ∧ (∀ t1 t2 k,
       trending_velocity t1 <= 0 → trending_velocity t2 <= 0 →
       published_at t1 = published_at t2 →
       (score t1 <= score t2)%Z → (comments t1 <= comments t2)%Z →
       fst (calculate_velocity_score clock t1 k)
       <= fst (calculate_velocity_score clock t2 k)).
Proof.
  split.
  - intros t k Ht. unfold calculate_velocity_score.
    by rewrite (proj2 (Qltb_lt _ _) Ht).
  - intros t1 t2 k Hv1 Hv2 Hp Hs Hc.
    unfold calculate_velocity_score.
    rewrite (proj2 (Qltb_ge _ _) Hv1), (proj2 (Qltb_ge _ _) Hv2), Hp.
    destruct (published_at t2) as [p|]; [|apply Qle_refl].
    unfold cbind, cret, now. cbn [fst].
    set (h := Qmax (hours_between (clock k) p) 1).
    assert (Hh : 0 < h).
    { eapply Qlt_le_trans; [|apply Qmax_ge_r]. done. }
    assert (Hr : inject_Z (score t1 + comments t1 * 2) / h
                 <= inject_Z (score t2 + comments t2 * 2) / h).
    { apply Qdiv_le_compat_r; [|done]. rewrite <- Zle_Qle. lia. }
    set (r1 := inject_Z (score t1 + comments t1 * 2) / h) in *.
    set (r2 := inject_Z (score t2 + comments t2 * 2) / h) in *.
    clearbody r1 r2. qcases; lra.
Qed.

(** The guarded share of one engagement count. *)
Lemma engagement_part_monotone (x y : Z) d cap :
  0 < d → 0 <= cap → (x <= y)%Z →
  (if (0 <? x)%Z then Qmin (zdiv x d) cap else 0)
  <= (if (0 <? y)%Z then Qmin (zdiv y d) cap else 0).
Proof.
  intros Hd Hcap Hxy.
  destruct (Z.ltb_spec 0 x) as [Hx|Hx], (Z.ltb_spec 0 y) as [Hy|Hy];
    try lia; try apply Qle_refl.
  - apply Q.min_le_compat_r. unfold zdiv.
    apply Qdiv_le_compat_r; [|done]. by rewrite <- Zle_Qle.
  - apply Qmin_ge; [|done]. apply zdiv_nonneg; [lia|done].
Qed.

(** X3. More points, comments or shares never lower the engagement
    factor. *)
Theorem engagement_monotone t1 t2 :
  (score t1 <= score t2)%Z → (comments t1 <= comments t2)%Z →
  (shares t1 <= shares t2)%Z →
  calculate_engagement_score t1 <= calculate_engagement_score t2.
Proof.
  intros Hs Hc Hh. unfold calculate_engagement_score.
  pose proof (engagement_part_monotone _ _ 50 40 eq_refl ltac:(done) Hs) as H1.
  pose proof (engagement_part_monotone _ _ 25 30 eq_refl ltac:(done) Hc) as H2.
  pose proof (engagement_part_monotone _ _ 10 30 eq_refl ltac:(done) Hh) as H3.
  apply Q.min_le_compat_r.
  destruct (0 <? score t1)%Z, (0 <? score t2)%Z,
           (0 <? comments t1)%Z, (0 <? comments t2)%Z,
           (0 <? shares t1)%Z, (0 <? shares t2)%Z; lra.
Qed.

End FactorShapes.

Lemma recency_newer_not_lower_witness :
  (fst (Curator.calculate_recency_score Sample.clock
          (mkTopic None "old" None None REDDIT GENERAL 0 0 0 0 0%Q 0%Q [] []
                   None (Some (-360000000000)%Z) 0%Z None None) 0%nat)
   <= fst (Curator.calculate_recency_score Sample.clock
             (mkTopic None "new" None None REDDIT GENERAL 0 0 0 0 0%Q 0%Q []
                      [] None (Some (-3600000000)%Z) 0%Z None None) 0%nat))%Q.
Proof.
  eapply (recency_newer_not_lower Sample.clock); [reflexivity|reflexivity|].
  cbv. discriminate.
Defined.

Lemma engagement_monotone_witness :
  (Curator.calculate_engagement_score Sample.topic_c
   <= Curator.calculate_engagement_score Sample.topic_a)%Q.
Proof.
  apply engagement_monotone; cbv; discriminate.
Defined.

Lemma velocity_explicit_or_monotone_witness :
  Curator.calculate_velocity_score Sample.clock
    (mkTopic None "launch" None None REDDIT GENERAL 0 0 0 0 0%Q (7 # 2)%Q [] []
             None (Some 0%Z) 0%Z None None) 0%nat
  = (Qmin (7 # 2) 100, 0%nat).
Proof.
  apply (proj1 (velocity_explicit_or_monotone Sample.clock)). reflexivity.
Defined.


(** ** Floors of the score *)

Section ScoreFloor.
Import PyNum Curator.
Local Open Scope Q_scope.

Variable clock : nat → datetime.
Variable self : ContentCurator.

Lemma recency_at_least_10 topic k :
  10 <= fst (calculate_recency_score clock topic k).
Proof.
  unfold calculate_recency_score, cbind, cret, now.
  destruct (published_at topic); cbn [fst]; [|done].
  qcases; done.
Qed.

Lemma relevance_at_least_50 topic :
  50 <= calculate_relevance_score self topic.
Proof.
  unfold calculate_relevance_score.
  set (text := (_ ++ _)%string).
  assert (Hk : (0 <= count_in HIGH_VALUE_KEYWORDS text)%Z)
    by (unfold count_in; lia).
  assert (Ht : (0 <= count_in TRENDING_INDICATORS text)%Z)
    by (unfold count_in; lia).
  change 50 with (inject_Z 50). rewrite <- Zle_Qle.
  case_bool_decide; destruct (keywords topic); lia.
Qed.

Lemma uniqueness_at_least_10 topic existing_topics :
  10 <= calculate_uniqueness_score topic existing_topics.
Proof.
  unfold calculate_uniqueness_score.
  destruct existing_topics as [[|e l]|]; [done| |done].
  apply Qmax_ge_r.
Qed.

(** Recency gives at least 10, relevance at least 50 and uniqueness at
    least 10, which makes a weighted sum of at least 16. *)
Lemma score_topic_floor topic existing_topics k :
  16 <= fst (score_topic clock self topic existing_topics k).
Proof.
  unfold score_topic, factor_scores, cbind, cret.
  pose proof (engagement_bounds topic) as He.
  pose proof (recency_at_least_10 topic k) as Hr.
  pose proof (relevance_at_least_50 topic) as Hrel.
  pose proof (uniqueness_at_least_10 topic existing_topics) as Hu.
  destruct (calculate_recency_score clock topic k) as [r k1].
  pose proof (velocity_bounds clock topic k1) as Hv.
  destruct (calculate_velocity_score clock topic k1) as [v k2].
  cbn [fst] in *. unfold round2.
  apply Qle_shift_div_l; [done|].
  change (16 * 100) with (inject_Z 1600). rewrite <- Zle_Qle.
  apply round_half_even_ge_int.
  rewrite weighted_sum_five. change (inject_Z 1600) with 1600. lra.
Qed.

(** X5. A batch topic with another id and the same title, letter case
    aside, brings the uniqueness factor down to its floor of 10, provided
    the title has a word. *)
Theorem uniqueness_floor_on_same_title topic other batch :
  other ∈ batch → id other ≠ id topic →
  PyStr.lower (title other) = PyStr.lower (title topic) →
  title_words topic ≠ ∅ →
  calculate_uniqueness_score topic (Some batch) = 10.
Proof.
  intros Hin Hid Htitle Hne.
  assert (Hone : 1 <= containment (title_words topic) (title_words other)).
  { unfold containment, title_words. rewrite Htitle.
    fold (title_words topic). rewrite (idemp_L (∩) (title_words topic)).
    assert (Hs : (0 < size (title_words topic))%nat).
    { destruct (size (title_words topic)) eqn:E; [|lia].
      apply size_empty_iff in E. exfalso. apply Hne. by apply leibniz_equiv. }
    unfold zdiv. apply Qle_shift_div_l.
    - change 0 with (inject_Z 0). rewrite <- Zlt_Qlt. lia.
    - rewrite Qmult_1_l, <- Zle_Qle. lia. }
  pose proof (max_overlap_loop_upper topic batch 0 other Hin Hid) as Hub.
  pose proof (max_overlap_loop_bounds topic batch 0) as [_ Hle]; [done|].
  unfold calculate_uniqueness_score.
  destruct batch as [|e l]; [by apply elem_of_nil in Hin|].
  set (m := max_overlap_loop topic (e :: l) 0) in *. clearbody m.
  unfold Qmax, GenericMinMax.gmax.
  destruct (100 - m * 100 ?= 10) eqn:E; [|done|].
  - apply Qeq_alt in E. lra.
  - apply Qgt_alt in E. lra.
Qed.

End ScoreFloor.

Lemma uniqueness_floor_on_same_title_witness :
  Curator.calculate_uniqueness_score Sample.topic_a
    (Some [Sample.topic_a;
           mkTopic (Some "h9"%string) "ai marketing TOOLS for 2025" None None
                   HACKER_NEWS GENERAL 0 0 0 0 0%Q 0%Q [] [] None None 0 None
                   None])
  = 10%Q.
Proof.
  eapply uniqueness_floor_on_same_title.
  - right. left.
  - discriminate.
  - reflexivity.
  - intros H. apply (f_equal size) in H. vm_compute in H. discriminate H.
Defined.

(** ** What deduplication keeps *)

Section DedupKeeps.
Import PyNum Curator.
Local Open Scope Q_scope.

Lemma jaccard_sym (a b : gset string) : jaccard a b = jaccard b a.
Proof.
  unfold jaccard. by rewrite (comm_L (∩) a b), (comm_L (∪) a b).
Qed.

Lemma near_duplicates_sym thr a b :
  near_duplicates thr a b ↔ near_duplicates thr b a.
Proof. unfold near_duplicates. by rewrite jaccard_sym. Qed.

(** The three outcomes of one round. *)
Lemma dedup_step_cases thr unique_topics topic :
  (find_duplicate thr (title_words topic) unique_topics = None
   ∧ dedup_step thr unique_topics topic = unique_topics ++ [topic])
  ∨ (∃ l1 existing l2,
       unique_topics = l1 ++ existing :: l2
       ∧ near_duplicates thr topic existing
       ∧ virality_score topic <= virality_score existing
       ∧ dedup_step thr unique_topics topic = unique_topics)
  ∨ (∃ l1 existing l2,
       unique_topics = l1 ++ existing :: l2
       ∧ near_duplicates thr topic existing
       ∧ virality_score existing < virality_score topic
       ∧ dedup_step thr unique_topics topic = l1 ++ l2 ++ [topic]).
Proof.
  destruct (find_duplicate thr (title_words topic) unique_topics)
    as [existing|] eqn:Ef.
  - destruct (find_duplicate_Some _ _ _ _ Ef) as (l1 & l2 & Hl & Hl1 & He).
    pose proof (dedup_step_at_duplicate thr unique_topics topic l1 existing l2
                  Hl Hl1 He) as Hstep.
    destruct (Qgtb (virality_score topic) (virality_score existing)) eqn:E.
    + right. right. apply Qgtb_gt in E. by exists l1, existing, l2.
    + right. left. apply Qltb_ge in E. by exists l1, existing, l2.
  - left. split; [done|]. unfold dedup_step. by rewrite Ef.
Qed.

Lemma dedup_fold_subset thr topics : ∀ unique_topics t,
  t ∈ fold_left (dedup_step thr) topics unique_topics →
  t ∈ unique_topics ∨ t ∈ topics.
Proof.
  induction topics as [|x topics IH]; intros U t Ht; cbn [fold_left] in Ht;
    [by left|].
  apply IH in Ht as [Ht|Ht]; [|right; by right].
  destruct (dedup_step_cases thr U x)
    as [[_ Hs]|[(l1 & e & l2 & -> & _ & _ & Hs)|(l1 & e & l2 & -> & _ & _ & Hs)]];
    rewrite Hs in Ht.
  - apply elem_of_app in Ht as [Ht|Ht]; [by left|].
    apply list_elem_of_singleton in Ht as ->. right. by left.
  - by left.
  - rewrite !elem_of_app, list_elem_of_singleton in Ht.
    destruct Ht as [Ht|[Ht| ->]].
    + left. apply elem_of_app. by left.
    + left. apply elem_of_app. right. by right.
    + right. by left.
Qed.

Lemma dedup_fold_length thr topics : ∀ unique_topics,
  (length (fold_left (dedup_step thr) topics unique_topics)
   <= length unique_topics + length topics)%nat
  ∧ (unique_topics ≠ [] ∨ topics ≠ [] →
     fold_left (dedup_step thr) topics unique_topics ≠ []).
Proof.
  induction topics as [|x topics IH]; intros U; cbn [fold_left].
  - split; [simpl; lia|]. by intros [H|H].
  - destruct (IH (dedup_step thr U x)) as [IHl IHn].
    assert (Hstep : (length (dedup_step thr U x) <= S (length U))%nat
                    ∧ dedup_step thr U x ≠ []).
    { destruct (dedup_step_cases thr U x)
        as [[_ ->]|[(l1 & e & l2 & -> & _ & _ & ->)
                   |(l1 & e & l2 & -> & _ & _ & ->)]].
      - rewrite length_app. simpl. split; [lia|]. by destruct U.
      - split; [lia|]. by destruct l1.
      - rewrite !length_app. simpl. split; [lia|].
        by destruct l1, l2. }
    split; [simpl; lia|]. intros _. apply IHn. left. tauto.
Qed.

(** X6. Deduplication invents nothing and loses something only to a
    duplicate: every topic it returns is a topic of the batch, it returns
    no more topics than it got, and at least one when the batch is not
    empty. *)
Theorem deduplicate_topics_subset topics thr :
  (∀ t, t ∈ deduplicate_topics topics thr → t ∈ topics)
  ∧ (length (deduplicate_topics topics thr) <= length topics)%nat
  ∧ (topics ≠ [] → deduplicate_topics topics thr ≠ []).
Proof.
  unfold deduplicate_topics.
  destruct (dedup_fold_length thr topics []) as [Hl Hn].
  split; [|split; [exact Hl|intros H; apply Hn; by right]].
  intros t Ht. apply dedup_fold_subset in Ht as [Ht|Ht]; [|done].
  by apply elem_of_nil in Ht.
Qed.

Lemma dedup_step_dominates thr unique_topics topic u :
  u ∈ unique_topics ∨ u = topic →
  ∃ y, y ∈ dedup_step thr unique_topics topic
       ∧ virality_score u <= virality_score y.
Proof.
  intros Hu.
  destruct (dedup_step_cases thr unique_topics topic)
    as [[_ ->]|[(l1 & e & l2 & -> & _ & Hle & ->)
               |(l1 & e & l2 & -> & _ & Hlt & ->)]].
  - exists u. split; [|apply Qle_refl].
    apply elem_of_app. destruct Hu as [Hu| ->]; [by left|right; by left].
  - destruct Hu as [Hu| ->]; [exists u; split; [done|apply Qle_refl]|].
    exists e. split; [|done]. apply elem_of_app. right. by left.
  - destruct Hu as [Hu| ->].
    + rewrite elem_of_app, elem_of_cons in Hu.
      destruct Hu as [Hu|[->|Hu]].
      * exists u. split; [|apply Qle_refl]. apply elem_of_app. by left.
      * exists topic. split; [|by apply Qlt_le_weak].
        rewrite !elem_of_app. right. right. by left.
      * exists u. split; [|apply Qle_refl].
        rewrite !elem_of_app. right. by left.
    + exists topic. split; [|apply Qle_refl].
      rewrite !elem_of_app. right. right. by left.
Qed.

Lemma dedup_fold_dominates thr topics : ∀ unique_topics u,
  u ∈ unique_topics ∨ u ∈ topics →
  ∃ y, y ∈ fold_left (dedup_step thr) topics unique_topics
       ∧ virality_score u <= virality_score y.
Proof.
  induction topics as [|x topics IH]; intros U u Hu; cbn [fold_left].
  - destruct Hu as [Hu|Hu]; [|by apply elem_of_nil in Hu].
    exists u. split; [done|apply Qle_refl].
  - assert (Hcase : (u ∈ U ∨ u = x) ∨ u ∈ topics).
    { destruct Hu as [Hu|Hu]; [left; by left|].
      apply elem_of_cons in Hu as [->|Hu]; [left; by right|by right]. }
    destruct Hcase as [Hu'|Hu'].
    + destruct (dedup_step_dominates thr U x u Hu') as (y & Hy & Hle).
      destruct (IH (dedup_step thr U x) y (or_introl Hy)) as (z & Hz & Hle').
      exists z. split; [done|]. by eapply Qle_trans.
    + apply IH. by right.
Qed.

(** X7. Deduplication never loses the best score: every topic of the batch
    is matched or beaten in score by a topic that is returned. *)
Theorem deduplicate_topics_keeps_best_score topics thr u :
  u ∈ topics →
  ∃ y, y ∈ deduplicate_topics topics thr
       ∧ virality_score u <= virality_score y.
Proof.
  intros Hu. apply dedup_fold_dominates. by right.
Qed.

(** X8. A batch in which no topic is a near-duplicate of an earlier one
    is returned as it is. *)
Theorem deduplicate_topics_identity_on_distinct topics thr :
  (∀ l1 a l2 b l3, topics = l1 ++ a :: l2 ++ b :: l3 →
                   ¬ near_duplicates thr a b) →
  deduplicate_topics topics thr = topics.
Proof.
  intros Hdistinct. unfold deduplicate_topics.
  apply (dedup_settled thr topics []). cbn [app].
  intros l1 e l2 Heq. apply find_duplicate_None, Forall_forall.
  intros x Hx. apply list_elem_of_split in Hx as (k1 & k2 & ->).
  apply Qnot_le_lt. intros Hle.
  apply (Hdistinct k1 x k2 e l2).
  - by rewrite Heq, <- app_assoc.
  - apply near_duplicates_sym. exact Hle.
Qed.

End DedupKeeps.

Lemma deduplicate_topics_keeps_best_score_witness :
  ∃ y, y ∈ Curator.deduplicate_topics
             [Sample.topic_a; Sample.topic_b; Sample.topic_c]
             Curator.default_threshold
       ∧ (virality_score Sample.topic_b <= virality_score y)%Q.
Proof.
  apply deduplicate_topics_keeps_best_score. right. left.
Defined.

Lemma deduplicate_topics_identity_on_distinct_witness :
  Curator.deduplicate_topics [Sample.topic_a; Sample.topic_c]
                             Curator.default_threshold
  = [Sample.topic_a; Sample.topic_c].
Proof.
  apply deduplicate_topics_identity_on_distinct.
  intros l1 a l2 b l3 Heq.
  destruct l1 as [|x [|y l1]]; [|destruct l2; discriminate Heq
                                |destruct l1; discriminate Heq].
  destruct l2 as [|z l2]; [|destruct l2; discriminate Heq].
  injection Heq as <- <- <-.
  unfold near_duplicates. vm_compute. intros H. apply H. reflexivity.
Defined.

Section DedupFirstWins.
Import PyNum Curator.
Local Open Scope Q_scope.

Lemma dedup_fold_first_wins thr topics : ∀ unique_topics,
  StronglySorted (λ a b, virality_score b <= virality_score a) topics →
  (∀ u x, u ∈ unique_topics → x ∈ topics →
          virality_score x <= virality_score u) →
  ∃ kept,
    fold_left (dedup_step thr) topics unique_topics = unique_topics ++ kept
    ∧ kept `sublist_of` topics
    ∧ ∀ x, x ∈ topics →
        x ∈ kept
        ∨ ∃ y, y ∈ unique_topics ++ kept ∧ near_duplicates thr x y
               ∧ virality_score x <= virality_score y.
Proof.
  induction topics as [|x topics IH]; intros U Hsorted Hscore;
    cbn [fold_left].
  - exists []. split; [by rewrite app_nil_r|]. split; [done|].
    intros x Hx. by apply elem_of_nil in Hx.
  - apply StronglySorted_inv in Hsorted as [Hsorted Hx].
    rewrite Forall_forall in Hx.
    destruct (dedup_step_cases thr U x)
      as [[_ Hs]|[(l1 & e & l2 & HU & Hdup & Hle & Hs)
                 |(l1 & e & l2 & HU & _ & Hlt & _)]].
    + rewrite Hs.
      destruct (IH (U ++ [x]) Hsorted) as (kept & Hfold & Hsub & Hcov).
      { intros u y Hu Hy. apply elem_of_app in Hu as [Hu|Hu].
        - apply Hscore; [done|by right].
        - apply list_elem_of_singleton in Hu as ->. by apply Hx. }
      exists (x :: kept). split; [by rewrite Hfold, <- app_assoc|].
      split; [by apply sublist_skip|].
      intros y Hy. apply elem_of_cons in Hy as [->|Hy]; [left; by left|].
      destruct (Hcov y Hy) as [Hk|(z & Hz & Hd & Hl)]; [left; by right|].
      right. exists z. split; [|done]. by rewrite <- app_assoc in Hz.
    + rewrite Hs.
      destruct (IH U Hsorted) as (kept & Hfold & Hsub & Hcov).
      { intros u y Hu Hy. apply Hscore; [done|by right]. }
      exists kept. split; [done|]. split; [by apply sublist_cons|].
      intros y Hy. apply elem_of_cons in Hy as [->|Hy]; [|by apply Hcov].
      right. exists e. split; [|done].
      apply elem_of_app. left. rewrite HU. apply elem_of_app. right. by left.
    + exfalso. apply (Qlt_not_le _ _ Hlt). apply Hscore; [|by left].
      rewrite HU. apply elem_of_app. right. by left.
Qed.

(** X9. On a batch whose scores never increase along the batch, the first
    topic of every group of near-duplicates wins: the result keeps the
    batch order, holds no two near-duplicates, and every topic left out is
    a near-duplicate of a returned topic that scores at least as high. *)
Theorem deduplicate_topics_first_wins topics thr :
  StronglySorted (λ a b, virality_score b <= virality_score a) topics →
  deduplicate_topics topics thr `sublist_of` topics
  ∧ (∀ l1 a l2 b l3,
       deduplicate_topics topics thr = l1 ++ a :: l2 ++ b :: l3 →
       ¬ near_duplicates thr a b)
  ∧ ∀ x, x ∈ topics →
      x ∈ deduplicate_topics topics thr
      ∨ ∃ y, y ∈ deduplicate_topics topics thr ∧ near_duplicates thr x y
             ∧ virality_score x <= virality_score y.
Proof.
  intros Hsorted. unfold deduplicate_topics.
  destruct (dedup_fold_first_wins thr topics [] Hsorted)
    as (kept & Hfold & Hsub & Hcov).
  { intros u x Hu. by apply elem_of_nil in Hu. }
  assert (Hsettled : settled thr (fold_left (dedup_step thr) topics [])).
  { apply dedup_nonincreasing_settled; [done| |apply settled_nil].
    intros u x Hu. by apply elem_of_nil in Hu. }
  rewrite Hfold in *. cbn [app] in *.
  split; [done|]. split; [|done].
  intros l1 a l2 b l3 Heq Hdup.
  assert (Hnone : find_duplicate thr (title_words b) (l1 ++ a :: l2) = None).
  { apply (Hsettled (l1 ++ a :: l2) b l3). by rewrite Heq, <- app_assoc. }
  apply find_duplicate_None in Hnone. rewrite Forall_forall in Hnone.
  apply near_duplicates_sym in Hdup.
  apply (Qlt_not_le _ _ (Hnone a ltac:(apply elem_of_app; right; by left))).
  exact Hdup.
Qed.

Lemma jaccard_same (a : gset string) : a ≠ ∅ → jaccard a a == 1.
Proof.
  intros Hne. unfold jaccard, zdiv.
  rewrite (idemp_L (∩) a), (idemp_L (∪) a).
  assert (Hs : (0 < size a)%nat).
  { destruct (size a) eqn:E; [|lia].
    apply size_empty_iff in E. exfalso. apply Hne. by apply leibniz_equiv. }
  rewrite Z.max_l by lia.
  apply Qmult_inv_r. intros H0.
  pose proof (proj1 (inject_Z_injective (Z.of_nat (size a)) 0) H0) as Hz.
  lia.
Qed.

(** X10. Titles are compared without regard to letter case: two topics
    whose titles differ only in case are duplicates at any threshold up
    to 1, and a batch of the two comes back as one record, the one with the
    higher score (the first one on a tie). *)
Theorem deduplicate_topics_ignores_case a b thr :
  PyStr.lower (title a) = PyStr.lower (title b) →
  title_words a ≠ ∅ → thr <= 1 →
  deduplicate_topics [a; b] thr
  = [if Qgtb (virality_score b) (virality_score a) then b else a].
Proof.
  intros Htitle Hne Hthr.
  assert (Hsame : title_words b = title_words a)
    by (unfold title_words; by rewrite Htitle).
  assert (Hsim : thr <= jaccard (title_words b) (title_words a)).
  { rewrite Hsame, (jaccard_same _ Hne). exact Hthr. }
  unfold deduplicate_topics. cbn [fold_left].
  change (dedup_step thr [] a) with [a].
  rewrite (dedup_step_at_duplicate thr [a] b [] a []);
    [|done|constructor|done].
  by destruct (Qgtb (virality_score b) (virality_score a)).
Qed.

End DedupFirstWins.

Lemma deduplicate_topics_first_wins_witness :
  Curator.deduplicate_topics
    [Sample.topic_b; Sample.topic_a; Sample.topic_c] Curator.default_threshold
  `sublist_of` [Sample.topic_b; Sample.topic_a; Sample.topic_c].
Proof.
  apply deduplicate_topics_first_wins.
  repeat constructor; cbv; discriminate.
Defined.

Lemma deduplicate_topics_ignores_case_witness :
  let shout := mkTopic (Some "h9"%string) "AI MARKETING TOOLS FOR 2025" None
                       None HACKER_NEWS GENERAL 0 0 0 0 70%Q 0%Q [] [] None
                       None 0 None None in
  Curator.deduplicate_topics [Sample.topic_a; shout] Curator.default_threshold
  = [if PyNum.Qgtb (virality_score shout) (virality_score Sample.topic_a)
     then shout else Sample.topic_a].
Proof.
  intros shout. apply deduplicate_topics_ignores_case.
  - reflexivity.
  - intros H. apply (f_equal size) in H. vm_compute in H. discriminate H.
  - cbv. discriminate.
Defined.

(** ** Curation with a low threshold *)

Section CurateAll.
Import PyNum Curator.
Local Open Scope Q_scope.

Variable clock : nat → datetime.
Variable self : ContentCurator.

(** Every topic the scoring loop visits carries a score of [score_topic]. *)
Lemma score_all_scores (P : Q → Prop) :
  (∀ topic existing_topics k,
     P (fst (score_topic clock self topic existing_topics k))) →
  ∀ n i topics k j t,
    (i <= j < i + n)%nat →
    fst (score_all clock self n i topics k) !! j = Some t →
    P (virality_score t).
Proof.
  intros HP n. induction n as [|n IH]; intros i topics k j t Hj Hout;
    [lia|].
  cbn [score_all] in Hout.
  destruct (topics !! i) as [topic|] eqn:Ei.
  - unfold cbind in Hout.
    pose proof (HP topic (Some topics) k) as Hv.
    destruct (score_topic clock self topic (Some topics) k) as [v k1].
    cbn [fst] in Hv.
    destruct (decide (i = j)) as [->|Hne].
    + destruct (score_all_spec clock self n (S j)
                  (<[j := set_virality_score v topic]> topics) k1)
        as (_ & Hkeep & _).
      rewrite Hkeep in Hout by lia.
      rewrite list_lookup_insert_eq in Hout by (by eapply lookup_lt_Some).
      by simplify_eq.
    + eapply (IH (S i)); [|exact Hout]. lia.
  - apply lookup_ge_None in Ei. apply lookup_lt_Some in Hout.
    unfold cret in Hout. cbn [fst] in Hout. lia.
Qed.

(** X4. Whatever the topic, the batch and the clock, [score_topic] is at
    least 16, and so is the score of every topic that [curate_topics]
    returns, whatever its arguments. *)
Theorem score_topic_at_least_16 :
  (∀ topic existing_topics k,
     16 <= fst (score_topic clock self topic existing_topics k))
  ∧ ∀ topics limit categories min_score_arg k t,
      t ∈ fst (curate_topics clock self topics limit categories
                             min_score_arg k) →
      16 <= virality_score t.
Proof.
  split; [apply (score_topic_floor clock self)|].
  intros topics limit categories min_score_arg k t.
  rewrite curate_topics_stages. cbv zeta. intros Ht.
  apply list_elem_of_In, in_slice_to, in_sort_desc, filter_In in Ht as [Ht _].
  apply list_elem_of_In, list_elem_of_lookup in Ht as [j Hj].
  match type of Hj with
  | fst (score_all _ _ ?n _ ?l ?k') !! _ = _ =>
      pose proof (score_all_spec clock self n 0 l k') as (H2 & _ & _);
      apply (score_all_scores (λ v, 16 <= v) (score_topic_floor clock self)
               n 0%nat l k' j t);
      [|exact Hj]
  end.
  apply lookup_lt_Some in Hj. apply Forall2_length in H2. lia.
Qed.

(** X11. With no category filter, a threshold of at most 16 and topics
    that are all fresh, curation drops nothing but what the limit cuts:
    it returns [min(limit, len(topics))] topics. *)
Theorem curate_topics_keeps_all topics limit categories min_score_arg k :
  categories = None ∨ categories = Some [] →
  default (min_score self) min_score_arg <= 16 →
  Forall (fresh_at (clock k) (max_age_hours self)) topics →
  (0 <= limit)%Z →
  length (fst (curate_topics clock self topics limit categories
                             min_score_arg k))
  = Nat.min (Z.to_nat limit) (length topics).
Proof.
  intros Hcat Hmin Hfresh Hlimit.
  rewrite curate_topics_stages. cbv zeta.
  assert (Hc : match categories with
               | None | Some [] => topics
               | Some cs => List.filter (λ t, bool_decide (category t ∈ cs)) topics
               end = topics) by (by destruct Hcat as [-> | ->]).
  rewrite Hc.
  rewrite (forallb_filter_id _ topics).
  2:{ apply forallb_forall. intros t Ht.
      rewrite Forall_forall in Hfresh.
      specialize (Hfresh t (proj2 (list_elem_of_In _ _) Ht)).
      unfold fresh_at in Hfresh. destruct (published_at t); [|done].
      by apply Qle_bool_iff. }
  destruct (score_all_spec clock self (length topics) 0 topics (S k))
    as (Hres & _ & _).
  apply Forall2_length in Hres.
  rewrite forallb_filter_id.
  2:{ apply forallb_forall. intros t Ht.
      apply list_elem_of_In, list_elem_of_lookup in Ht as [j Hj].
      apply Qgeb_ge. eapply Qle_trans; [exact Hmin|].
      apply (score_all_scores (λ v, 16 <= v)
               (score_topic_floor clock self)
               (length topics) 0%nat topics (S k) j t); [|done].
      apply lookup_lt_Some in Hj. lia. }
  unfold slice_to. rewrite (proj2 (Z.leb_le 0 limit) Hlimit).
  by rewrite length_take, length_sort_desc, <- Hres.
Qed.

End CurateAll.

Lemma score_topic_at_least_16_witness :
  Forall (λ t, (16 <= virality_score t)%Q)
    (fst (Curator.curate_topics Sample.clock default_curator
            [Sample.topic_a; Sample.topic_c] 25 None (Some 0%Q) 0%nat)).
Proof.
  apply Forall_forall. intros t Ht.
  exact (proj2 (score_topic_at_least_16 Sample.clock default_curator)
               _ _ _ _ _ _ Ht).
Defined.

Lemma curate_topics_keeps_all_witness :
  length (fst (Curator.curate_topics Sample.clock default_curator
                 [Sample.topic_a; Sample.topic_b; Sample.topic_c] 2 None
                 (Some 10%Q) 0%nat))
  = Nat.min (Z.to_nat 2) 3.
Proof.
  apply (curate_topics_keeps_all Sample.clock default_curator
           [Sample.topic_a; Sample.topic_b; Sample.topic_c]).
  - by left.
  - cbv. discriminate.
  - repeat constructor.
  - lia.
Defined.

(** ** Formats and word counts *)

Section Formats.
Import Curator.

(** The formats [identify_content_format] can return. *)
Lemma identify_content_format_values topic :
  identify_content_format topic
  ∈ [ "tutorial"; "guide"; "listicle"; "comparison"; "review"; "case_study";
      "template"; "tool_review"; "strategy_guide"; "blog_post" ]%string.
Proof.
  unfold identify_content_format.
  destruct (List.find _ FORMAT_KEYWORDS) as [kv|] eqn:Ef.
  - apply find_some in Ef as [Hin _].
    assert (Hsnd : In (snd kv) (map snd FORMAT_KEYWORDS)) by by apply in_map.
    cbn in Hsnd. apply list_elem_of_In.
    repeat (destruct Hsnd as [<-|Hsnd]; [cbn; tauto|]). done.
  - apply list_elem_of_In. destruct (category topic); cbn; tauto.
Qed.

(** X12. The format chosen for a topic always has an entry in the word
    count table, so its word count is never the fallback; every word
    count, also for an unknown format, lies between 1000 and 3000; and a
    title containing "how to", in any letter case, makes a tutorial
    whatever else it contains and whatever the category. *)
Theorem identify_content_format_word_count topic :
  is_Some (word_counts !! identify_content_format topic)
  ∧ (∀ format_type, 1000 <= estimate_word_count format_type <= 3000)
  ∧ (PyStr.contains "how to" (PyStr.lower (title topic)) = true →
     identify_content_format topic = "tutorial"%string
     ∧ estimate_word_count (identify_content_format topic) = 2000).
Proof.
  split; [|split].
  - pose proof (identify_content_format_values topic) as Hv.
    apply list_elem_of_In in Hv. cbn in Hv.
    repeat (destruct Hv as [<-|Hv]; [vm_compute; eauto|]). done.
  - intros format_type. unfold estimate_word_count.
    destruct (word_counts !! format_type) as [n|] eqn:E; [|cbn; lia].
    apply elem_of_list_to_map_2, list_elem_of_In in E. cbn in E.
    repeat (destruct E as [[= <- <-]|E]; [cbn; lia|]). done.
  - intros Hhow.
    assert (Hid : identify_content_format topic = "tutorial"%string).
    { unfold identify_content_format, FORMAT_KEYWORDS.
      cbn [List.find fst snd]. by rewrite Hhow. }
    split; [done|]. rewrite Hid. by vm_compute.
Qed.

End Formats.

Lemma identify_content_format_word_count_witness :
  Curator.identify_content_format
    (mkTopic None "How To Pick a Free SEO Tool: the Guide" None None REDDIT
             SEO 0 0 0 0 0%Q 0%Q [] [] None None 0 None None)
  = "tutorial"%string.
Proof.
  apply identify_content_format_word_count. reflexivity.
Defined.

(** ** Dictionaries kept in insertion order *)

Section Dicts.
Import Curator.

Context {K : Type} `{EqDecision K}.

Lemma dict_get_None {A} (key : K) (d : list (K * A)) :
  dict_get key d = None ↔ key ∉ map fst d.
Proof.
  induction d as [|[k a] d IH]; cbn [dict_get map fst].
  - split; [intros _; apply not_elem_of_nil|done].
  - rewrite not_elem_of_cons. destruct (decide (k = key)) as [->|Hne].
    + split; [done|]. intros [Hk _]. done.
    + rewrite IH. split; [intros; split; [congruence|done]|tauto].
Qed.

Lemma dict_get_elem_of {A} (key : K) (a : A) (d : list (K * A)) :
  NoDup (map fst d) → (key, a) ∈ d → dict_get key d = Some a.
Proof.
  induction d as [|[k b] d IH]; cbn [dict_get map fst]; intros Hnd Hin;
    [by apply elem_of_nil in Hin|].
  apply NoDup_cons in Hnd as [Hk Hnd].
  apply elem_of_cons in Hin as [[= <- <-]|Hin].
  - by rewrite decide_True.
  - destruct (decide (k = key)) as [->|Hne]; [|by apply IH].
    exfalso. apply Hk. apply list_elem_of_In, in_map_iff.
    exists (key, a). split; [done|by apply list_elem_of_In].
Qed.

Lemma dict_get_Some_elem_of {A} (key : K) (a : A) (d : list (K * A)) :
  dict_get key d = Some a → (key, a) ∈ d.
Proof.
  induction d as [|[k b] d IH]; cbn [dict_get]; [done|].
  destruct (decide (k = key)) as [->|Hne].
  - intros [= ->]. by left.
  - intros H'. right. by apply IH.
Qed.

Lemma dict_get_append {A} (c key : K) (x : A) d :
  dict_get c (dict_append key x d)
  = if decide (c = key) then Some (default [] (dict_get key d) ++ [x])
    else dict_get c d.
Proof.
  induction d as [|[k l] d IH]; cbn [dict_append dict_get].
  - destruct (decide (key = c)) as [->|Hne].
    + by rewrite decide_True.
    + by rewrite decide_False by congruence.
  - destruct (decide (k = key)) as [->|Hne]; cbn [dict_get].
    + destruct (decide (key = c)) as [->|Hc].
      * by rewrite decide_True.
      * by rewrite decide_False by congruence.
    + destruct (decide (k = c)) as [->|Hc].
      * by rewrite decide_False by congruence.
      * exact IH.
Qed.

Lemma dict_append_keys {A} (key : K) (x : A) d :
  map fst (dict_append key x d)
  = match dict_get key d with
    | Some _ => map fst d
    | None => map fst d ++ [key]
    end.
Proof.
  induction d as [|[k l] d IH]; cbn [dict_append dict_get map fst app];
    [done|].
  destruct (decide (k = key)) as [->|Hne]; [done|].
  cbn [map fst]. rewrite IH. by destruct (dict_get key d).
Qed.

Lemma dict_append_NoDup {A} (key : K) (x : A) d :
  NoDup (map fst d) → NoDup (map fst (dict_append key x d)).
Proof.
  intros Hnd. rewrite dict_append_keys.
  destruct (dict_get key d) eqn:E; [done|].
  apply NoDup_app. split; [done|]. split; [|apply NoDup_singleton].
  intros k Hk Hk'. apply list_elem_of_singleton in Hk' as ->.
  by apply dict_get_None in E.
Qed.

Lemma dict_append_total {A} (key : K) (x : A) d :
  length (concat (map snd (dict_append key x d)))
  = S (length (concat (map snd d))).
Proof.
  induction d as [|[k l] d IH]; cbn [dict_append map snd concat]; [done|].
  destruct (decide (k = key)); cbn [map snd concat];
    rewrite !length_app; [simpl; lia|rewrite IH; lia].
Qed.

Lemma dict_get_incr (c key : K) d :
  dict_get c (dict_incr key d)
  = if decide (c = key) then Some (default 0 (dict_get key d) + 1)
    else dict_get c d.
Proof.
  induction d as [|[k n] d IH]; cbn [dict_incr dict_get].
  - destruct (decide (key = c)) as [->|Hne].
    + by rewrite decide_True.
    + by rewrite decide_False by congruence.
  - destruct (decide (k = key)) as [->|Hne]; cbn [dict_get].
    + destruct (decide (key = c)) as [->|Hc].
      * by rewrite decide_True.
      * by rewrite decide_False by congruence.
    + destruct (decide (k = c)) as [->|Hc].
      * by rewrite decide_False by congruence.
      * exact IH.
Qed.

Lemma dict_incr_keys (key : K) d :
  map fst (dict_incr key d)
  = match dict_get key d with
    | Some _ => map fst d
    | None => map fst d ++ [key]
    end.
Proof.
  induction d as [|[k l] d IH]; cbn [dict_incr dict_get map fst app];
    [done|].
  destruct (decide (k = key)) as [->|Hne]; [done|].
  cbn [map fst]. rewrite IH. by destruct (dict_get key d).
Qed.

Lemma dict_incr_NoDup (key : K) d :
  NoDup (map fst d) → NoDup (map fst (dict_incr key d)).
Proof.
  intros Hnd. rewrite dict_incr_keys.
  destruct (dict_get key d) eqn:E; [done|].
  apply NoDup_app. split; [done|]. split; [|apply NoDup_singleton].
  intros k Hk Hk'. apply list_elem_of_singleton in Hk' as ->.
  by apply dict_get_None in E.
Qed.

End Dicts.

(** ** Grouping by category *)

Section Grouping.
Import Curator.

Lemma group_fold topics : ∀ grouped seen,
  NoDup (map fst grouped) →
  (∀ c, dict_get c grouped
        = match of_category c seen with [] => None | l => Some l end) →
  length (concat (map snd grouped)) = length seen →
  let out :=
    fold_left (λ grouped topic, dict_append (category topic) topic grouped)
              topics grouped in
  NoDup (map fst out)
  ∧ (∀ c, dict_get c out
          = match of_category c (seen ++ topics) with
            | [] => None
            | l => Some l
            end)
  ∧ length (concat (map snd out)) = length (seen ++ topics).
Proof.
  induction topics as [|t topics IH]; intros grouped seen Hnd Hget Hlen;
    cbn [fold_left].
  - rewrite app_nil_r. by repeat split.
  - replace (seen ++ t :: topics) with ((seen ++ [t]) ++ topics)
      by (by rewrite <- app_assoc).
    apply IH.
    + by apply dict_append_NoDup.
    + intros c. unfold of_category in *.
      rewrite dict_get_append, List.filter_app. cbn [List.filter].
      destruct (decide (c = category t)) as [->|Hne].
      * rewrite bool_decide_eq_true_2 by done. rewrite Hget.
        destruct (List.filter _ seen) as [|a l]; [done|].
        cbn [default app]. done.
      * rewrite bool_decide_eq_false_2 by congruence.
        by rewrite app_nil_r.
    + rewrite dict_append_total, length_app, Hlen. simpl. lia.
Qed.

(** X13. [group_by_category] splits the batch: under each category it
    holds exactly the topics of that category, in batch order; a category
    without topics has no entry; no category is listed twice; and the
    groups together have as many topics as the batch. *)
Theorem group_by_category_partition topics :
  NoDup (map fst (group_by_category topics))
  ∧ (∀ c, dict_get c (group_by_category topics)
          = match of_category c topics with [] => None | l => Some l end)
  ∧ (∀ c l, (c, l) ∈ group_by_category topics →
            l = of_category c topics ∧ l ≠ [])
  ∧ length (concat (map snd (group_by_category topics))) = length topics.
Proof.
  destruct (group_fold topics [] []) as (Hnd & Hget & Hlen);
    [constructor|done|done|].
  cbn [app] in *. fold (group_by_category topics) in *.
  split; [done|]. split; [done|]. split; [|done].
  intros c l Hin. apply (dict_get_elem_of _ _ _ Hnd) in Hin.
  rewrite Hget in Hin.
  destruct (of_category c topics) as [|a l']; [done|].
  by injection Hin as <-.
Qed.

End Grouping.

(** ** Trending keywords *)

Section SortGeneric.
Import PyNum Curator.
Local Open Scope Q_scope.

Context {A : Type} (key : A → Q).

Lemma StronglySorted_weaken (R1 R2 : A → A → Prop) l :
  (∀ a b, R1 a b → R2 a b) → StronglySorted R1 l → StronglySorted R2 l.
Proof.
  intros HR. induction 1 as [|x l Hl IH Hx]; constructor; [done|].
  eapply Forall_impl; [exact Hx|]. intros b. apply HR.
Qed.

Lemma insert_desc_sorted x l :
  StronglySorted (λ a b, key b <= key a) l →
  StronglySorted (λ a b, key b <= key a) (insert_desc key x l).
Proof.
  induction 1 as [|y l Hl IH Hy]; cbn [insert_desc].
  - repeat constructor.
  - destruct (Qltb (key x) (key y)) eqn:E.
    + apply Qltb_lt in E. constructor; [done|].
      apply Forall_forall. intros z Hz.
      apply list_elem_of_In, in_insert_desc in Hz as [->|Hz].
      * by apply Qlt_le_weak.
      * rewrite Forall_forall in Hy. by apply Hy, list_elem_of_In.
    + apply Qltb_ge in E. constructor; [by constructor|].
      constructor; [done|].
      eapply Forall_impl; [exact Hy|]. intros z Hz. cbv beta in Hz.
      by eapply Qle_trans.
Qed.

Lemma sort_desc_sorted l :
  StronglySorted (λ a b, key b <= key a) (sort_desc key l).
Proof.
  induction l as [|x l IH]; cbn; [constructor|].
  by apply insert_desc_sorted.
Qed.

Lemma insert_desc_perm x l : insert_desc key x l ≡ₚ x :: l.
Proof.
  induction l as [|y l IH]; cbn [insert_desc]; [done|].
  destruct (Qltb (key x) (key y)); [|done].
  rewrite IH. apply perm_swap.
Qed.

Lemma sort_desc_perm l : sort_desc key l ≡ₚ l.
Proof.
  induction l as [|x l IH]; cbn; [done|].
  by rewrite insert_desc_perm, IH.
Qed.

End SortGeneric.

Section Keywords.
Import PyNum Curator.

Lemma keyword_counts_flat topics : ∀ counts,
  fold_left
    (λ counts topic,
       fold_left (λ counts kw, dict_incr kw counts) (keywords topic) counts)
    topics counts
  = fold_left (λ counts kw, dict_incr kw counts)
              (flat_map keywords topics) counts.
Proof.
  induction topics as [|t topics IH]; intros counts; cbn [fold_left flat_map];
    [done|].
  by rewrite fold_left_app, IH.
Qed.

Lemma count_fold (kws : list string) : ∀ (counts : list (string * Z)) seen,
  NoDup (map fst counts) →
  (∀ kw, dict_get kw counts
         = match List.filter (λ k, bool_decide (k = kw)) seen with
           | [] => None
           | l => Some (Z.of_nat (length l))
           end) →
  let out := fold_left (λ counts kw, dict_incr kw counts) kws counts in
  NoDup (map fst out)
  ∧ ∀ kw, dict_get kw out
          = match List.filter (λ k, bool_decide (k = kw)) (seen ++ kws) with
            | [] => None
            | l => Some (Z.of_nat (length l))
            end.
Proof.
  induction kws as [|x kws IH]; intros counts seen Hnd Hget; cbn [fold_left].
  - rewrite app_nil_r. by split.
  - replace (seen ++ x :: kws) with ((seen ++ [x]) ++ kws)
      by (by rewrite <- app_assoc).
    apply IH; [by apply dict_incr_NoDup|].
    intros kw. rewrite dict_get_incr, List.filter_app. cbn [List.filter].
    destruct (decide (kw = x)) as [->|Hne].
    + rewrite bool_decide_eq_true_2 by done. rewrite Hget.
      destruct (List.filter _ seen) as [|a l]; [done|].
      cbn [default app]. f_equal. rewrite !length_cons, length_app.
      cbn [length]. unfold Datatypes.id. lia.
    + rewrite bool_decide_eq_false_2 by congruence.
      by rewrite app_nil_r.
Qed.

Lemma keyword_counts_spec topics :
  NoDup (map fst (keyword_counts topics))
  ∧ ∀ kw, dict_get kw (keyword_counts topics)
          = if (keyword_occurrences kw topics =? 0)%Z then None
            else Some (keyword_occurrences kw topics).
Proof.
  unfold keyword_counts. rewrite keyword_counts_flat.
  destruct (count_fold (flat_map keywords topics) [] []) as [Hnd Hget];
    [constructor|done|].
  split; [done|]. intros kw. rewrite Hget. cbn [app].
  unfold keyword_occurrences.
  by destruct (List.filter _ (flat_map keywords topics)).
Qed.

(** X14. [get_trending_keywords] lists each keyword once, with the number
    of times the topics list it (at least one), most frequent first, and
    at most [top_n] of them; when [top_n] covers all the keywords, every
    keyword of every topic is listed. *)
Theorem get_trending_keywords_counts topics top_n :
  let out := get_trending_keywords topics top_n in
  NoDup (map fst out)
  ∧ Forall (λ kv, snd kv = keyword_occurrences (fst kv) topics
                  ∧ 1 <= snd kv) out
  ∧ StronglySorted (λ a b, snd b <= snd a) out
  ∧ (0 <= top_n → Z.of_nat (length out) <= top_n)
  ∧ (Z.of_nat (length (keyword_counts topics)) <= top_n →
     ∀ t kw, t ∈ topics → kw ∈ keywords t →
             (kw, keyword_occurrences kw topics) ∈ out).
Proof.
  intros out. subst out. unfold get_trending_keywords. cbv zeta.
  destruct (keyword_counts_spec topics) as [Hnd Hget].
  set (key := λ kv : string * Z, inject_Z (snd kv)).
  pose proof (sort_desc_perm key (keyword_counts topics)) as Hperm.
  pose proof (sort_desc_sorted key (keyword_counts topics)) as Hsorted.
  set (sorted := sort_desc key (keyword_counts topics)) in *.
  split; [|split; [|split; [|split]]].
  - apply (sublist_NoDup _ (map fst sorted)).
    + by rewrite Hperm.
    + unfold slice_to. destruct (0 <=? top_n); cbv iota;
        rewrite <- firstn_map; apply sublist_take.
  - apply Forall_forall. intros [kw n] Hin.
    apply list_elem_of_In, in_slice_to, list_elem_of_In in Hin.
    rewrite Hperm in Hin.
    apply (dict_get_elem_of _ _ _ Hnd) in Hin. rewrite Hget in Hin.
    cbn [fst snd].
    destruct (Z.eqb_spec (keyword_occurrences kw topics) 0) as [|Hne];
      [done|].
    injection Hin as <-. split; [done|].
    unfold keyword_occurrences in *. lia.
  - apply StronglySorted_slice_to.
    eapply StronglySorted_weaken; [|exact Hsorted].
    intros a b Hab. cbv beta in Hab. by rewrite Zle_Qle.
  - apply length_slice_to.
  - intros Hall t kw Ht Hkw.
    assert (Hfull : slice_to sorted top_n = sorted).
    { unfold slice_to. rewrite (proj2 (Z.leb_le 0 top_n)) by lia.
      apply firstn_all2. rewrite (Permutation_length Hperm). lia. }
    rewrite Hfull, Hperm.
    apply dict_get_Some_elem_of. rewrite Hget.
    destruct (Z.eqb_spec (keyword_occurrences kw topics) 0) as [H0|Hne];
      [|done].
    exfalso. unfold keyword_occurrences in H0.
    assert (Hin : In kw (List.filter (λ k, bool_decide (k = kw))
                                     (flat_map keywords topics))).
    { apply filter_In. split; [|by apply bool_decide_eq_true_2].
      apply in_flat_map. exists t. split; by apply list_elem_of_In. }
    destruct (List.filter _ (flat_map keywords topics)); [done|].
    cbn [length] in H0. lia.
Qed.

End Keywords.

Lemma get_trending_keywords_counts_witness :
  let t1 := mkTopic None "a" None None REDDIT GENERAL 0 0 0 0 0%Q 0%Q
                    ["seo"; "ai"]%string [] None None 0 None None in
  let t2 := mkTopic None "b" None None REDDIT GENERAL 0 0 0 0 0%Q 0%Q
                    ["ai"]%string [] None None 0 None None in
  (Z.of_nat (length (Curator.get_trending_keywords [t1; t2] 1)) <= 1)
  ∧ ("ai"%string, keyword_occurrences "ai" [t1; t2])
    ∈ Curator.get_trending_keywords [t1; t2] 5.
Proof.
  intros t1 t2.
  destruct (get_trending_keywords_counts [t1; t2] 1)
    as (_ & _ & _ & Hlen & _).
  destruct (get_trending_keywords_counts [t1; t2] 5)
    as (_ & _ & _ & _ & Hall).
  split; [apply Hlen; lia|].
  apply (Hall ltac:(vm_compute; discriminate) t2).
  - right. left.
  - left.
Defined.

(** ** The score given by the adapters *)

Section AdapterScore.
Import PyNum.
Local Open Scope Q_scope.

Variable clock : nat → datetime.

(** X15. The score an adapter computes is the sum of its four parts: the
    parts are capped at 30, 25, 25 and 20, so the final cap at 100 never
    cuts anything; the score is at most 100, and not negative when the
    counts are not negative. *)
Theorem adapter_virality_score_parts topic k :
  let v := fst (BaseScraper.calculate_virality_score clock topic k) in
  (∃ recency_score,
     In recency_score [0; 5; 10; 15; 20]
     ∧ v == Qmin (inject_Z (score topic) / 100) 30
            + Qmin (inject_Z (comments topic) / 50) 25
            + Qmin (inject_Z (shares topic) / 20) 25
            + recency_score)
  ∧ v <= 100
  ∧ ((0 <= score topic)%Z → (0 <= comments topic)%Z →
     (0 <= shares topic)%Z → 0 <= v).
Proof.
  intros v. subst v.
  unfold BaseScraper.calculate_virality_score, cbind, cret, Curator.now, zdiv.
  pose proof (Qmin_le_r (inject_Z (score topic) / 100) 30) as Hb.
  pose proof (Qmin_le_r (inject_Z (comments topic) / 50) 25) as Hc.
  pose proof (Qmin_le_r (inject_Z (shares topic) / 20) 25) as Hs.
  set (b := Qmin (inject_Z (score topic) / 100) 30) in *.
  set (c := Qmin (inject_Z (comments topic) / 50) 25) in *.
  set (s := Qmin (inject_Z (shares topic) / 20) 25) in *.
  assert (Hnonneg : (0 <= score topic)%Z → (0 <= comments topic)%Z →
                    (0 <= shares topic)%Z → 0 <= b ∧ 0 <= c ∧ 0 <= s).
  { intros H1 H2 H3. subst b c s.
    repeat split; (apply Qmin_ge; [apply zdiv_nonneg; [done|done]|done]). }
  assert (Hmain : ∀ r, In r [0; 5; 10; 15; 20] →
            (∃ recency_score,
               In recency_score [0; 5; 10; 15; 20]
               ∧ Qmin (b + c + s + r) 100 == b + c + s + recency_score)
            ∧ Qmin (b + c + s + r) 100 <= 100
            ∧ ((0 <= score topic)%Z → (0 <= comments topic)%Z →
               (0 <= shares topic)%Z → 0 <= Qmin (b + c + s + r) 100)).
  { intros r Hr.
    assert (Hr' : 0 <= r <= 20).
    { cbn in Hr. repeat (destruct Hr as [<-|Hr]; [split; done|]). done. }
    split; [|split].
    - exists r. split; [done|]. apply Q.min_l. lra.
    - apply Qmin_le_r.
    - intros H1 H2 H3. destruct (Hnonneg H1 H2 H3) as (? & ? & ?).
      apply Qmin_ge; lra. }
  clearbody b c s.
  destruct (published_at topic) as [p|]; cbn [fst].
  - qcases; apply Hmain; cbn; tauto.
  - apply Hmain. cbn. tauto.
Qed.

End AdapterScore.

Lemma adapter_virality_score_parts_witness :
  (0 <= fst (BaseScraper.calculate_virality_score Sample.clock Sample.topic_a
               0%nat) <= 100)%Q.
Proof.
  destruct (adapter_virality_score_parts Sample.clock Sample.topic_a 0%nat)
    as (_ & Hle & Hge).
  split; [|exact Hle]. apply Hge; cbv; discriminate.
Defined.

(** ** Searching *)

Lemma fetch_frame_add_scraper r k out reqs out' reqs' source :
  ViralContentResearcher.has_scraper_class source = true →
  fetch_frame (mkState r k out reqs)
    (mkState (mkResearcher (sources r) (curator r)
                (_scrapers r ++ [source]) (_session r)) k out' reqs').
Proof.
  intros Hs. unfold fetch_frame. cbn [self ticks sources curator _session].
  split; [done|]. split; [done|]. split; [done|]. split; [done|].
  intros s. unfold will_fetch. cbn [_scrapers].
  destruct (decide (s = source)) as [->|Hne].
  - by rewrite Hs, !orb_true_r.
  - f_equal. apply bool_decide_ext. rewrite elem_of_app.
    rewrite list_elem_of_singleton. split; [|by left].
    intros [H|H]; [done|]. by destruct Hne.
Qed.

Section Searching.
Import ViralContentResearcher.

Variable clock : nat → datetime.
Variable adapter_search : TrendSource → string → Z → list Topic + PyExc.

(** One round of the loop of [search]. *)
Lemma search_loop_step query source rest all_topics st :
  ∃ st1,
    fetch_frame st st1
    ∧ requests st1
      = requests st
        ++ (if will_fetch (self st) source
            then [Search source query 25] else [])
    ∧ ((∃ e, will_fetch (self st) source = true
             ∧ adapter_search source query 25 = inr e
             ∧ is_Exception e = false
             ∧ search_loop adapter_search query (source :: rest) all_topics st
               = Raised e st1)
       ∨ ((∀ e, will_fetch (self st) source = true →
                adapter_search source query 25 = inr e →
                is_Exception e = true)
          ∧ search_loop adapter_search query (source :: rest) all_topics st
            = search_loop adapter_search query rest
                (all_topics
                 ++ search_contribution adapter_search (self st) query source)
                st1)).
Proof.
  destruct st as [r k out reqs].
  cbn [search_loop].
  unfold _get_scraper, rbind, get_self, search_contribution, will_fetch,
    put_self, rret, try_except_Exception, call_search, print.
  cbn [self ticks stdout requests _scrapers].
  destruct (bool_decide (source ∈ _scrapers r)) eqn:Hc;
    [|destruct (has_scraper_class source) eqn:Hs];
    cbn [negb orb self ticks stdout requests].
  - destruct (adapter_search source query 25) as [l|e] eqn:Ea;
      [|destruct (is_Exception e) eqn:Ee].
    + eexists. split; [apply fetch_frame_same|]. split; [reflexivity|].
      right. split; [intros e _ [=]|reflexivity].
    + eexists. split; [apply fetch_frame_same|]. split; [reflexivity|].
      right. split; [by intros e' _ [= <-]|]. by rewrite app_nil_r.
    + eexists. split; [apply fetch_frame_same|]. split; [reflexivity|].
      left. by exists e.
  - destruct (adapter_search source query 25) as [l|e] eqn:Ea;
      [|destruct (is_Exception e) eqn:Ee].
    + eexists. split; [apply fetch_frame_add_scraper; exact Hs|].
      split; [reflexivity|].
      right. split; [intros e _ [=]|reflexivity].
    + eexists. split; [apply fetch_frame_add_scraper; exact Hs|].
      split; [reflexivity|].
      right. split; [by intros e' _ [= <-]|]. by rewrite app_nil_r.
    + eexists. split; [apply fetch_frame_add_scraper; exact Hs|].
      split; [reflexivity|].
      left. by exists e.
  - exists (mkState r k out reqs). split; [apply fetch_frame_same|].
    split; [by rewrite app_nil_r|].
    right. split; [by intros e [=]|]. by rewrite app_nil_r.
Qed.

(** The loop over sources none of which fails outside [Exception]. *)
Lemma search_loop_run query srcs : ∀ st all_topics,
  (∀ s e, s ∈ srcs → will_fetch (self st) s = true →
          adapter_search s query 25 = inr e → is_Exception e = true) →
  ∃ st',
    search_loop adapter_search query srcs all_topics st
    = Returned
        (all_topics
         ++ flat_map (search_contribution adapter_search (self st) query) srcs)
        st'
    ∧ fetch_frame st st'
    ∧ requests st'
      = requests st
        ++ map (λ s, Search s query 25)
               (List.filter (will_fetch (self st)) srcs).
Proof.
  induction srcs as [|s srcs IH]; intros st all_topics Hok.
  - exists st. cbn. rewrite !app_nil_r.
    split; [done|]. split; [apply fetch_frame_refl|done].
  - destruct (search_loop_step query s srcs all_topics st)
      as (st1 & Hframe & Hreq & [(e & Hw & Ha & He & _)|[_ Hstep]]).
    { rewrite (Hok s e) in He; [done|by left|done|done]. }
    pose proof Hframe as (_ & _ & _ & _ & Hwf).
    destruct (IH st1 (all_topics
                      ++ search_contribution adapter_search (self st) query s))
      as (st2 & Hrun & Hframe2 & Hreq2).
    { intros s' e' Hs' Hw' Ha'. rewrite Hwf in Hw'.
      apply (Hok s' e'); [by right|done|done]. }
    exists st2. rewrite Hstep, Hrun. split; [|split].
    + f_equal. cbn [flat_map]. rewrite <- app_assoc. do 2 f_equal.
      apply flat_map_ext. intros a. unfold search_contribution.
      by rewrite Hwf.
    + by eapply fetch_frame_trans.
    + rewrite Hreq2, Hreq, <- app_assoc. f_equal. cbn [List.filter].
      rewrite (filter_ext _ _ Hwf).
      by destruct (will_fetch (self st) s).
Qed.

(** The loop stops at the first source that fails outside [Exception]. *)
Lemma search_loop_raises query before source after e : ∀ st all_topics,
  (∀ s e', s ∈ before → will_fetch (self st) s = true →
           adapter_search s query 25 = inr e' → is_Exception e' = true) →
  will_fetch (self st) source = true →
  adapter_search source query 25 = inr e → is_Exception e = false →
  ∃ st',
    search_loop adapter_search query (before ++ source :: after) all_topics st
    = Raised e st'
    ∧ fetch_frame st st'
    ∧ requests st'
      = requests st
        ++ map (λ s, Search s query 25)
               (List.filter (will_fetch (self st)) before)
        ++ [Search source query 25].
Proof.
  induction before as [|s before IH]; intros st all_topics Hok Hw Ha He.
  - cbn [app].
    destruct (search_loop_step query source after all_topics st)
      as (st1 & Hframe & Hreq & [(e' & _ & Ha' & _ & Hstep)|[Hok' _]]).
    + rewrite Ha in Ha'. injection Ha' as <-.
      exists st1. split; [done|]. split; [done|].
      by rewrite Hreq, Hw.
    + rewrite (Hok' e Hw Ha) in He. done.
  - cbn [app].
    destruct (search_loop_step query s (before ++ source :: after)
                all_topics st)
      as (st1 & Hframe & Hreq & [(e' & Hw' & Ha' & He' & _)|[_ Hstep]]).
    { rewrite (Hok s e') in He'; [done|by left|done|done]. }
    pose proof Hframe as (_ & _ & _ & _ & Hwf).
    destruct (IH st1 (all_topics
                      ++ search_contribution adapter_search (self st) query s))
      as (st2 & Hrun & Hframe2 & Hreq2); [|by rewrite Hwf|done|done|].
    { intros s' e' Hs' Hw' Ha'. rewrite Hwf in Hw'.
      apply (Hok s' e'); [by right|done|done]. }
    exists st2. rewrite Hstep, Hrun. split; [done|].
    split; [by eapply fetch_frame_trans|].
    rewrite Hreq2, Hreq, <- !app_assoc. f_equal. cbn [List.filter].
    rewrite (filter_ext _ _ Hwf).
    by destruct (will_fetch (self st) s).
Qed.

End Searching.

Section SearchRuns.
Import ViralContentResearcher.

Variable clock : nat → datetime.
Variable adapter_search : TrendSource → string → Z → list Topic + PyExc.

Lemma curate_topics_min_score self topics limit categories min_score_arg k t :
  t ∈ fst (Curator.curate_topics clock self topics limit categories
                                 min_score_arg k) →
  (default (min_score self) min_score_arg <= virality_score t)%Q.
Proof.
  rewrite curate_topics_stages. cbv zeta. intros Ht.
  apply list_elem_of_In, in_slice_to, in_sort_desc, filter_In in Ht as [_ Ht].
  by apply Qgeb_ge in Ht.
Qed.

(** X16. When no adapter fails outside [Exception], [search] returns the
    curation, with minimum score 20, of the deduplicated results of the
    sources that have a scraper, in source order; a failing source adds
    nothing. Every source is asked for 25 results whatever the limit, and
    every topic returned scores between 20 and 100. *)
Theorem search_returns query limit srcs st :
  let sources_to_query :=
    match srcs with
    | None | Some [] => sources (self st)
    | Some l => l
    end in
  let merged :=
    flat_map (search_contribution adapter_search (self st) query)
             sources_to_query in
  let curation :=
    Curator.curate_topics clock (curator (self st))
      (Curator.deduplicate_topics merged Curator.default_threshold)
      limit None (Some 20%Q) (ticks st) in
  (∀ s e, s ∈ sources_to_query → will_fetch (self st) s = true →
          adapter_search s query 25 = inr e → is_Exception e = true) →
  ∃ st',
    search clock adapter_search query limit srcs st
    = Returned (fst curation) st'
    ∧ requests st'
      = requests st
        ++ map (λ s, Search s query 25)
               (List.filter (will_fetch (self st)) sources_to_query)
    ∧ Forall (λ t, (20 <= virality_score t <= 100)%Q) (fst curation).
Proof.
  intros sources_to_query merged curation Hok.
  assert (Hall : Forall (λ t, (20 <= virality_score t <= 100)%Q)
                        (fst curation)).
  { apply Forall_forall. intros t Ht. subst curation. split.
    - apply (curate_topics_min_score _ _ _ _ _ _ _ Ht).
    - apply (curate_topics_bounded _ _ _ _ _ _ _ _ Ht). }
  unfold search. unfold rbind at 1. unfold get_self at 1.
  fold sources_to_query.
  destruct (search_loop_run adapter_search query sources_to_query st [] Hok)
    as (st1 & Hrun & (_ & _ & _ & Hticks & _) & Hreq).
  unfold rbind. rewrite Hrun. cbn [app]. fold merged.
  unfold lift_clock. rewrite Hticks. fold curation.
  destruct curation as [curated k'] eqn:Ec.
  eexists. split; [reflexivity|]. cbn [requests fst]. split; [exact Hreq|].
  exact Hall.
Qed.

(** X17. [search] does not shield its caller from an error outside
    [Exception], such as a cancellation: it is raised to the caller as soon
    as a source raises it, and the sources after that one are not asked. *)
Theorem search_propagates query limit srcs st before source after e :
  match srcs with
  | None | Some [] => sources (self st)
  | Some l => l
  end = before ++ source :: after →
  (∀ s e', s ∈ before → will_fetch (self st) s = true →
           adapter_search s query 25 = inr e' → is_Exception e' = true) →
  will_fetch (self st) source = true →
  adapter_search source query 25 = inr e → is_Exception e = false →
  ∃ st',
    search clock adapter_search query limit srcs st = Raised e st'
    ∧ requests st'
      = requests st
        ++ map (λ s, Search s query 25)
               (List.filter (will_fetch (self st)) before)
        ++ [Search source query 25].
Proof.
  intros Hsrcs Hok Hw Ha He.
  unfold search. unfold rbind at 1. unfold get_self at 1. rewrite Hsrcs.
  destruct (search_loop_raises adapter_search query before source after e
              st [] Hok Hw Ha He) as (st1 & Hrun & _ & Hreq).
  unfold rbind. rewrite Hrun. by exists st1.
Qed.

End SearchRuns.

Lemma search_returns_witness :
  ∃ st',
    ViralContentResearcher.search Sample.clock Sample.adapter_search "ai" 5
                                  None Sample.start
    = Returned
        (fst (Curator.curate_topics Sample.clock default_curator
                (Curator.deduplicate_topics [Sample.topic_a; Sample.topic_b]
                                            Curator.default_threshold)
                5 None (Some 20%Q) 0%nat))
        st'
    ∧ requests st'
      = [Search REDDIT "ai" 25; Search HACKER_NEWS "ai" 25;
         Search RSS_FEED "ai" 25].
Proof.
  destruct (search_returns Sample.clock Sample.adapter_search "ai" 5 None
              Sample.start) as (st' & Hrun & Hreq & _).
  - intros s e Hs _ Ha.
    apply list_elem_of_In in Hs. cbn in Hs.
    destruct Hs as [<-|[<-|[<-|[]]]]; cbn in Ha;
      [discriminate Ha| |discriminate Ha].
    by injection Ha as <-.
  - exists st'. split; [exact Hrun|exact Hreq].
Defined.

Lemma search_propagates_witness :
  let cancelled := mkExc "CancelledError" "" false in
  let adapter (s : TrendSource) (q : string) (l : Z) : list Topic + PyExc :=
    match s with
    | HACKER_NEWS => inr cancelled
    | _ => inl [Sample.topic_a]
    end in
  ∃ st',
    ViralContentResearcher.search Sample.clock adapter "ai" 5 None Sample.start
    = Raised cancelled st'
    ∧ requests st' = [Search REDDIT "ai" 25; Search HACKER_NEWS "ai" 25].
Proof.
  intros cancelled adapter.
  destruct (search_propagates Sample.clock adapter "ai" 5 None Sample.start
              [REDDIT] HACKER_NEWS [RSS_FEED] cancelled)
    as (st' & Hrun & Hreq).
  - reflexivity.
  - intros s e' Hs _ Ha. apply list_elem_of_singleton in Hs as ->.
    discriminate Ha.
  - reflexivity.
  - reflexivity.
  - reflexivity.
  - exists st'. split; [exact Hrun|exact Hreq].
Defined.

(** ** What a research run leaves behind *)

Section CurateLength.
Import PyNum Curator.

Variable clock : nat → datetime.
Variable self : ContentCurator.

Lemma length_slice_to_le {A} (l : list A) n :
  (length (slice_to l n) <= length l)%nat.
Proof. unfold slice_to. destruct (0 <=? n); rewrite length_take; lia. Qed.

Lemma length_filter_le {A} (f : A → bool) l :
  (length (List.filter f l) <= length l)%nat.
Proof.
  induction l as [|x l IH]; cbn; [done|]. destruct (f x); cbn; lia.
Qed.

(** Curation returns no more topics than it gets, and no more than a
    limit that is not negative. *)
Lemma curate_topics_length topics limit categories min_score_arg k :
  let out :=
    fst (curate_topics clock self topics limit categories min_score_arg k) in
  (length out <= length topics)%nat
  ∧ (0 <= limit → Z.of_nat (length out) <= limit).
Proof.
  intros out. subst out. rewrite curate_topics_stages. cbv zeta.
  split; [|apply length_slice_to].
  etrans; [apply length_slice_to_le|]. rewrite length_sort_desc.
  etrans; [apply length_filter_le|].
  match goal with
  | |- (length (fst (score_all _ _ ?n _ ?l ?k')) <= _)%nat =>
      destruct (score_all_spec clock self n 0 l k') as (H2 & _ & _)
  end.
  apply Forall2_length in H2. rewrite <- H2.
  etrans; [apply length_filter_le|].
  destruct categories as [[|c cs]|]; [done|apply length_filter_le|done].
Qed.

End CurateLength.

Section Runs.
Import ViralContentResearcher.

Variable clock : nat → datetime.
Variable adapter_fetch_trending : TrendSource → Z → list Topic + PyExc.

(** X18. When no adapter raises [KeyboardInterrupt] or [SystemExit],
    [research_trending] returns and the session is complete and
    consistent: [completed_at] is set, [topics_curated] is the number of
    topics returned, it does not exceed [topics_discovered], nor the limit
    when the limit is not negative; and every topic returned scores
    between [min_score] and 100. *)
Theorem research_trending_session_consistent
    limit categories srcs min_score_arg st :
  uninterrupted adapter_fetch_trending (self st)
    (match srcs with
     | None | Some [] => sources (self st)
     | Some l => l
     end) →
  ∃ curated st' session,
    research_trending clock adapter_fetch_trending limit categories srcs
                      min_score_arg st
    = Returned curated st'
    ∧ _session (self st') = Some session
    ∧ is_Some (completed_at session)
    ∧ topics_curated session = Z.of_nat (length curated)
    ∧ 0 <= topics_curated session <= topics_discovered session
    ∧ (0 <= limit → topics_curated session <= limit)
    ∧ Forall (λ t, (min_score_arg <= virality_score t <= 100)%Q) curated.
Proof.
  intros Hun.
  destruct (research_trending_run clock adapter_fetch_trending limit
              categories srcs min_score_arg st Hun)
    as (st' & Hrun & Hsess & _ & _).
  cbv zeta in Hrun, Hsess. clear Hun.
  set (merged := flat_map _ _) in *.
  set (deduped := Curator.deduplicate_topics merged _) in *.
  destruct (curate_topics_length clock (curator (self st)) deduped limit
              categories (Some min_score_arg) (S (ticks st))) as [Hlen Hlim].
  assert (Hded : (length deduped <= length merged)%nat)
    by apply (dedup_fold_length Curator.default_threshold merged []).
  eexists _, st', _. split; [exact Hrun|]. split; [exact Hsess|].
  cbn [completed_at topics_curated topics_discovered].
  split; [done|]. split; [done|]. split; [lia|]. split; [exact Hlim|].
  apply Forall_forall. intros t Ht. split.
  - apply (curate_topics_min_score _ _ _ _ _ _ _ _ Ht).
  - apply (curate_topics_bounded _ _ _ _ _ _ _ _ Ht).
Qed.

(** X19. When no adapter raises [KeyboardInterrupt] or [SystemExit],
    [research_category] returns; every topic it returns has the category
    asked for and scores between 20 and 100; it returns at most 100
    topics, and at most [limit] when the limit is not negative. *)
Theorem research_category_result category_arg limit st :
  uninterrupted adapter_fetch_trending (self st) (sources (self st)) →
  ∃ topics st',
    research_category clock adapter_fetch_trending category_arg limit st
    = Returned topics st'
    ∧ Forall (λ t, category t = category_arg
                   ∧ (20 <= virality_score t <= 100)%Q) topics
    ∧ Z.of_nat (length topics) <= 100
    ∧ (0 <= limit → Z.of_nat (length topics) <= limit).
Proof.
  intros Hun. unfold research_category, rbind.
  destruct (research_trending_run clock adapter_fetch_trending 100 None None
              20%Q st Hun) as (st' & Hrun & _ & _ & _).
  cbv zeta in Hrun. rewrite Hrun. clear Hun.
  set (merged := flat_map _ _) in *.
  set (deduped := Curator.deduplicate_topics merged _) in *.
  destruct (curate_topics_length clock (curator (self st)) deduped 100
              None (Some 20%Q) (S (ticks st))) as [_ Hlim].
  set (curated := fst (Curator.curate_topics _ _ _ _ _ _ _)) in *.
  eexists _, st'. split; [reflexivity|]. split; [|split].
  - apply Forall_forall. intros t Ht.
    apply list_elem_of_In, in_slice_to, filter_In in Ht as [Ht Hcat].
    apply bool_decide_eq_true in Hcat. split; [done|].
    apply list_elem_of_In in Ht. subst curated. split.
    + apply (curate_topics_min_score _ _ _ _ _ _ _ _ Ht).
    + apply (curate_topics_bounded _ _ _ _ _ _ _ _ Ht).
  - pose proof (length_slice_to_le
                  (List.filter (λ t, bool_decide (category t = category_arg))
                               curated) limit).
    pose proof (length_filter_le
                  (λ t, bool_decide (category t = category_arg)) curated).
    lia.
  - apply length_slice_to.
Qed.

End Runs.

Lemma research_category_result_witness :
  ∃ topics st',
    ViralContentResearcher.research_category Sample.clock
      Sample.adapter_fetch_trending AI_MARKETING 1 Sample.start
    = Returned topics st'
    ∧ Forall (λ t, category t = AI_MARKETING) topics
    ∧ Z.of_nat (length topics) <= 1.
Proof.
  destruct (research_category_result Sample.clock
              Sample.adapter_fetch_trending AI_MARKETING 1 Sample.start)
    as (topics & st' & Hrun & Hall & _ & Hlim); [repeat constructor|].
  exists topics, st'. split; [exact Hrun|]. split.
  - eapply Forall_impl; [exact Hall|]. intros t [Hc _]. exact Hc.
  - apply Hlim. lia.
Defined.

Lemma research_trending_session_consistent_witness :
  ∃ curated st' session,
    ViralContentResearcher.research_trending Sample.clock
      Sample.adapter_fetch_trending 2 None None 30%Q Sample.start
    = Returned curated st'
    ∧ _session (self st') = Some session
    ∧ topics_curated session <= 2.
Proof.
  destruct (research_trending_session_consistent Sample.clock
              Sample.adapter_fetch_trending 2 None None 30%Q Sample.start)
    as (curated & st' & session & Hrun & Hsess & _ & _ & _ & Hlim & _);
    [repeat constructor|].
  exists curated, st', session. split; [exact Hrun|]. split; [exact Hsess|].
  apply Hlim. lia.
Defined.

(** ** The scraper cache *)

Section Preserving.

Variable I : State → Prop.

Lemma preserves_ret {A} (a : A) : preserves I (rret a).
Proof. by intros st Hst. Qed.

Lemma preserves_bind {A B} (m : Run A) (f : A → Run B) :
  preserves I m → (∀ a, preserves I (f a)) → preserves I (rbind m f).
Proof.
  intros Hm Hf st Hst. unfold rbind. specialize (Hm st Hst).
  destruct (m st) as [a st1|e st1]; cbn [final_state] in *; [|done].
  by apply Hf.
Qed.

Lemma preserves_try_except {A} (body : Run A) handler :
  preserves I body → (∀ e, preserves I (handler e)) →
  preserves I (try_except_Exception body handler).
Proof.
  intros Hb Hh st Hst. unfold try_except_Exception. specialize (Hb st Hst).
  destruct (body st) as [a st1|e st1]; cbn [final_state] in *; [done|].
  destruct (is_Exception e); [|done]. by apply Hh.
Qed.

Lemma preserves_gather {A} (tasks : list (Run A)) :
  Forall (preserves I) tasks → preserves I (gather tasks).
Proof.
  induction 1 as [|task tasks Ht _ IH]; cbn [gather];
    [apply preserves_ret|].
  intros st Hst. specialize (Ht st Hst).
  destruct (task st) as [a st1|e st1]; cbn [final_state] in Ht.
  - apply (preserves_bind _ _ IH); [|done]. intros rs. apply preserves_ret.
  - destruct (leaves_event_loop e); [done|].
    apply (preserves_bind _ _ IH); [|done]. intros rs. apply preserves_ret.
Qed.

End Preserving.

Section ScraperCache.
Import ViralContentResearcher.

Variable clock : nat → datetime.
Variable adapter_fetch_trending : TrendSource → Z → list Topic + PyExc.
Variable adapter_search : TrendSource → string → Z → list Topic + PyExc.

(** A method that changes nothing of the cache keeps it in order. *)
Lemma preserves_same_scrapers {A} (m : Run A) :
  (∀ st, _scrapers (self (final_state (m st))) = _scrapers (self st)) →
  preserves scrapers_ok m.
Proof. intros Hm st Hst. unfold scrapers_ok in *. by rewrite Hm. Qed.

Lemma scrapers_ok_get_scraper source :
  preserves scrapers_ok (_get_scraper source).
Proof.
  intros st [Hnd Hall]. unfold _get_scraper, rbind, get_self.
  destruct (bool_decide (source ∈ _scrapers (self st))) eqn:Hc;
    [by split|].
  destruct (has_scraper_class source) eqn:Hs; [|by split].
  apply bool_decide_eq_false in Hc.
  cbn [put_self rret final_state self _scrapers]. split.
  - apply NoDup_app. split; [done|]. split; [|apply NoDup_singleton].
    intros s Hin Hs'. apply list_elem_of_singleton in Hs' as ->. done.
  - apply Forall_app. split; [done|]. by constructor.
Qed.

Lemma scrapers_ok_update_session f :
  preserves scrapers_ok (update_session f).
Proof.
  apply preserves_same_scrapers. intros st.
  unfold update_session, rbind, get_self.
  by destruct (_session (self st)).
Qed.

Lemma scrapers_ok_lift_clock {A} (m : Clock A) :
  preserves scrapers_ok (lift_clock m).
Proof.
  apply preserves_same_scrapers. intros st. unfold lift_clock.
  by destruct (m (ticks st)).
Qed.

Lemma scrapers_ok_fetch source limit :
  preserves scrapers_ok
            (_fetch_from_source adapter_fetch_trending source limit).
Proof.
  unfold _fetch_from_source.
  apply preserves_bind; [apply scrapers_ok_get_scraper|].
  intros [|]; cbn [negb]; [|apply preserves_ret].
  apply preserves_try_except.
  - apply preserves_same_scrapers. intros st. unfold call_fetch_trending.
    by destruct (adapter_fetch_trending source limit).
  - intros e. apply preserves_bind; [|intros; apply preserves_ret].
    by apply preserves_same_scrapers.
Qed.

Lemma scrapers_ok_search_loop query srcs : ∀ all_topics,
  preserves scrapers_ok (search_loop adapter_search query srcs all_topics).
Proof.
  induction srcs as [|s srcs IH]; intros all_topics; cbn [search_loop].
  - apply preserves_ret.
  - apply preserves_bind; [apply scrapers_ok_get_scraper|].
    intros [|]; cbn [negb]; [|apply IH].
    apply preserves_bind; [|intros; apply IH].
    apply preserves_try_except.
    + apply preserves_bind; [|intros; apply preserves_ret].
      apply preserves_same_scrapers. intros st. unfold call_search.
      by destruct (adapter_search s query 25).
    + intros e. apply preserves_bind; [|intros; apply preserves_ret].
      by apply preserves_same_scrapers.
Qed.

(** X20. The researcher keeps one scraper per source: if the cache holds
    no source twice and only sources that have a scraper class, this is
    still so after [research_trending] and after [search], whether they
    return or raise; the cache then never holds more than five scrapers.
    A new researcher starts with an empty cache. *)
Theorem scraper_cache_invariant :
  (∀ srcs cur, scrapers_ok (mkState (new_researcher srcs cur) 0 [] []))
  ∧ (∀ limit categories srcs min_score_arg,
       preserves scrapers_ok
         (research_trending clock adapter_fetch_trending limit categories
                            srcs min_score_arg))
  ∧ (∀ query limit srcs,
       preserves scrapers_ok
         (search clock adapter_search query limit srcs))
  ∧ ∀ st, scrapers_ok st → (length (_scrapers (self st)) <= 5)%nat.
Proof.
  split; [|split; [|split]].
  - intros srcs cur. split; cbn; constructor.
  - intros limit categories srcs min_score_arg st Hst.
    unfold research_trending.
    unfold rbind at 1. unfold get_self at 1.
    unfold rbind at 1. unfold lift_clock at 1, Curator.now.
    unfold rbind at 1. unfold put_self at 1.
    cbn [self ticks stdout requests].
    match goal with
    | |- scrapers_ok (final_state (rbind ?m ?f ?st1)) =>
        apply (preserves_bind scrapers_ok m f)
    end.
    + apply preserves_gather, Forall_forall. intros task Htask.
      apply list_elem_of_In, in_map_iff in Htask as ([s l] & <- & _).
      apply scrapers_ok_fetch.
    + intros results.
      apply preserves_bind; [apply scrapers_ok_update_session|]. intros _.
      apply preserves_bind; [apply scrapers_ok_lift_clock|]. intros curated.
      apply preserves_bind; [apply scrapers_ok_update_session|]. intros _.
      apply preserves_bind; [apply scrapers_ok_lift_clock|]. intros finished.
      apply preserves_bind; [apply scrapers_ok_update_session|]. intros _.
      apply preserves_ret.
    + exact Hst.
  - intros query limit srcs st Hst.
    unfold search. unfold rbind at 1. unfold get_self at 1.
    match goal with
    | |- scrapers_ok (final_state (rbind ?m ?f st)) =>
        apply (preserves_bind scrapers_ok m f)
    end.
    + apply scrapers_ok_search_loop.
    + intros all_topics. apply scrapers_ok_lift_clock.
    + exact Hst.
  - intros st [Hnd Hall].
    change 5%nat
      with (length [REDDIT; GOOGLE_TRENDS; HACKER_NEWS; RSS_FEED; PRODUCT_HUNT]).
    apply NoDup_incl_length; [by apply NoDup_ListNoDup|].
    intros s Hs. rewrite Forall_forall in Hall.
    specialize (Hall s (proj2 (list_elem_of_In _ _) Hs)).
    destruct s; cbn in Hall; try discriminate Hall; cbn; tauto.
Qed.

End ScraperCache.

Lemma scraper_cache_invariant_witness :
  (length (_scrapers (self (final_state
     (ViralContentResearcher.research_trending Sample.clock
        Sample.adapter_fetch_trending 25 None None 30%Q Sample.start))))
   <= 5)%nat.
Proof.
  destruct (scraper_cache_invariant Sample.clock Sample.adapter_fetch_trending
              Sample.adapter_search) as (Hnew & Hrun & _ & Hlen).
  apply Hlen. apply Hrun. apply (Hnew (Some [REDDIT; HACKER_NEWS; RSS_FEED]) None).
Defined.

(** ** Marketing insights *)

Section Insights.
Import ViralContentResearcher.

Variable clock : nat → datetime.
Variable adapter_fetch_trending : TrendSource → Z → list Topic + PyExc.

Lemma Forall2_map_graph {A B} (f : A → B) (P : A → B → Prop) l :
  (∀ x, P x (f x)) → Forall2 P l (map f l).
Proof. intros HP. induction l; cbn; constructor; auto. Qed.

Lemma group_sizes_sum (d : list (ContentCategory * list Topic)) :
  fold_right Z.add 0
    (map snd (map (λ item, (category_value (fst item),
                            Z.of_nat (length (snd item)))) d))
  = Z.of_nat (length (concat (map snd d))).
Proof.
  induction d as [|[c l] d IH]; cbn [map snd fst fold_right concat]; [done|].
  rewrite IH, length_app. lia.
Qed.

(** X21. When no adapter raises [KeyboardInterrupt] or [SystemExit],
    [get_marketing_insights] returns. It hands back the session of its run; its top topics score between 25 and 100 and are at
    most [limit] when the limit is not negative; there is one
    recommendation for each of the first five top topics, with the title
    and format of the topic, three angles, and urgency "high" exactly when
    the topic scores above 70; and the counts of the category breakdown
    add up to the [topics_curated] of the session. *)
Theorem marketing_insights_result limit st :
  uninterrupted adapter_fetch_trending (self st) (sources (self st)) →
  ∃ insights st' session,
    get_marketing_insights clock adapter_fetch_trending limit st
    = Returned insights st'
    ∧ insights_session insights = Some session
    ∧ _session (self st') = Some session
    ∧ is_Some (completed_at session)
    ∧ Forall (λ t, (25 <= virality_score t <= 100)%Q) (top_topics insights)
    ∧ (0 <= limit → Z.of_nat (length (top_topics insights)) <= limit)
    ∧ (length (recommendations insights) <= 5)%nat
    ∧ Forall2
        (λ t rec,
           rec_topic rec = title t
           ∧ rec_format rec = Curator.identify_content_format t
           ∧ length (rec_angles rec) = 3%nat
           ∧ (rec_urgency rec = "high"%string ↔ (70 < virality_score t)%Q))
        (PyNum.slice_to (top_topics insights) 5) (recommendations insights)
    ∧ fold_right Z.add 0 (map snd (category_breakdown insights))
      = topics_curated session.
Proof.
  intros Hun. unfold get_marketing_insights. unfold rbind at 1.
  destruct (research_trending_run clock adapter_fetch_trending 100 None None
              25%Q st Hun) as (st' & Hrun & Hsess & _ & _).
  cbv zeta in Hrun, Hsess. rewrite Hrun. clear Hun.
  set (merged := flat_map _ _) in *.
  set (deduped := Curator.deduplicate_topics merged _) in *.
  set (curation := Curator.curate_topics _ _ _ _ _ _ _) in *.
  assert (Hscores : ∀ t, t ∈ fst curation →
                         (25 <= virality_score t <= 100)%Q).
  { intros t Ht. subst curation. split.
    - apply (curate_topics_min_score _ _ _ _ _ _ _ _ Ht).
    - apply (curate_topics_bounded _ _ _ _ _ _ _ _ Ht). }
  clearbody curation.
  unfold rbind, get_self, rret. rewrite Hsess.
  eexists _, st', _. split; [reflexivity|].
  cbn [insights_session top_topics recommendations category_breakdown
       completed_at topics_curated].
  split; [reflexivity|]. split; [exact Hsess|]. split; [done|].
  split; [|split; [|split; [|split]]].
  - apply Forall_forall. intros t Ht. apply Hscores.
    by apply list_elem_of_In, in_slice_to, list_elem_of_In in Ht.
  - apply length_slice_to.
  - rewrite length_map.
    pose proof (length_slice_to (PyNum.slice_to (fst curation) limit) 5).
    lia.
  - apply Forall2_map_graph. intros t.
    cbn [rec_topic rec_format rec_angles rec_urgency].
    split; [done|]. split; [done|]. split; [done|].
    destruct (PyNum.Qgtb (virality_score t) 70) eqn:E.
    + apply Qgtb_gt in E. done.
    + apply Qltb_ge in E. split; [done|]. intros Hlt.
      exfalso. by apply (Qlt_not_le _ _ Hlt).
  - rewrite group_sizes_sum.
    destruct (group_fold (fst curation) [] []) as (_ & _ & Hlen);
      [constructor|done|done|].
    cbn [app] in Hlen. unfold Curator.group_by_category. by rewrite Hlen.
Qed.

End Insights.

Lemma marketing_insights_result_witness :
  ∃ insights st',
    ViralContentResearcher.get_marketing_insights Sample.clock
      Sample.adapter_fetch_trending 1 Sample.start
    = Returned insights st'
    ∧ Z.of_nat (length (ViralContentResearcher.top_topics insights)) <= 1.
Proof.
  destruct (marketing_insights_result Sample.clock
              Sample.adapter_fetch_trending 1 Sample.start)
    as (insights & st' & session & Hrun & _ & _ & _ & _ & Hlim & _);
    [repeat constructor|].
  exists insights, st'. split; [exact Hrun|]. apply Hlim. lia.
Defined.

(** ** Content briefs *)

Section BriefParts.
Import PyNum BriefGenerator.

(** X22. The title variants do not depend on the format: the result is cut
    to five entries and the seven general variants come first, so the
    variants of a listicle, tutorial or case study are never returned. *)
Theorem title_variants_ignore_format topic f1 f2 :
  _generate_title_variants topic f1 = _generate_title_variants topic f2
  ∧ length (_generate_title_variants topic f1) = 5%nat
  ∧ ∀ f, _generate_title_variants topic f
         = _generate_title_variants topic "blog_post".
Proof.
  assert (H : ∀ f, _generate_title_variants topic f
                   = _generate_title_variants topic "blog_post").
  { intros f. unfold _generate_title_variants.
    destruct (String.eqb f "listicle"); [reflexivity|].
    destruct (String.eqb f "tutorial"); [reflexivity|].
    destruct (String.eqb f "case_study"); reflexivity. }
  split; [by rewrite (H f1), (H f2)|]. split; [|exact H].
  rewrite (H f1). reflexivity.
Qed.

Lemma add_words_spec ws kws :
  ∃ added,
    fold_left add_word ws kws = kws ++ added
    ∧ (∀ w, w ∈ added → w ∈ ws ∧ (3 < String.length w)%nat)
    ∧ (NoDup kws → NoDup (kws ++ added))
    ∧ (∀ w, w ∈ ws → (3 < String.length w)%nat → w ∈ kws ++ added).
Proof.
  revert kws. induction ws as [|x ws IH]; intros kws; cbn [fold_left].
  - exists []. rewrite app_nil_r.
    split; [done|]. split; [|split; [done|]].
    + intros w Hw. by apply elem_of_nil in Hw.
    + intros w Hw. by apply elem_of_nil in Hw.
  - destruct (IH (add_word kws x)) as (added & Heq & Hin & Hnd & Hall).
    unfold add_word in *.
    destruct (Nat.ltb_spec 3 (String.length x)) as [Hlen|Hlen];
      cbn [andb] in *.
    + destruct (bool_decide_reflect (x ∈ kws)) as [Hx|Hx];
        cbn [negb] in *.
      * exists added. split; [done|]. split; [|split; [done|]].
        -- intros w Hw. destruct (Hin w Hw). split; [by right|done].
        -- intros w Hw Hl. apply elem_of_cons in Hw as [->|Hw]; [|by apply Hall].
           apply elem_of_app. by left.
      * exists (x :: added). rewrite <- app_assoc in Heq, Hnd, Hall.
        cbn [app] in Heq, Hnd, Hall.
        split; [done|]. split; [|split].
        -- intros w Hw. apply elem_of_cons in Hw as [->|Hw].
           ++ split; [left|done].
           ++ destruct (Hin w Hw). split; [by right|done].
        -- intros Hk. apply Hnd. apply NoDup_app. split; [done|]. split.
           ++ intros w Hw Hw'. apply list_elem_of_singleton in Hw'. by subst.
           ++ apply NoDup_singleton.
        -- intros w Hw Hl. apply elem_of_cons in Hw as [->|Hw]; [|by apply Hall].
           apply elem_of_app. right. left.
    + exists added. split; [done|]. split; [|split; [done|]].
      * intros w Hw. destruct (Hin w Hw). split; [by right|done].
      * intros w Hw Hl. apply elem_of_cons in Hw as [->|Hw]; [lia|by apply Hall].
Qed.

(** X23. The target keywords are at most ten; the topic's own keywords come
    first, followed by title words; every entry is a keyword of the topic or
    a lower-cased title word of more than three characters; no entry is
    repeated when the topic's keywords are not; and below ten entries no
    such title word is missing. *)
Theorem extract_target_keywords_spec topic :
  let result := _extract_target_keywords topic in
  let title_words := PyStr.split (PyStr.lower (title topic)) in
  (length result <= 10)%nat
  ∧ take 10 (keywords topic) `prefix_of` result
  ∧ (∀ w, w ∈ result →
       w ∈ keywords topic ∨ (w ∈ title_words ∧ (3 < String.length w)%nat))
  ∧ (NoDup (keywords topic) → NoDup result)
  ∧ ((length result < 10)%nat →
     ∀ w, w ∈ title_words → (3 < String.length w)%nat → w ∈ result).
Proof.
  intros result title_words. subst result.
  unfold _extract_target_keywords. fold title_words.
  destruct (add_words_spec title_words (keywords topic))
    as (added & Heq & Hin & Hnd & Hall).
  rewrite Heq. unfold slice_to. cbn [Z.leb Z.compare Z.to_nat Pos.to_nat].
  change (Pos.iter_op Nat.add 10 1%nat) with 10%nat.
  split; [|split; [|split; [|split]]].
  - rewrite length_take. lia.
  - rewrite take_app. apply prefix_app_r. done.
  - intros w Hw. apply subseteq_take in Hw.
    apply elem_of_app in Hw as [Hw|Hw]; [by left|right; by apply Hin].
  - intros Hk. eapply sublist_NoDup; [by apply Hnd|apply sublist_take].
  - intros Hlt w Hw Hl. rewrite length_take in Hlt.
    rewrite take_ge by lia. by apply Hall.
Qed.

Lemma length_substring_le n s : (String.length (substring 0 n s) <= n)%nat.
Proof.
  revert s. induction n as [|n IH]; intros [|c s]; cbn; try lia.
  specialize (IH s). lia.
Qed.

Lemma length_substring_full n s :
  (n <= String.length s)%nat → String.length (substring 0 n s) = n.
Proof.
  revert s. induction n as [|n IH]; intros [|c s]; simpl; try lia.
  intros H. rewrite IH; lia.
Qed.

Lemma str_length_app (a b : string) :
  String.length (a ++ b) = (String.length a + String.length b)%nat.
Proof. induction a as [|c a IH]; simpl; [done|]. by f_equal. Qed.

(** X24. The meta description has at most 155 characters and starts with
    [Learn ]; a description that had to be cut has exactly 155 and ends
    with three dots. *)
Theorem meta_description_length topic hook :
  let desc := _generate_meta_description topic hook in
  let full := ("Learn " ++ PyStr.lower (title topic) ++ ". "
               ++ substring 0 80 hook)%string in
  (String.length desc <= 155)%nat
  ∧ PyStr.prefix "Learn " desc = true
  ∧ ((String.length full <= 155)%nat → desc = full)
  ∧ ((155 < String.length full)%nat →
     String.length desc = 155%nat
     ∧ desc = (substring 0 152 full ++ "...")%string).
Proof.
  intros desc full. subst desc. unfold _generate_meta_description.
  fold full.
  destruct (Nat.ltb_spec 155 (String.length full)) as [Hlong|Hshort].
  - assert (Hlen : String.length (substring 0 152 full) = 152%nat)
      by (apply length_substring_full; lia).
    split; [|split; [|split]].
    + rewrite str_length_app, Hlen. cbn. lia.
    + subst full. reflexivity.
    + lia.
    + intros _. split; [|done]. rewrite str_length_app, Hlen. reflexivity.
  - split; [lia|]. split; [subst full; reflexivity|]. split; [done|lia].
Qed.

End BriefParts.

Lemma extract_target_keywords_spec_witness :
  NoDup (BriefGenerator._extract_target_keywords Sample.topic_a).
Proof.
  apply (proj1 (proj2 (proj2 (proj2
           (extract_target_keywords_spec Sample.topic_a))))).
  apply NoDup_nil_2.
Defined.

Lemma meta_description_length_witness :
  BriefGenerator._generate_meta_description Sample.topic_a "x"
  = ("Learn " ++ PyStr.lower (title Sample.topic_a) ++ ". "
     ++ substring 0 80 "x")%string.
Proof.
  apply (proj1 (proj2 (proj2
           (meta_description_length Sample.topic_a "x")))).
  vm_compute. lia.
Defined.

(** ** Whole briefs *)

Section Briefs.
Import PyNum BriefGenerator.

Variable clock : nat → datetime.
Variable uuid_values : nat → string.

Lemma get_template_word_count f :
  f ≠ "template"%string →
  word_count (get_template f) = Curator.estimate_word_count f.
Proof.
  intros Hf. unfold get_template, Curator.estimate_word_count.
  unfold FORMAT_TEMPLATES, Curator.word_counts.
  cbn [Curator.dict_get list_to_map foldr fst snd uncurry].
  repeat match goal with
         | |- context [decide (?k = f)] =>
             destruct (decide (k = f)) as [<-|?]; [reflexivity|]
         end.
  cbn [default].
  destruct (decide (f = "tool_review"%string)) as [->|?]; [reflexivity|].
  rewrite !lookup_insert_ne by done. by rewrite lookup_empty.
Qed.

(** X25. The word count of a brief is the curator's estimate for the
    brief's format, whatever the format, except for a template: there the
    brief says 1500 words and the curator 1000. *)
Theorem generate_brief_word_count topic format_type notes w :
  let brief := fst (generate_brief clock uuid_values topic format_type notes w) in
  (suggested_format brief ≠ "template"%string →
   estimated_word_count brief
   = Curator.estimate_word_count (suggested_format brief))
  ∧ (suggested_format brief = "template"%string →
     estimated_word_count brief = 1500
     ∧ Curator.estimate_word_count (suggested_format brief) = 1000).
Proof.
  intros brief. subst brief. unfold generate_brief, gbind, gret, uuid4, utcnow.
  cbn [fst suggested_format estimated_word_count].
  split.
  - apply get_template_word_count.
  - intros ->. split; reflexivity.
Qed.

Lemma determine_urgency_monotone t1 t2 :
  (virality_score t2 <= virality_score t1)%Q →
  (urgency_rank (_determine_urgency t2)
   <= urgency_rank (_determine_urgency t1))%nat.
Proof.
  intros Hle. unfold _determine_urgency.
  repeat match goal with
         | |- context [Qgeb ?a ?b] =>
             let E := fresh "E" in
             destruct (Qgeb a b) eqn:E;
             [apply Qgeb_ge in E
             |apply (f_equal negb) in E; cbn [negb] in E; apply Qltb_lt in E]
         end;
    cbn; try lia; exfalso; lra.
Qed.

Lemma StronglySorted_map {A B} (f : A → B) (R : B → B → Prop) l :
  StronglySorted (λ a b, R (f a) (f b)) l → StronglySorted R (map f l).
Proof.
  induction 1 as [|x l Hl IH Hx]; cbn [map]; constructor; [done|].
  apply Forall_map. exact Hx.
Qed.

Lemma gen_for_cons {A B} (f : A → Gen B) x l w :
  gen_for f (x :: l) w
  = (fst (f x w) :: fst (gen_for f l (snd (f x w))),
     snd (gen_for f l (snd (f x w)))).
Proof.
  cbn [gen_for]. unfold gbind, gret.
  destruct (f x w) as [y w1]. cbn [fst snd].
  by destruct (gen_for f l w1) as [ys w2].
Qed.

Lemma gen_for_brief_map {B} (p : ContentBrief → B) (g : Topic → B) l w :
  (∀ t w', p (fst (generate_brief clock uuid_values t None None w')) = g t) →
  map p (fst (gen_for (λ t, generate_brief clock uuid_values t None None) l w))
  = map g l.
Proof.
  intros Hp. revert w. induction l as [|t l IH]; intros w; [done|].
  rewrite gen_for_cons. cbn [fst map]. by rewrite Hp, IH.
Qed.

Lemma gen_for_brief_draws l w :
  let r := gen_for (λ t, generate_brief clock uuid_values t None None) l w in
  snd r = mkDraws (clock_reads w + length l) (uuid_draws w + length l)
  ∧ map brief_id (fst r)
    = map (λ i, Some (uuid_values (uuid_draws w + i))) (seq 0 (length l))
  ∧ map brief_created_at (fst r)
    = map (λ i, clock (clock_reads w + i)) (seq 0 (length l)).
Proof.
  revert w. induction l as [|t l IH]; intros w; cbn zeta.
  - cbn. destruct w. rewrite !Nat.add_0_r. done.
  - rewrite gen_for_cons. cbn [fst snd map length seq].
    set (w1 := snd (generate_brief clock uuid_values t None None w)).
    destruct (IH w1) as (Hs & Hi & Hc). rewrite Hs, Hi, Hc.
    assert (Hw1 : w1 = mkDraws (S (clock_reads w)) (S (uuid_draws w)))
      by reflexivity.
    rewrite Hw1. cbn [clock_reads uuid_draws].
    rewrite <- !seq_shift, !map_map, !Nat.add_0_r.
    split; [f_equal; lia|].
    split; (f_equal; try reflexivity); apply map_ext; intros i.
    + by replace (S (uuid_draws w) + i)%nat with (uuid_draws w + S i)%nat by lia.
    + by replace (S (clock_reads w) + i)%nat with (clock_reads w + S i)%nat by lia.
Qed.

(** X26. [generate_briefs_from_topics] returns, for a limit that is not
    negative, as many briefs as the limit and the batch allow; each brief
    is about one topic of the batch; no brief comes before a more urgent
    one; and the briefs take the identifiers and the clock readings in
    their order, one each. *)
Theorem generate_briefs_from_topics_ranked topics limit w :
  let run := generate_briefs_from_topics clock uuid_values topics limit w in
  let briefs := fst run in
  (0 <= limit → length briefs = Nat.min (Z.to_nat limit) (length topics))
  ∧ Forall (λ b, ∃ t, t ∈ topics ∧ source_topics b = [t]
                      ∧ brief_category b = category t
                      ∧ suggested_format b = Curator.identify_content_format t)
           briefs
  ∧ StronglySorted (λ u1 u2, (urgency_rank u2 <= urgency_rank u1)%nat)
                   (map urgency briefs)
  ∧ map brief_id briefs
    = map (λ i, Some (uuid_values (uuid_draws w + i))) (seq 0 (length briefs))
  ∧ map brief_created_at briefs
    = map (λ i, clock (clock_reads w + i)) (seq 0 (length briefs))
  ∧ snd run = mkDraws (clock_reads w + length briefs)
                      (uuid_draws w + length briefs).
Proof.
  intros run briefs. subst briefs run. unfold generate_briefs_from_topics.
  set (chosen := slice_to (Curator.sort_desc virality_score topics) limit).
  set (r := gen_for _ chosen w).
  assert (Hlen : length (fst r) = length chosen).
  { rewrite <- (length_map brief_category (fst r)). subst r.
    rewrite (gen_for_brief_map brief_category category chosen w)
      by reflexivity.
    apply length_map. }
  destruct (gen_for_brief_draws chosen w) as (Hs & Hi & Hc). fold r in Hs, Hi, Hc.
  rewrite Hlen.
  split; [|split; [|split; [|split; [|split]]]]; try done.
  - intros Hlim. subst chosen. unfold slice_to.
    destruct (Z.leb_spec 0 limit); [|lia].
    by rewrite length_take, length_sort_desc.
  - assert (Hsrc : map (λ b, (source_topics b, brief_category b,
                              suggested_format b)) (fst r)
                   = map (λ t, ([t], category t,
                                Curator.identify_content_format t)) chosen)
      by (subst r; apply gen_for_brief_map; reflexivity).
    apply Forall_forall. intros b Hb.
    apply list_elem_of_In in Hb.
    apply (in_map (λ b, (source_topics b, brief_category b,
                         suggested_format b))) in Hb.
    rewrite Hsrc in Hb. apply in_map_iff in Hb as (t & Heq & Ht).
    injection Heq as H1 H2 H3. exists t. split; [|done].
    subst chosen. apply in_slice_to in Ht.
    apply in_sort_desc in Ht. by apply list_elem_of_In.
  - subst r. rewrite (gen_for_brief_map urgency _determine_urgency chosen w)
      by reflexivity.
    apply StronglySorted_map. subst chosen. apply StronglySorted_slice_to.
    eapply StronglySorted_weaken; [|apply sort_desc_sorted].
    intros a b Hab. by apply determine_urgency_monotone.
Qed.

End Briefs.

Lemma generate_brief_word_count_witness :
  estimated_word_count
    (fst (BriefGenerator.generate_brief Sample.clock str_of_nat
            Sample.topic_a None None (mkDraws 0 0)))
  = Curator.estimate_word_count
      (suggested_format
         (fst (BriefGenerator.generate_brief Sample.clock str_of_nat
                 Sample.topic_a None None (mkDraws 0 0)))).
Proof.
  apply (proj1 (generate_brief_word_count Sample.clock str_of_nat
                  Sample.topic_a None None (mkDraws 0 0))).
  intros H. vm_compute in H. discriminate H.
Defined.

Lemma generate_briefs_from_topics_ranked_witness :
  length (fst (BriefGenerator.generate_briefs_from_topics Sample.clock
                 str_of_nat [Sample.topic_a; Sample.topic_b] 1
                 (mkDraws 0 0)))
  = Nat.min (Z.to_nat 1) 2.
Proof.
  apply (proj1 (generate_briefs_from_topics_ranked Sample.clock str_of_nat
                  [Sample.topic_a; Sample.topic_b] 1 (mkDraws 0 0))).
  lia.
Defined.

Lemma deduplicate_topics_subset_witness :
  Curator.deduplicate_topics [Sample.topic_a; Sample.topic_b]
                             Curator.default_threshold ≠ [].
Proof.
  apply (proj2 (proj2 (deduplicate_topics_subset
                         [Sample.topic_a; Sample.topic_b]
                         Curator.default_threshold))).
  intros H. discriminate H.
Defined.

Lemma group_by_category_partition_witness :
  [Sample.topic_a] = of_category AI_MARKETING [Sample.topic_a]
  ∧ [Sample.topic_a] ≠ [].
Proof.
  apply (proj1 (proj2 (proj2 (group_by_category_partition [Sample.topic_a])))).
  exact (list_elem_of_here (AI_MARKETING, [Sample.topic_a]) []).
Defined.
